(** * KIT_SCH scheduler ([scheduler.c]): a shallow embedding and its properties

    The development follows [cfs/apps/kit_sch/fsw/src/scheduler.c].  The
    scheduler object is a record, every C function is a Rocq function on
    that record, and the few places where the C program has no defined
    behaviour (an index outside the schedule table, a remainder by a zero
    [Period]) make the function return [None].

    Only [scheduler.c] is at hand.  The header [scheduler.h] (constants and
    the declaration of [SCHEDULER_Class]) and the collaborating objects
    (SCHTBL, MSGTBL, CMDMGR, the cFE services) enter as parameters: the
    constants and the field widths in [Platform], the collaborating
    functions in [World]. *)

From Stdlib Require Import ZArith Lia ZifyBool Bool List.
From stdpp Require Import base option list relations.
Import ListNotations.

#[local] Open Scope Z_scope.

(** ** Machine integers *)

(** An unsigned [w]-bit store keeps the value modulo [2^w]. *)
Definition wrap (w x : Z) : Z := x mod 2 ^ w.

(** [uint32] locals (CurrentSlot, ProcessCount, Remainder, METSlot). *)
Definition u32 (x : Z) : Z := wrap 32 x.

(** cFE status codes used by the scheduler. *)
Definition CFE_SUCCESS : Z := 0.
Definition OS_SUCCESS : Z := 0.
(** [CFE_SB_NO_MESSAGE] is [(int32)0xCA000008]; the code uses it as "any
    non-success error code". *)
Definition CFE_SB_NO_MESSAGE : Z := 3388997640 - 2 ^ 32.

(** ** Platform parameters (scheduler.h, not part of the sources) *)

(** The integer fields of [SCHEDULER_Class].  Their C types are declared in
    scheduler.h; each is taken to be an unsigned type whose width is given
    by the platform. *)
Inductive Field : Type :=
  | F_SlotsProcessedCount | F_SkippedSlotsCount | F_MultipleSlotsCount
  | F_SameSlotCount | F_ScheduleActivitySuccessCount
  | F_ScheduleActivityFailureCount | F_ValidMajorFrameCount
  | F_MissedMajorFrameCount | F_UnexpectedMajorFrameCount
  | F_TablePassCount | F_ConsecutiveNoisyFrameCounter
  | F_MinorFramesSinceTone | F_NextSlotNumber | F_LastSyncMETSlot
  | F_SyncAttemptsLeft | F_SyncToMET | F_LastProcessCount
  | F_WorstCaseSlotsPerMinorFrame.

Record Platform : Type := {
  bits : Field -> Z;
  SCHTBL_SLOTS : Z;
  SCHTBL_ACTIVITIES_PER_SLOT : Z;
  SCHEDULER_MAX_LAG_COUNT : Z;
  SCHEDULER_MAX_SLOTS_PER_WAKEUP : Z;
  SCHEDULER_TIME_SYNC_SLOT : Z;
  SCHEDULER_MAX_NOISY_MF : Z;
  SCHEDULER_MAX_SYNC_ATTEMPTS : Z;
  SCHEDULER_NORMAL_SLOT_PERIOD : Z;
  SCHEDULER_SHORT_SLOT_PERIOD : Z;
  SCHEDULER_SYNC_SLOT_PERIOD : Z;
  SCHEDULER_SYNCH_FALSE : Z;
  SCHEDULER_SYNCH_TO_MINOR : Z;
  SCHEDULER_SYNCH_MAJOR_PENDING : Z;
  SCHEDULER_SYNCH_TO_MAJOR : Z;
  CFE_TIME_FLAG_FLYING : Z
}.

(** What the code silently relies on: field widths of 8 to 32 bits,
    non-negative constants that fit an [int], a slot count that the
    [NextSlotNumber] field can hold, and a non-zero slot period (it is a
    divisor in [GetMETSlotNumber]). *)
Record PlatformOK (P : Platform) : Prop := {
  bits_range : forall f, 8 <= bits P f <= 32;
  slots_pos : 0 < SCHTBL_SLOTS P;
  slots_fit : SCHTBL_SLOTS P < 2 ^ bits P F_NextSlotNumber;
  activities_nonneg : 0 <= SCHTBL_ACTIVITIES_PER_SLOT P;
  lag_nonneg : 0 <= SCHEDULER_MAX_LAG_COUNT P < 2 ^ 31;
  per_wakeup_nonneg : 0 <= SCHEDULER_MAX_SLOTS_PER_WAKEUP P < 2 ^ 31;
  noisy_nonneg : 0 <= SCHEDULER_MAX_NOISY_MF P < 2 ^ 31;
  slot_period_pos : 0 < SCHEDULER_NORMAL_SLOT_PERIOD P < 2 ^ 31
}.

(** ** Data model *)

(** [MajorFrameSource] takes one of three enumerated values. *)
Inductive MajorFrameSource_t : Type :=
  | SCHEDULER_MF_SOURCE_NONE
  | SCHEDULER_MF_SOURCE_CFE_TIME
  | SCHEDULER_MF_SOURCE_MINOR_FRAME_TIMER.

(** A schedule-table entry (SCHTBL_Entry).  [Period], [Offset] and
    [MsgTblIndex] are unsigned. *)
Record SCHTBL_Entry : Type := {
  Enabled : bool;
  Period : Z;
  Offset : Z;
  MsgTblIndex : Z
}.

Definition set_Enabled (b : bool) (e : SCHTBL_Entry) : SCHTBL_Entry :=
  {| Enabled := b; Period := Period e; Offset := Offset e;
     MsgTblIndex := MsgTblIndex e |}.

(** The schedule table is the array [SchTbl.Entry[]], slot after slot. *)
Abbreviation SCHTBL_Tbl := (list SCHTBL_Entry).

(** A message-table entry is a buffer of 16-bit words. *)
Record MSGTBL_Entry : Type := { Buffer : list Z }.
Abbreviation MSGTBL_Tbl := (list MSGTBL_Entry).

(** What the scheduler does to the outside world.  [EvDispatch] is one
    attempt to send the message of an activity (slot, entry number, message
    index, resulting status); [EvSlot] marks the end of [ProcessNextSlot]
    for a slot; the other two are the OSAL calls of the callbacks.  Event
    messages (CFE_EVS_SendEvent) are diagnostics and are left out. *)
Inductive Event : Type :=
  | EvDispatch (Slot EntryNumber MsgIndex Status : Z)
  | EvSlot (Slot : Z)
  | EvTimerSet (StartTime IntervalTime : Z)
  | EvSemGive.

(** The scheduler object.  The fields used only by the constructor and by
    the telemetry commands (TimerId, TimeSemaphore, ClockAccuracy, the two
    telemetry packets) are left out; [Log] is the history of [Event]s, oldest
    first. *)
Record SCHEDULER_Class : Type := Build_SCHEDULER {
  SchTbl : SCHTBL_Tbl;
  MsgTbl : MSGTBL_Tbl;
  SlotsProcessedCount : Z;
  SkippedSlotsCount : Z;
  MultipleSlotsCount : Z;
  SameSlotCount : Z;
  ScheduleActivitySuccessCount : Z;
  ScheduleActivityFailureCount : Z;
  ValidMajorFrameCount : Z;
  MissedMajorFrameCount : Z;
  UnexpectedMajorFrameCount : Z;
  TablePassCount : Z;
  ConsecutiveNoisyFrameCounter : Z;
  MinorFramesSinceTone : Z;
  NextSlotNumber : Z;
  LastSyncMETSlot : Z;
  SyncAttemptsLeft : Z;
  SendNoisyMajorFrameMsg : bool;
  IgnoreMajorFrame : bool;
  UnexpectedMajorFrame : bool;
  SyncToMET : Z;
  MajorFrameSource : MajorFrameSource_t;
  LastProcessCount : Z;
  WorstCaseSlotsPerMinorFrame : Z;
  Log : list Event
}.

(** Field updates. *)
Definition set_SchTbl (v : SCHTBL_Tbl) (s : SCHEDULER_Class) : SCHEDULER_Class :=
  Build_SCHEDULER v (MsgTbl s) (SlotsProcessedCount s) (SkippedSlotsCount s)
    (MultipleSlotsCount s) (SameSlotCount s) (ScheduleActivitySuccessCount s)
    (ScheduleActivityFailureCount s) (ValidMajorFrameCount s)
    (MissedMajorFrameCount s) (UnexpectedMajorFrameCount s) (TablePassCount s)
    (ConsecutiveNoisyFrameCounter s) (MinorFramesSinceTone s) (NextSlotNumber s)
    (LastSyncMETSlot s) (SyncAttemptsLeft s) (SendNoisyMajorFrameMsg s)
    (IgnoreMajorFrame s) (UnexpectedMajorFrame s) (SyncToMET s)
    (MajorFrameSource s) (LastProcessCount s) (WorstCaseSlotsPerMinorFrame s)
    (Log s).

Definition set_SlotsProcessedCount (v : Z) (s : SCHEDULER_Class) : SCHEDULER_Class :=
  Build_SCHEDULER (SchTbl s) (MsgTbl s) v (SkippedSlotsCount s)
    (MultipleSlotsCount s) (SameSlotCount s) (ScheduleActivitySuccessCount s)
    (ScheduleActivityFailureCount s) (ValidMajorFrameCount s)
    (MissedMajorFrameCount s) (UnexpectedMajorFrameCount s) (TablePassCount s)
    (ConsecutiveNoisyFrameCounter s) (MinorFramesSinceTone s) (NextSlotNumber s)
    (LastSyncMETSlot s) (SyncAttemptsLeft s) (SendNoisyMajorFrameMsg s)
    (IgnoreMajorFrame s) (UnexpectedMajorFrame s) (SyncToMET s)
    (MajorFrameSource s) (LastProcessCount s) (WorstCaseSlotsPerMinorFrame s)
    (Log s).

Definition set_SkippedSlotsCount (v : Z) (s : SCHEDULER_Class) : SCHEDULER_Class :=
  Build_SCHEDULER (SchTbl s) (MsgTbl s) (SlotsProcessedCount s) v
    (MultipleSlotsCount s) (SameSlotCount s) (ScheduleActivitySuccessCount s)
    (ScheduleActivityFailureCount s) (ValidMajorFrameCount s)
    (MissedMajorFrameCount s) (UnexpectedMajorFrameCount s) (TablePassCount s)
    (ConsecutiveNoisyFrameCounter s) (MinorFramesSinceTone s) (NextSlotNumber s)
    (LastSyncMETSlot s) (SyncAttemptsLeft s) (SendNoisyMajorFrameMsg s)
    (IgnoreMajorFrame s) (UnexpectedMajorFrame s) (SyncToMET s)
    (MajorFrameSource s) (LastProcessCount s) (WorstCaseSlotsPerMinorFrame s)
    (Log s).

Definition set_MultipleSlotsCount (v : Z) (s : SCHEDULER_Class) : SCHEDULER_Class :=
  Build_SCHEDULER (SchTbl s) (MsgTbl s) (SlotsProcessedCount s)
    (SkippedSlotsCount s) v (SameSlotCount s) (ScheduleActivitySuccessCount s)
    (ScheduleActivityFailureCount s) (ValidMajorFrameCount s)
    (MissedMajorFrameCount s) (UnexpectedMajorFrameCount s) (TablePassCount s)
    (ConsecutiveNoisyFrameCounter s) (MinorFramesSinceTone s) (NextSlotNumber s)
    (LastSyncMETSlot s) (SyncAttemptsLeft s) (SendNoisyMajorFrameMsg s)
    (IgnoreMajorFrame s) (UnexpectedMajorFrame s) (SyncToMET s)
    (MajorFrameSource s) (LastProcessCount s) (WorstCaseSlotsPerMinorFrame s)
    (Log s).

Definition set_SameSlotCount (v : Z) (s : SCHEDULER_Class) : SCHEDULER_Class :=
  Build_SCHEDULER (SchTbl s) (MsgTbl s) (SlotsProcessedCount s)
    (SkippedSlotsCount s) (MultipleSlotsCount s) v (ScheduleActivitySuccessCount
    s) (ScheduleActivityFailureCount s) (ValidMajorFrameCount s)
    (MissedMajorFrameCount s) (UnexpectedMajorFrameCount s) (TablePassCount s)
    (ConsecutiveNoisyFrameCounter s) (MinorFramesSinceTone s) (NextSlotNumber s)
    (LastSyncMETSlot s) (SyncAttemptsLeft s) (SendNoisyMajorFrameMsg s)
    (IgnoreMajorFrame s) (UnexpectedMajorFrame s) (SyncToMET s)
    (MajorFrameSource s) (LastProcessCount s) (WorstCaseSlotsPerMinorFrame s)
    (Log s).

Definition set_ScheduleActivitySuccessCount (v : Z) (s : SCHEDULER_Class) : SCHEDULER_Class :=
  Build_SCHEDULER (SchTbl s) (MsgTbl s) (SlotsProcessedCount s)
    (SkippedSlotsCount s) (MultipleSlotsCount s) (SameSlotCount s) v
    (ScheduleActivityFailureCount s) (ValidMajorFrameCount s)
    (MissedMajorFrameCount s) (UnexpectedMajorFrameCount s) (TablePassCount s)
    (ConsecutiveNoisyFrameCounter s) (MinorFramesSinceTone s) (NextSlotNumber s)
    (LastSyncMETSlot s) (SyncAttemptsLeft s) (SendNoisyMajorFrameMsg s)
    (IgnoreMajorFrame s) (UnexpectedMajorFrame s) (SyncToMET s)
    (MajorFrameSource s) (LastProcessCount s) (WorstCaseSlotsPerMinorFrame s)
    (Log s).

Definition set_ScheduleActivityFailureCount (v : Z) (s : SCHEDULER_Class) : SCHEDULER_Class :=
  Build_SCHEDULER (SchTbl s) (MsgTbl s) (SlotsProcessedCount s)
    (SkippedSlotsCount s) (MultipleSlotsCount s) (SameSlotCount s)
    (ScheduleActivitySuccessCount s) v (ValidMajorFrameCount s)
    (MissedMajorFrameCount s) (UnexpectedMajorFrameCount s) (TablePassCount s)
    (ConsecutiveNoisyFrameCounter s) (MinorFramesSinceTone s) (NextSlotNumber s)
    (LastSyncMETSlot s) (SyncAttemptsLeft s) (SendNoisyMajorFrameMsg s)
    (IgnoreMajorFrame s) (UnexpectedMajorFrame s) (SyncToMET s)
    (MajorFrameSource s) (LastProcessCount s) (WorstCaseSlotsPerMinorFrame s)
    (Log s).

Definition set_ValidMajorFrameCount (v : Z) (s : SCHEDULER_Class) : SCHEDULER_Class :=
  Build_SCHEDULER (SchTbl s) (MsgTbl s) (SlotsProcessedCount s)
    (SkippedSlotsCount s) (MultipleSlotsCount s) (SameSlotCount s)
    (ScheduleActivitySuccessCount s) (ScheduleActivityFailureCount s) v
    (MissedMajorFrameCount s) (UnexpectedMajorFrameCount s) (TablePassCount s)
    (ConsecutiveNoisyFrameCounter s) (MinorFramesSinceTone s) (NextSlotNumber s)
    (LastSyncMETSlot s) (SyncAttemptsLeft s) (SendNoisyMajorFrameMsg s)
    (IgnoreMajorFrame s) (UnexpectedMajorFrame s) (SyncToMET s)
    (MajorFrameSource s) (LastProcessCount s) (WorstCaseSlotsPerMinorFrame s)
    (Log s).

Definition set_MissedMajorFrameCount (v : Z) (s : SCHEDULER_Class) : SCHEDULER_Class :=
  Build_SCHEDULER (SchTbl s) (MsgTbl s) (SlotsProcessedCount s)
    (SkippedSlotsCount s) (MultipleSlotsCount s) (SameSlotCount s)
    (ScheduleActivitySuccessCount s) (ScheduleActivityFailureCount s)
    (ValidMajorFrameCount s) v (UnexpectedMajorFrameCount s) (TablePassCount s)
    (ConsecutiveNoisyFrameCounter s) (MinorFramesSinceTone s) (NextSlotNumber s)
    (LastSyncMETSlot s) (SyncAttemptsLeft s) (SendNoisyMajorFrameMsg s)
    (IgnoreMajorFrame s) (UnexpectedMajorFrame s) (SyncToMET s)
    (MajorFrameSource s) (LastProcessCount s) (WorstCaseSlotsPerMinorFrame s)
    (Log s).

Definition set_UnexpectedMajorFrameCount (v : Z) (s : SCHEDULER_Class) : SCHEDULER_Class :=
  Build_SCHEDULER (SchTbl s) (MsgTbl s) (SlotsProcessedCount s)
    (SkippedSlotsCount s) (MultipleSlotsCount s) (SameSlotCount s)
    (ScheduleActivitySuccessCount s) (ScheduleActivityFailureCount s)
    (ValidMajorFrameCount s) (MissedMajorFrameCount s) v (TablePassCount s)
    (ConsecutiveNoisyFrameCounter s) (MinorFramesSinceTone s) (NextSlotNumber s)
    (LastSyncMETSlot s) (SyncAttemptsLeft s) (SendNoisyMajorFrameMsg s)
    (IgnoreMajorFrame s) (UnexpectedMajorFrame s) (SyncToMET s)
    (MajorFrameSource s) (LastProcessCount s) (WorstCaseSlotsPerMinorFrame s)
    (Log s).

Definition set_TablePassCount (v : Z) (s : SCHEDULER_Class) : SCHEDULER_Class :=
  Build_SCHEDULER (SchTbl s) (MsgTbl s) (SlotsProcessedCount s)
    (SkippedSlotsCount s) (MultipleSlotsCount s) (SameSlotCount s)
    (ScheduleActivitySuccessCount s) (ScheduleActivityFailureCount s)
    (ValidMajorFrameCount s) (MissedMajorFrameCount s)
    (UnexpectedMajorFrameCount s) v (ConsecutiveNoisyFrameCounter s)
    (MinorFramesSinceTone s) (NextSlotNumber s) (LastSyncMETSlot s)
    (SyncAttemptsLeft s) (SendNoisyMajorFrameMsg s) (IgnoreMajorFrame s)
    (UnexpectedMajorFrame s) (SyncToMET s) (MajorFrameSource s)
    (LastProcessCount s) (WorstCaseSlotsPerMinorFrame s) (Log s).

Definition set_ConsecutiveNoisyFrameCounter (v : Z) (s : SCHEDULER_Class) : SCHEDULER_Class :=
  Build_SCHEDULER (SchTbl s) (MsgTbl s) (SlotsProcessedCount s)
    (SkippedSlotsCount s) (MultipleSlotsCount s) (SameSlotCount s)
    (ScheduleActivitySuccessCount s) (ScheduleActivityFailureCount s)
    (ValidMajorFrameCount s) (MissedMajorFrameCount s)
    (UnexpectedMajorFrameCount s) (TablePassCount s) v (MinorFramesSinceTone s)
    (NextSlotNumber s) (LastSyncMETSlot s) (SyncAttemptsLeft s)
    (SendNoisyMajorFrameMsg s) (IgnoreMajorFrame s) (UnexpectedMajorFrame s)
    (SyncToMET s) (MajorFrameSource s) (LastProcessCount s)
    (WorstCaseSlotsPerMinorFrame s) (Log s).

Definition set_MinorFramesSinceTone (v : Z) (s : SCHEDULER_Class) : SCHEDULER_Class :=
  Build_SCHEDULER (SchTbl s) (MsgTbl s) (SlotsProcessedCount s)
    (SkippedSlotsCount s) (MultipleSlotsCount s) (SameSlotCount s)
    (ScheduleActivitySuccessCount s) (ScheduleActivityFailureCount s)
    (ValidMajorFrameCount s) (MissedMajorFrameCount s)
    (UnexpectedMajorFrameCount s) (TablePassCount s)
    (ConsecutiveNoisyFrameCounter s) v (NextSlotNumber s) (LastSyncMETSlot s)
    (SyncAttemptsLeft s) (SendNoisyMajorFrameMsg s) (IgnoreMajorFrame s)
    (UnexpectedMajorFrame s) (SyncToMET s) (MajorFrameSource s)
    (LastProcessCount s) (WorstCaseSlotsPerMinorFrame s) (Log s).

Definition set_NextSlotNumber (v : Z) (s : SCHEDULER_Class) : SCHEDULER_Class :=
  Build_SCHEDULER (SchTbl s) (MsgTbl s) (SlotsProcessedCount s)
    (SkippedSlotsCount s) (MultipleSlotsCount s) (SameSlotCount s)
    (ScheduleActivitySuccessCount s) (ScheduleActivityFailureCount s)
    (ValidMajorFrameCount s) (MissedMajorFrameCount s)
    (UnexpectedMajorFrameCount s) (TablePassCount s)
    (ConsecutiveNoisyFrameCounter s) (MinorFramesSinceTone s) v (LastSyncMETSlot
    s) (SyncAttemptsLeft s) (SendNoisyMajorFrameMsg s) (IgnoreMajorFrame s)
    (UnexpectedMajorFrame s) (SyncToMET s) (MajorFrameSource s)
    (LastProcessCount s) (WorstCaseSlotsPerMinorFrame s) (Log s).

Definition set_LastSyncMETSlot (v : Z) (s : SCHEDULER_Class) : SCHEDULER_Class :=
  Build_SCHEDULER (SchTbl s) (MsgTbl s) (SlotsProcessedCount s)
    (SkippedSlotsCount s) (MultipleSlotsCount s) (SameSlotCount s)
    (ScheduleActivitySuccessCount s) (ScheduleActivityFailureCount s)
    (ValidMajorFrameCount s) (MissedMajorFrameCount s)
    (UnexpectedMajorFrameCount s) (TablePassCount s)
    (ConsecutiveNoisyFrameCounter s) (MinorFramesSinceTone s) (NextSlotNumber s)
    v (SyncAttemptsLeft s) (SendNoisyMajorFrameMsg s) (IgnoreMajorFrame s)
    (UnexpectedMajorFrame s) (SyncToMET s) (MajorFrameSource s)
    (LastProcessCount s) (WorstCaseSlotsPerMinorFrame s) (Log s).

Definition set_SyncAttemptsLeft (v : Z) (s : SCHEDULER_Class) : SCHEDULER_Class :=
  Build_SCHEDULER (SchTbl s) (MsgTbl s) (SlotsProcessedCount s)
    (SkippedSlotsCount s) (MultipleSlotsCount s) (SameSlotCount s)
    (ScheduleActivitySuccessCount s) (ScheduleActivityFailureCount s)
    (ValidMajorFrameCount s) (MissedMajorFrameCount s)
    (UnexpectedMajorFrameCount s) (TablePassCount s)
    (ConsecutiveNoisyFrameCounter s) (MinorFramesSinceTone s) (NextSlotNumber s)
    (LastSyncMETSlot s) v (SendNoisyMajorFrameMsg s) (IgnoreMajorFrame s)
    (UnexpectedMajorFrame s) (SyncToMET s) (MajorFrameSource s)
    (LastProcessCount s) (WorstCaseSlotsPerMinorFrame s) (Log s).

Definition set_SendNoisyMajorFrameMsg (v : bool) (s : SCHEDULER_Class) : SCHEDULER_Class :=
  Build_SCHEDULER (SchTbl s) (MsgTbl s) (SlotsProcessedCount s)
    (SkippedSlotsCount s) (MultipleSlotsCount s) (SameSlotCount s)
    (ScheduleActivitySuccessCount s) (ScheduleActivityFailureCount s)
    (ValidMajorFrameCount s) (MissedMajorFrameCount s)
    (UnexpectedMajorFrameCount s) (TablePassCount s)
    (ConsecutiveNoisyFrameCounter s) (MinorFramesSinceTone s) (NextSlotNumber s)
    (LastSyncMETSlot s) (SyncAttemptsLeft s) v (IgnoreMajorFrame s)
    (UnexpectedMajorFrame s) (SyncToMET s) (MajorFrameSource s)
    (LastProcessCount s) (WorstCaseSlotsPerMinorFrame s) (Log s).

Definition set_IgnoreMajorFrame (v : bool) (s : SCHEDULER_Class) : SCHEDULER_Class :=
  Build_SCHEDULER (SchTbl s) (MsgTbl s) (SlotsProcessedCount s)
    (SkippedSlotsCount s) (MultipleSlotsCount s) (SameSlotCount s)
    (ScheduleActivitySuccessCount s) (ScheduleActivityFailureCount s)
    (ValidMajorFrameCount s) (MissedMajorFrameCount s)
    (UnexpectedMajorFrameCount s) (TablePassCount s)
    (ConsecutiveNoisyFrameCounter s) (MinorFramesSinceTone s) (NextSlotNumber s)
    (LastSyncMETSlot s) (SyncAttemptsLeft s) (SendNoisyMajorFrameMsg s) v
    (UnexpectedMajorFrame s) (SyncToMET s) (MajorFrameSource s)
    (LastProcessCount s) (WorstCaseSlotsPerMinorFrame s) (Log s).

Definition set_UnexpectedMajorFrame (v : bool) (s : SCHEDULER_Class) : SCHEDULER_Class :=
  Build_SCHEDULER (SchTbl s) (MsgTbl s) (SlotsProcessedCount s)
    (SkippedSlotsCount s) (MultipleSlotsCount s) (SameSlotCount s)
    (ScheduleActivitySuccessCount s) (ScheduleActivityFailureCount s)
    (ValidMajorFrameCount s) (MissedMajorFrameCount s)
    (UnexpectedMajorFrameCount s) (TablePassCount s)
    (ConsecutiveNoisyFrameCounter s) (MinorFramesSinceTone s) (NextSlotNumber s)
    (LastSyncMETSlot s) (SyncAttemptsLeft s) (SendNoisyMajorFrameMsg s)
    (IgnoreMajorFrame s) v (SyncToMET s) (MajorFrameSource s) (LastProcessCount
    s) (WorstCaseSlotsPerMinorFrame s) (Log s).

Definition set_SyncToMET (v : Z) (s : SCHEDULER_Class) : SCHEDULER_Class :=
  Build_SCHEDULER (SchTbl s) (MsgTbl s) (SlotsProcessedCount s)
    (SkippedSlotsCount s) (MultipleSlotsCount s) (SameSlotCount s)
    (ScheduleActivitySuccessCount s) (ScheduleActivityFailureCount s)
    (ValidMajorFrameCount s) (MissedMajorFrameCount s)
    (UnexpectedMajorFrameCount s) (TablePassCount s)
    (ConsecutiveNoisyFrameCounter s) (MinorFramesSinceTone s) (NextSlotNumber s)
    (LastSyncMETSlot s) (SyncAttemptsLeft s) (SendNoisyMajorFrameMsg s)
    (IgnoreMajorFrame s) (UnexpectedMajorFrame s) v (MajorFrameSource s)
    (LastProcessCount s) (WorstCaseSlotsPerMinorFrame s) (Log s).

Definition set_MajorFrameSource (v : MajorFrameSource_t) (s : SCHEDULER_Class) : SCHEDULER_Class :=
  Build_SCHEDULER (SchTbl s) (MsgTbl s) (SlotsProcessedCount s)
    (SkippedSlotsCount s) (MultipleSlotsCount s) (SameSlotCount s)
    (ScheduleActivitySuccessCount s) (ScheduleActivityFailureCount s)
    (ValidMajorFrameCount s) (MissedMajorFrameCount s)
    (UnexpectedMajorFrameCount s) (TablePassCount s)
    (ConsecutiveNoisyFrameCounter s) (MinorFramesSinceTone s) (NextSlotNumber s)
    (LastSyncMETSlot s) (SyncAttemptsLeft s) (SendNoisyMajorFrameMsg s)
    (IgnoreMajorFrame s) (UnexpectedMajorFrame s) (SyncToMET s) v
    (LastProcessCount s) (WorstCaseSlotsPerMinorFrame s) (Log s).

Definition set_LastProcessCount (v : Z) (s : SCHEDULER_Class) : SCHEDULER_Class :=
  Build_SCHEDULER (SchTbl s) (MsgTbl s) (SlotsProcessedCount s)
    (SkippedSlotsCount s) (MultipleSlotsCount s) (SameSlotCount s)
    (ScheduleActivitySuccessCount s) (ScheduleActivityFailureCount s)
    (ValidMajorFrameCount s) (MissedMajorFrameCount s)
    (UnexpectedMajorFrameCount s) (TablePassCount s)
    (ConsecutiveNoisyFrameCounter s) (MinorFramesSinceTone s) (NextSlotNumber s)
    (LastSyncMETSlot s) (SyncAttemptsLeft s) (SendNoisyMajorFrameMsg s)
    (IgnoreMajorFrame s) (UnexpectedMajorFrame s) (SyncToMET s)
    (MajorFrameSource s) v (WorstCaseSlotsPerMinorFrame s) (Log s).

Definition set_Log (v : list Event) (s : SCHEDULER_Class) : SCHEDULER_Class :=
  Build_SCHEDULER (SchTbl s) (MsgTbl s) (SlotsProcessedCount s)
    (SkippedSlotsCount s) (MultipleSlotsCount s) (SameSlotCount s)
    (ScheduleActivitySuccessCount s) (ScheduleActivityFailureCount s)
    (ValidMajorFrameCount s) (MissedMajorFrameCount s)
    (UnexpectedMajorFrameCount s) (TablePassCount s)
    (ConsecutiveNoisyFrameCounter s) (MinorFramesSinceTone s) (NextSlotNumber s)
    (LastSyncMETSlot s) (SyncAttemptsLeft s) (SendNoisyMajorFrameMsg s)
    (IgnoreMajorFrame s) (UnexpectedMajorFrame s) (SyncToMET s)
    (MajorFrameSource s) (LastProcessCount s) (WorstCaseSlotsPerMinorFrame s) v.

(** Append one event to the history. *)
Definition log (ev : Event) (s : SCHEDULER_Class) : SCHEDULER_Class :=
  set_Log (Log s ++ [ev]) s.

(** ** Collaborators (not part of the sources) *)

(** - [SCHTBL_GetEntryIndex Slot Activity] is [Some Index] when the C
      function returns true and writes [Index];
    - [SCHTBL_ValidEntry Enabled Period Offset MsgTblIndex] and
      [CMDMGR_ValidBoolArg] are the validators of schtbl.c and cmdmgr.c;
    - [MSGTBL_GetMsgPtr Index] tells whether the message table has a
      message at [Index];
    - [CFE_SB_TransmitMsg history Index] is the status the software bus
      returns for the message at [Index]; it may depend on everything that
      happened before. *)
Record World : Type := {
  SCHTBL_GetEntryIndex : Z -> Z -> option Z;
  SCHTBL_ValidEntry : Z -> Z -> Z -> Z -> bool;
  CMDMGR_ValidBoolArg : Z -> bool;
  MSGTBL_GetMsgPtr : Z -> bool;
  CFE_SB_TransmitMsg : list Event -> Z -> Z
}.

(** Command messages (declared in scheduler.h). *)
Module ConfigSchEntryCmdMsg.
Record t : Type := { Slot : Z; Activity : Z; Enabled : Z }.
End ConfigSchEntryCmdMsg.

Module LoadSchEntryCmdMsg.
Record t : Type :=
  { Slot : Z; Activity : Z; Enabled : Z; Period : Z; Offset : Z;
    MsgTblIndex : Z }.
End LoadSchEntryCmdMsg.

(** Conversion of an integer to C [bool]. *)
Definition to_bool (x : Z) : bool := negb (x =? 0).

(** ** The functions of scheduler.c *)

Section Scheduler.

Variable P : Platform.
Variable W : World.

(** A store into the integer field [f]. *)
Definition store (f : Field) (x : Z) : Z := wrap (bits P f) x.

(** *** SCHEDULER_ResetStatus (lines 157-173) *)
Definition SCHEDULER_ResetStatus (s : SCHEDULER_Class) : SCHEDULER_Class :=
  let s := set_SlotsProcessedCount 0 s in
  let s := set_SkippedSlotsCount 0 s in
  let s := set_MultipleSlotsCount 0 s in
  let s := set_SameSlotCount 0 s in
  let s := set_ScheduleActivitySuccessCount 0 s in
  let s := set_ScheduleActivityFailureCount 0 s in
  let s := set_ValidMajorFrameCount 0 s in
  let s := set_MissedMajorFrameCount 0 s in
  let s := set_UnexpectedMajorFrameCount 0 s in
  let s := set_TablePassCount 0 s in
  let s := set_ConsecutiveNoisyFrameCounter 0 s in
  set_IgnoreMajorFrame false s.

(** *** SCHEDULER_ConfigSchEntryCmd (lines 180-233)

    The result is the returned [RetStatus] and the scheduler afterwards. *)
Definition SCHEDULER_ConfigSchEntryCmd (Cmd : ConfigSchEntryCmdMsg.t)
    (s : SCHEDULER_Class) : option (bool * SCHEDULER_Class) :=
  match SCHTBL_GetEntryIndex W (ConfigSchEntryCmdMsg.Slot Cmd)
          (ConfigSchEntryCmdMsg.Activity Cmd) with
  | Some Index =>
      if CMDMGR_ValidBoolArg W (ConfigSchEntryCmdMsg.Enabled Cmd) then
        RetStatus ←
          (if ConfigSchEntryCmdMsg.Enabled Cmd =? 1 then
             Entry ← SchTbl s !! Z.to_nat Index;
             Some (SCHTBL_ValidEntry W (Z.b2z (Enabled Entry)) (Period Entry)
                     (Offset Entry) (MsgTblIndex Entry))
           else Some true);
        if RetStatus : bool then
          Entry ← SchTbl s !! Z.to_nat Index;
          let Entry := set_Enabled (to_bool (ConfigSchEntryCmdMsg.Enabled Cmd)) Entry in
          Some (true, set_SchTbl (<[Z.to_nat Index := Entry]> (SchTbl s)) s)
        else Some (false, s)
      else Some (false, s)
  | None => Some (false, s)
  end.

(** *** SCHEDULER_LoadSchEntryCmd (lines 242-275) *)
Definition SCHEDULER_LoadSchEntryCmd (Cmd : LoadSchEntryCmdMsg.t)
    (s : SCHEDULER_Class) : option (bool * SCHEDULER_Class) :=
  match SCHTBL_GetEntryIndex W (LoadSchEntryCmdMsg.Slot Cmd)
          (LoadSchEntryCmdMsg.Activity Cmd) with
  | Some Index =>
      if SCHTBL_ValidEntry W (LoadSchEntryCmdMsg.Enabled Cmd)
           (LoadSchEntryCmdMsg.Period Cmd) (LoadSchEntryCmdMsg.Offset Cmd)
           (LoadSchEntryCmdMsg.MsgTblIndex Cmd) then
        _ ← SchTbl s !! Z.to_nat Index;
        let Entry :=
          {| Enabled := to_bool (LoadSchEntryCmdMsg.Enabled Cmd);
             Period := LoadSchEntryCmdMsg.Period Cmd;
             Offset := LoadSchEntryCmdMsg.Offset Cmd;
             MsgTblIndex := LoadSchEntryCmdMsg.MsgTblIndex Cmd |} in
        Some (true, set_SchTbl (<[Z.to_nat Index := Entry]> (SchTbl s)) s)
      else Some (false, s)
  | None => Some (false, s)
  end.

(** *** SCHEDULER_LoadSchTblEntry (lines 626-633): copies one entry. *)
Definition SCHEDULER_LoadSchTblEntry (EntryId : Z) (NewEntry : SCHTBL_Entry)
    (s : SCHEDULER_Class) : option (bool * SCHEDULER_Class) :=
  _ ← SchTbl s !! Z.to_nat EntryId;
  Some (true, set_SchTbl (<[Z.to_nat EntryId := NewEntry]> (SchTbl s)) s).

(** *** GetMETSlotNumber (lines 1139-1183)

    [MicroSeconds] is the value of
    [CFE_TIME_Sub2MicroSecs(CFE_TIME_GetMETsubsecs())]. *)
Definition GetMETSlotNumber (MicroSeconds : Z) : Z :=
  let METSlot := MicroSeconds / SCHEDULER_NORMAL_SLOT_PERIOD P in
  let Remainder :=
    u32 (MicroSeconds - u32 (METSlot * SCHEDULER_NORMAL_SLOT_PERIOD P)) in
  let Remainder := u32 (Remainder + 1) in
  let METSlot := u32 (METSlot + Remainder / SCHEDULER_NORMAL_SLOT_PERIOD P) in
  if METSlot =? SCHTBL_SLOTS P then 0 else METSlot.

(** *** GetCurrentSlotNumber (lines 1100-1132) *)
Definition GetCurrentSlotNumber (MicroSeconds : Z) (s : SCHEDULER_Class) : Z :=
  if negb (SyncToMET s =? SCHEDULER_SYNCH_FALSE P) then
    let CurrentSlot := GetMETSlotNumber MicroSeconds in
    if CurrentSlot <? LastSyncMETSlot s then
      u32 (u32 (CurrentSlot + SCHTBL_SLOTS P) - LastSyncMETSlot s)
    else
      u32 (CurrentSlot - LastSyncMETSlot s)
  else
    MinorFramesSinceTone s.

(** *** ProcessNextSlot (lines 1190-1268) *)

(** Lines 1215-1220: the value of [MsgSendStatus] for the message at
    [Index], after the history [hist]. *)
Definition DispatchStatus (hist : list Event) (Index : Z) : Z :=
  if MSGTBL_GetMsgPtr W Index
  then CFE_SB_TransmitMsg W hist Index
  else CFE_SB_NO_MESSAGE.

(** The body of the loop over the entries of a slot, for the entry at table
    index [NextEntry].  [Remainder] is an unsigned remainder: it is below
    [Period] and fits its [uint32]. *)
Definition ProcessEntry (EntryNumber : Z) (NextEntry : nat)
    (s : SCHEDULER_Class) : option SCHEDULER_Class :=
  Entry ← SchTbl s !! NextEntry;
  if Enabled Entry then
    if Period Entry =? 0 then None
    else
      let Remainder := TablePassCount s mod Period Entry in
      if Remainder =? Offset Entry then
        let MsgSendStatus := DispatchStatus (Log s) (MsgTblIndex Entry) in
        let s :=
          log (EvDispatch (NextSlotNumber s) EntryNumber (MsgTblIndex Entry)
                 MsgSendStatus) s in
        if MsgSendStatus =? CFE_SUCCESS then
          Some (set_ScheduleActivitySuccessCount
                  (store F_ScheduleActivitySuccessCount
                     (ScheduleActivitySuccessCount s + 1)) s)
        else
          let s :=
            set_SchTbl (<[NextEntry := set_Enabled false Entry]> (SchTbl s)) s in
          Some (set_ScheduleActivityFailureCount
                  (store F_ScheduleActivityFailureCount
                     (ScheduleActivityFailureCount s + 1)) s)
      else Some s
  else Some s.

(** The [for] loop: [n] entries are left, [EntryNumber] and the pointer
    [NextEntry] advance together. *)
Fixpoint ProcessEntries (n : nat) (EntryNumber : Z) (NextEntry : nat)
    (s : SCHEDULER_Class) : option SCHEDULER_Class :=
  match n with
  | O => Some s
  | S n' =>
      s ← ProcessEntry EntryNumber NextEntry s;
      ProcessEntries n' (EntryNumber + 1) (S NextEntry) s
  end.

Definition ProcessNextSlot (s : SCHEDULER_Class)
    : option (Z * SCHEDULER_Class) :=
  let Result := CFE_SUCCESS in
  let SlotIndex := NextSlotNumber s * SCHTBL_ACTIVITIES_PER_SLOT P in
  s ← ProcessEntries (Z.to_nat (SCHTBL_ACTIVITIES_PER_SLOT P)) 0
        (Z.to_nat SlotIndex) s;
  let s := log (EvSlot (NextSlotNumber s)) s in
  let s := set_NextSlotNumber (store F_NextSlotNumber (NextSlotNumber s + 1)) s in
  let s :=
    if NextSlotNumber s =? SCHTBL_SLOTS P then
      let s := set_NextSlotNumber 0 s in
      set_TablePassCount (store F_TablePassCount (TablePassCount s + 1)) s
    else s in
  let s :=
    set_SlotsProcessedCount
      (store F_SlotsProcessedCount (SlotsProcessedCount s + 1)) s in
  Some (Result, s).

(** *** SCHEDULER_Execute (lines 679-845), step by step *)

(** Lines 693-706: the one-shot noisy major frame message. *)
Definition NoisyMessage (s : SCHEDULER_Class) : SCHEDULER_Class :=
  if IgnoreMajorFrame s then
    if SendNoisyMajorFrameMsg s then set_SendNoisyMajorFrameMsg false s else s
  else set_SendNoisyMajorFrameMsg true s.

(** Lines 710-719: the number of slots to process. *)
Definition InitialProcessCount (CurrentSlot : Z) (s : SCHEDULER_Class) : Z :=
  if CurrentSlot <? NextSlotNumber s then
    let ProcessCount := u32 (SCHTBL_SLOTS P - NextSlotNumber s) in
    u32 (ProcessCount + u32 (CurrentSlot + 1))
  else
    u32 (u32 (CurrentSlot - NextSlotNumber s) + 1).

(** Lines 733-761: the correction for a wakeup one slot late or early. *)
Definition JitterCorrection (ProcessCount : Z) (s : SCHEDULER_Class)
    : Z * SCHEDULER_Class :=
  if ProcessCount =? 2 then
    let ProcessCount := if LastProcessCount s =? 1 then 1 else ProcessCount in
    (ProcessCount, set_LastProcessCount (store F_LastProcessCount 2) s)
  else if ProcessCount =? SCHTBL_SLOTS P then
    let ProcessCount :=
      if negb (LastProcessCount s =? SCHTBL_SLOTS P) then 1 else ProcessCount in
    (ProcessCount,
     set_LastProcessCount (store F_LastProcessCount (SCHTBL_SLOTS P)) s)
  else
    (ProcessCount,
     set_LastProcessCount (store F_LastProcessCount ProcessCount) s).

(** Lines 766-774: the current slot did not increment. *)
Definition SameSlot (ProcessCount : Z) (s : SCHEDULER_Class)
    : Z * SCHEDULER_Class :=
  if ProcessCount =? SCHTBL_SLOTS P then
    (0, set_SameSlotCount (store F_SameSlotCount (SameSlotCount s + 1)) s)
  else (ProcessCount, s).

(** Lines 777-809: too far behind, jump to the current slot. *)
Definition LagLimit (CurrentSlot ProcessCount : Z) (s : SCHEDULER_Class)
    : Z * SCHEDULER_Class :=
  if ProcessCount >? SCHEDULER_MAX_LAG_COUNT P then
    let s :=
      set_SkippedSlotsCount
        (store F_SkippedSlotsCount (SkippedSlotsCount s + 1)) s in
    let s :=
      if CurrentSlot <? NextSlotNumber s then
        set_TablePassCount (store F_TablePassCount (TablePassCount s + 1)) s
      else s in
    let s := set_NextSlotNumber (store F_NextSlotNumber CurrentSlot) s in
    (1, s)
  else (ProcessCount, s).

(** Lines 814-817: at most SCHEDULER_MAX_SLOTS_PER_WAKEUP slots. *)
Definition SlotsPerWakeup (ProcessCount : Z) : Z :=
  if ProcessCount >? SCHEDULER_MAX_SLOTS_PER_WAKEUP P
  then SCHEDULER_MAX_SLOTS_PER_WAKEUP P else ProcessCount.

(** Lines 820-831: count the wakeups that process several slots. *)
Definition MultipleSlots (ProcessCount : Z) (s : SCHEDULER_Class)
    : SCHEDULER_Class :=
  if ProcessCount >? 1 then
    set_MultipleSlotsCount
      (store F_MultipleSlotsCount (MultipleSlotsCount s + 1)) s
  else s.

(** Lines 835-839: [while ((ProcessCount != 0) && (Result == CFE_SUCCESS))].
    [ProcessCount] goes down by one in each turn, so it is the recursion
    argument. *)
Fixpoint ProcessSlots (ProcessCount : nat) (Result : Z) (s : SCHEDULER_Class)
    : option (Z * SCHEDULER_Class) :=
  match ProcessCount with
  | O => Some (Result, s)
  | S ProcessCount' =>
      if Result =? CFE_SUCCESS then
        '(Result, s) ← ProcessNextSlot s;
        ProcessSlots ProcessCount' Result s
      else Some (Result, s)
  end.

(** The value of [ProcessCount] and the scheduler when the [while] loop is
    reached. *)
Definition Reconcile (CurrentSlot : Z) (s : SCHEDULER_Class)
    : Z * SCHEDULER_Class :=
  let ProcessCount := InitialProcessCount CurrentSlot s in
  let '(ProcessCount, s) := JitterCorrection ProcessCount s in
  let '(ProcessCount, s) := SameSlot ProcessCount s in
  let '(ProcessCount, s) := LagLimit CurrentSlot ProcessCount s in
  let ProcessCount := SlotsPerWakeup ProcessCount in
  (ProcessCount, MultipleSlots ProcessCount s).

(** [TakeResult] is what [OS_BinSemTake] returns; [MicroSeconds] is the MET
    reading of [GetCurrentSlotNumber].  The result is the returned [bool]
    and the scheduler afterwards. *)
Definition SCHEDULER_Execute (TakeResult MicroSeconds : Z)
    (s : SCHEDULER_Class) : option (bool * SCHEDULER_Class) :=
  let Result := TakeResult in
  if Result =? OS_SUCCESS then
    let s := NoisyMessage s in
    let CurrentSlot := GetCurrentSlotNumber MicroSeconds s in
    let '(ProcessCount, s) := Reconcile CurrentSlot s in
    '(Result, s) ← ProcessSlots (Z.to_nat ProcessCount) Result s;
    Some (Result =? CFE_SUCCESS, s)
  else Some (Result =? CFE_SUCCESS, s).

(** *** MajorFrameCallback (lines 852-970) *)

(** Line 886, [SCHTBL_SLOTS - WorstCaseSlotsPerMinorFrame - 1] as it is
    compared with [NextSlotNumber]: the arithmetic is unsigned when one of
    the two fields is 32 bits wide, and is done in [int] otherwise. *)
Definition SyncWindowStart (s : SCHEDULER_Class) : Z :=
  let x := SCHTBL_SLOTS P - WorstCaseSlotsPerMinorFrame s - 1 in
  if (bits P F_WorstCaseSlotsPerMinorFrame =? 32)
     || (bits P F_NextSlotNumber =? 32)
  then u32 x else x.

(** Lines 882-886: the major frame signal came at an unexpected time. *)
Definition NoisyMajorFrame (s : SCHEDULER_Class) : bool :=
  ((SyncToMET s =? SCHEDULER_SYNCH_FALSE P)
   && negb (MinorFramesSinceTone s =? SCHEDULER_TIME_SYNC_SLOT P))
  || ((SyncToMET s =? SCHEDULER_SYNCH_TO_MINOR P)
      && negb (NextSlotNumber s =? 0)
      && (NextSlotNumber s <? SyncWindowStart s)).

(** [StateFlags] is what [CFE_TIME_GetClockInfo] returns, [MicroSeconds]
    the MET reading of the final [GetMETSlotNumber]. *)
Definition MajorFrameCallback (StateFlags MicroSeconds : Z)
    (s : SCHEDULER_Class) : SCHEDULER_Class :=
  let s :=
    if Z.land StateFlags (CFE_TIME_FLAG_FLYING P) =? 0 then
      let s :=
        if NoisyMajorFrame s then
          let s := set_UnexpectedMajorFrame true s in
          let s :=
            set_UnexpectedMajorFrameCount
              (store F_UnexpectedMajorFrameCount
                 (UnexpectedMajorFrameCount s + 1)) s in
          if negb (IgnoreMajorFrame s) then
            let s :=
              set_ConsecutiveNoisyFrameCounter
                (store F_ConsecutiveNoisyFrameCounter
                   (ConsecutiveNoisyFrameCounter s + 1)) s in
            if ConsecutiveNoisyFrameCounter s >=? SCHEDULER_MAX_NOISY_MF P
            then set_IgnoreMajorFrame true s
            else s
          else s
        else
          let s := set_UnexpectedMajorFrame false s in
          set_ConsecutiveNoisyFrameCounter 0 s in
      if negb (IgnoreMajorFrame s) then
        let s :=
          log (EvTimerSet (SCHEDULER_NORMAL_SLOT_PERIOD P)
                 (SCHEDULER_NORMAL_SLOT_PERIOD P)) s in
        let s :=
          set_ValidMajorFrameCount
            (store F_ValidMajorFrameCount (ValidMajorFrameCount s + 1)) s in
        let s := set_MinorFramesSinceTone 0 s in
        let s := set_MajorFrameSource SCHEDULER_MF_SOURCE_CFE_TIME s in
        let s :=
          set_SyncToMET
            (store F_SyncToMET
               (Z.land (SyncToMET s) (SCHEDULER_SYNCH_TO_MINOR P))) s in
        log EvSemGive s
      else s
    else s in
  set_LastSyncMETSlot (store F_LastSyncMETSlot (GetMETSlotNumber MicroSeconds)) s.

(** *** MinorFrameCallback (lines 977-1093) *)

(** Lines 1051-1091, the part after the synchronisation attempt. *)
Definition MinorFrameRollover (s : SCHEDULER_Class) : SCHEDULER_Class :=
  let s :=
    if MinorFramesSinceTone s >=? SCHTBL_SLOTS P then
      let s :=
        log (EvTimerSet (SCHEDULER_SHORT_SLOT_PERIOD P)
               (SCHEDULER_NORMAL_SLOT_PERIOD P)) s in
      let s := set_MinorFramesSinceTone 0 s in
      set_MissedMajorFrameCount
        (store F_MissedMajorFrameCount (MissedMajorFrameCount s + 1)) s
    else s in
  let s :=
    if MinorFramesSinceTone s =? SCHEDULER_TIME_SYNC_SLOT P then
      log (EvTimerSet (SCHEDULER_SYNC_SLOT_PERIOD P) 0) s
    else s in
  log EvSemGive s.

Definition is_MINOR_FRAME_TIMER (x : MajorFrameSource_t) : bool :=
  match x with SCHEDULER_MF_SOURCE_MINOR_FRAME_TIMER => true | _ => false end.

Definition is_NONE (x : MajorFrameSource_t) : bool :=
  match x with SCHEDULER_MF_SOURCE_NONE => true | _ => false end.

Definition MinorFrameCallback (MicroSeconds : Z) (s : SCHEDULER_Class)
    : SCHEDULER_Class :=
  let s :=
    if is_NONE (MajorFrameSource s) then
      let s := set_MajorFrameSource SCHEDULER_MF_SOURCE_MINOR_FRAME_TIMER s in
      let s :=
        set_SyncToMET
          (store F_SyncToMET
             (Z.lor (SyncToMET s) (SCHEDULER_SYNCH_MAJOR_PENDING P))) s in
      let s :=
        set_SyncAttemptsLeft
          (store F_SyncAttemptsLeft (SCHEDULER_MAX_SYNC_ATTEMPTS P)) s in
      set_LastSyncMETSlot 0 s
    else s in
  if negb (Z.land (SyncToMET s) (SCHEDULER_SYNCH_MAJOR_PENDING P) =? 0)
     && is_MINOR_FRAME_TIMER (MajorFrameSource s) then
    let s :=
      log (EvTimerSet (SCHEDULER_NORMAL_SLOT_PERIOD P)
             (SCHEDULER_NORMAL_SLOT_PERIOD P)) s in
    let s :=
      set_SyncAttemptsLeft
        (store F_SyncAttemptsLeft (SyncAttemptsLeft s - 1)) s in
    let CurrentSlot := GetMETSlotNumber MicroSeconds in
    if negb (CurrentSlot =? 0) && (SyncAttemptsLeft s >? 0) then s
    else
      let s :=
        set_SyncToMET
          (store F_SyncToMET
             (Z.land (SyncToMET s)
                (Z.lnot (SCHEDULER_SYNCH_MAJOR_PENDING P)))) s in
      let s :=
        set_SyncToMET
          (store F_SyncToMET
             (Z.lor (SyncToMET s) (SCHEDULER_SYNCH_TO_MAJOR P))) s in
      let s :=
        set_MinorFramesSinceTone (store F_MinorFramesSinceTone CurrentSlot) s in
      let s := set_LastSyncMETSlot 0 s in
      MinorFrameRollover s
  else
    let s :=
      set_MinorFramesSinceTone
        (store F_MinorFramesSinceTone (MinorFramesSinceTone s + 1)) s in
    MinorFrameRollover s.

End Scheduler.

(** ** Further functions of scheduler.c *)

Definition set_WorstCaseSlotsPerMinorFrame (v : Z) (s : SCHEDULER_Class)
    : SCHEDULER_Class :=
  Build_SCHEDULER (SchTbl s) (MsgTbl s) (SlotsProcessedCount s)
    (SkippedSlotsCount s) (MultipleSlotsCount s) (SameSlotCount s)
    (ScheduleActivitySuccessCount s) (ScheduleActivityFailureCount s)
    (ValidMajorFrameCount s) (MissedMajorFrameCount s)
    (UnexpectedMajorFrameCount s) (TablePassCount s)
    (ConsecutiveNoisyFrameCounter s) (MinorFramesSinceTone s) (NextSlotNumber s)
    (LastSyncMETSlot s) (SyncAttemptsLeft s) (SendNoisyMajorFrameMsg s)
    (IgnoreMajorFrame s) (UnexpectedMajorFrame s) (SyncToMET s)
    (MajorFrameSource s) (LastProcessCount s) v (Log s).

(** *** SCHEDULER_Constructor (lines 62-150)

    SCHEDULER_WORST_CLOCK_ACCURACY and SCHEDULER_MF_SRC_NONE are constants of
    scheduler.h.  [TimerCreateStatus] is the status returned by
    OS_TimerCreate and [ClockAccuracy] the [uint32] accuracy it writes back.
    The event messages, the semaphore and the two telemetry headers are not
    part of the state. *)
Definition SCHEDULER_Constructor (P : Platform)
    (SCHEDULER_WORST_CLOCK_ACCURACY : Z)
    (SCHEDULER_MF_SRC_NONE : MajorFrameSource_t)
    (TimerCreateStatus ClockAccuracy : Z) (s : SCHEDULER_Class)
    : SCHEDULER_Class :=
  let s := set_SlotsProcessedCount 0 s in
  let s := set_SkippedSlotsCount 0 s in
  let s := set_MultipleSlotsCount 0 s in
  let s := set_SameSlotCount 0 s in
  let s := set_ScheduleActivitySuccessCount 0 s in
  let s := set_ScheduleActivityFailureCount 0 s in
  let s := set_SendNoisyMajorFrameMsg true s in
  let s := set_IgnoreMajorFrame false s in
  let s := set_UnexpectedMajorFrame false s in
  let s := set_SyncToMET (store P F_SyncToMET (SCHEDULER_SYNCH_FALSE P)) s in
  let s := set_MajorFrameSource SCHEDULER_MF_SRC_NONE s in
  let s := set_NextSlotNumber 0 s in
  let s :=
    set_MinorFramesSinceTone
      (store P F_MinorFramesSinceTone (SCHEDULER_TIME_SYNC_SLOT P)) s in
  let s := set_LastSyncMETSlot 0 s in
  let s := set_SyncAttemptsLeft 0 s in
  let s := set_UnexpectedMajorFrameCount 0 s in
  let s := set_MissedMajorFrameCount 0 s in
  let s := set_ValidMajorFrameCount 0 s in
  let s :=
    set_WorstCaseSlotsPerMinorFrame
      (store P F_WorstCaseSlotsPerMinorFrame 1) s in
  if negb (TimerCreateStatus =? OS_SUCCESS) then s
  else if ClockAccuracy >? SCHEDULER_WORST_CLOCK_ACCURACY then
    let s :=
      set_SyncToMET (store P F_SyncToMET (SCHEDULER_SYNCH_TO_MINOR P)) s in
    set_WorstCaseSlotsPerMinorFrame
      (store P F_WorstCaseSlotsPerMinorFrame
         (u32 (u32 (ClockAccuracy * 2) / SCHEDULER_NORMAL_SLOT_PERIOD P + 1)))
      s
  else s.

(** *** SCHEDULER_SendMsgEntryCmd (lines 373-467): the search for a scheduler
    table entry

    The do-while loop of lines 439-450, entered with [SchIndex] and run for
    at most [fuel] iterations.  [SchIndex] is a [uint16]; SCHTBL_MAX_ENTRIES
    is a constant of schtbl.h.  The result is the final [SchIndex] and
    [SchEntryFound], the two arguments passed on to SendTblEntryTlm. *)
Fixpoint FindSchEntry (SCHTBL_MAX_ENTRIES : Z) (fuel : nat)
    (MsgIndex SchIndex : Z) (s : SCHEDULER_Class) : option (Z * bool) :=
  match fuel with
  | O => None
  | S fuel =>
      Entry ← SchTbl s !! Z.to_nat SchIndex;
      if MsgTblIndex Entry =? MsgIndex then Some (SchIndex, true)
      else
        let SchIndex := wrap 16 (SchIndex + 1) in
        if SchIndex <? SCHTBL_MAX_ENTRIES
        then FindSchEntry SCHTBL_MAX_ENTRIES fuel MsgIndex SchIndex s
        else Some (SchIndex, false)
  end.

(** ** Properties used in the statements *)

(** An entry is due on a pass when it is enabled and the pass count is at
    its offset within its period. *)
Definition Due (TablePass : Z) (e : SCHTBL_Entry) : bool :=
  Enabled e && (TablePass mod Period e =? Offset e).

(** The table has one entry per slot and activity, and no enabled entry
    has a zero period (the divisor of line 1209). *)
Definition TableOK (P : Platform) (s : SCHEDULER_Class) : Prop :=
  Z.of_nat (length (SchTbl s)) = SCHTBL_SLOTS P * SCHTBL_ACTIVITIES_PER_SLOT P
  /\ forall i e, SchTbl s !! i = Some e -> Enabled e = true -> 0 < Period e.

(** The invariant of the slot executor. *)
Definition Inv (P : Platform) (s : SCHEDULER_Class) : Prop :=
  0 <= NextSlotNumber s < SCHTBL_SLOTS P /\ TableOK P s.

(** Every enabled entry has its offset below its period. *)
Definition TableValid (s : SCHEDULER_Class) : Prop :=
  forall i e, SchTbl s !! i = Some e -> Enabled e = true -> Offset e < Period e.

(** Modelled from the spec: SCHTBL_ValidEntry (schtbl.c) and
    CMDMGR_ValidBoolArg (cmdmgr.c) are not part of the sources.  The
    validator accepts no entry whose offset is not below its period, and a
    valid boolean argument is 0 or 1 ("Must be True(1) or False(0)"). *)
Definition ValidatorsOK (W : World) : Prop :=
  (forall en p o m, ~ o < p -> SCHTBL_ValidEntry W en p o m = false)
  /\ (forall x, CMDMGR_ValidBoolArg W x = true -> x = 0 \/ x = 1).

(** The index computed by SCHTBL_GetEntryIndex lies in the table. *)
Definition IndexOK (W : World) (s : SCHEDULER_Class) : Prop :=
  forall Slot Activity Index,
    SCHTBL_GetEntryIndex W Slot Activity = Some Index ->
    0 <= Index /\ (Z.to_nat Index < length (SchTbl s))%nat.

(** The slots whose processing is recorded in a history. *)
Definition ProcessedSlots (evs : list Event) : list Z :=
  omap (fun ev => match ev with EvSlot n => Some n | _ => None end) evs.

(** The number of failed dispatches recorded in a history. *)
Definition is_failure (ev : Event) : bool :=
  match ev with
  | EvDispatch _ _ _ st => negb (st =? CFE_SUCCESS)
  | _ => false
  end.

(** The scheduler without the four things the loop over the entries of a
    slot can change. *)
Definition outside_entries (s : SCHEDULER_Class) : SCHEDULER_Class :=
  set_Log [] (set_ScheduleActivityFailureCount 0
    (set_ScheduleActivitySuccessCount 0 (set_SchTbl [] s))).

(** A counter of field [f] after [n] increments. *)
Definition incremented (P : Platform) (f : Field) (n : nat) (x : Z) : Z :=
  Nat.iter n (fun c => store P f (c + 1)) x.

(** What [n] turns of the loop over the entries do, from entry number [k]
    at table index [i]: [s] is the scheduler before, [s'] after, [evs] the
    events of these turns. *)
Record EntriesPost (P : Platform) (W : World) (n : nat) (k : Z) (i : nat)
    (s s' : SCHEDULER_Class) (evs : list Event) : Prop := {
  ep_log : Log s' = Log s ++ evs;
  ep_frame : outside_entries s' = outside_entries s;
  ep_length : length (SchTbl s') = length (SchTbl s);
  ep_outside : forall j, (j < i \/ i + n <= j)%nat ->
      SchTbl s' !! j = SchTbl s !! j;
  ep_events : forall ev, In ev evs ->
      exists (d : nat) e st pre post,
        (d < n)%nat
        /\ ev = EvDispatch (NextSlotNumber s) (k + Z.of_nat d) (MsgTblIndex e) st
        /\ evs = pre ++ ev :: post
        /\ st = DispatchStatus W (Log s ++ pre) (MsgTblIndex e)
        /\ SchTbl s !! (i + d)%nat = Some e
        /\ Due (TablePassCount s) e = true
        /\ SchTbl s' !! (i + d)%nat
           = Some (if st =? CFE_SUCCESS then e else set_Enabled false e);
  ep_due : forall (d : nat) e, (d < n)%nat ->
      SchTbl s !! (i + d)%nat = Some e ->
      Due (TablePassCount s) e = true ->
      exists st,
        In (EvDispatch (NextSlotNumber s) (k + Z.of_nat d) (MsgTblIndex e) st) evs;
  ep_not_due : forall (d : nat) e, (d < n)%nat ->
      SchTbl s !! (i + d)%nat = Some e ->
      Due (TablePassCount s) e = false ->
      SchTbl s' !! (i + d)%nat = Some e;
  ep_failure : ScheduleActivityFailureCount s'
      = incremented P F_ScheduleActivityFailureCount
          (length (List.filter is_failure evs))
          (ScheduleActivityFailureCount s);
  ep_success : ScheduleActivitySuccessCount s'
      = incremented P F_ScheduleActivitySuccessCount
          (length (List.filter (fun ev => negb (is_failure ev)) evs))
          (ScheduleActivitySuccessCount s)
}.

(** The scheduler without what [ProcessNextSlot] can change. *)
Definition outside_slot (s : SCHEDULER_Class) : SCHEDULER_Class :=
  set_NextSlotNumber 0 (set_TablePassCount 0
    (set_SlotsProcessedCount 0 (outside_entries s))).

(** What one call of [ProcessNextSlot] does: [evs] are the dispatches of the
    slot, [s'] is the scheduler afterwards. *)
Record SlotPost (P : Platform) (W : World) (s s' : SCHEDULER_Class)
    (evs : list Event) : Prop := {
  sp_entries : exists sm,
      EntriesPost P W (Z.to_nat (SCHTBL_ACTIVITIES_PER_SLOT P)) 0
        (Z.to_nat (NextSlotNumber s * SCHTBL_ACTIVITIES_PER_SLOT P)) s sm evs
      /\ SchTbl s' = SchTbl sm
      /\ ScheduleActivityFailureCount s' = ScheduleActivityFailureCount sm
      /\ ScheduleActivitySuccessCount s' = ScheduleActivitySuccessCount sm;
  sp_log : Log s' = Log s ++ evs ++ [EvSlot (NextSlotNumber s)];
  sp_next : NextSlotNumber s' = (NextSlotNumber s + 1) mod SCHTBL_SLOTS P;
  sp_pass : TablePassCount s'
      = if NextSlotNumber s + 1 =? SCHTBL_SLOTS P
        then store P F_TablePassCount (TablePassCount s + 1)
        else TablePassCount s;
  sp_processed : SlotsProcessedCount s'
      = store P F_SlotsProcessedCount (SlotsProcessedCount s + 1);
  sp_frame : outside_slot s' = outside_slot s
}.

(** [n] consecutive slot numbers from [first], wrapping at the table end. *)
Fixpoint slot_sequence (P : Platform) (first : Z) (n : nat) : list Z :=
  match n with
  | O => []
  | S n' => first :: slot_sequence P ((first + 1) mod SCHTBL_SLOTS P) n'
  end.

(** The table index of entry number [m] of the slot being processed. *)
Definition EntryIndex (P : Platform) (s : SCHEDULER_Class) (m : Z) : nat :=
  Z.to_nat (NextSlotNumber s * SCHTBL_ACTIVITIES_PER_SLOT P + m).

(** The slot numbers kept by the scheduler are slot numbers of the table. *)
Definition SlotInv (P : Platform) (s : SCHEDULER_Class) : Prop :=
  Inv P s
  /\ 0 <= MinorFramesSinceTone s < SCHTBL_SLOTS P
  /\ 0 <= LastSyncMETSlot s < SCHTBL_SLOTS P.

(** A reading of the MET sub-seconds in microseconds, as a [uint32]: the
    table spans the major frame. *)
Definition METReading (P : Platform) (MicroSeconds : Z) : Prop :=
  0 <= MicroSeconds < SCHTBL_SLOTS P * SCHEDULER_NORMAL_SLOT_PERIOD P
  /\ MicroSeconds < 2 ^ 32.

(** One activation of the scheduler: a major frame signal, a minor frame
    timer tick, a wakeup, or a reset command. *)
Inductive Step (P : Platform) (W : World)
    : SCHEDULER_Class -> SCHEDULER_Class -> Prop :=
  | StepMajorFrame StateFlags MicroSeconds s :
      METReading P MicroSeconds ->
      Step P W s (MajorFrameCallback P StateFlags MicroSeconds s)
  | StepMinorFrame MicroSeconds s :
      METReading P MicroSeconds ->
      Step P W s (MinorFrameCallback P MicroSeconds s)
  | StepExecute TakeResult MicroSeconds s b s' :
      METReading P MicroSeconds ->
      SCHEDULER_Execute P W TakeResult MicroSeconds s = Some (b, s') ->
      Step P W s s'
  | StepReset s :
      Step P W s (SCHEDULER_ResetStatus s).

(** *** What the spec asks of the slot executor *)

(** The entries of the slot that is processed next, in table order. *)
Definition SlotEntries (P : Platform) (s : SCHEDULER_Class)
    : list SCHTBL_Entry :=
  take (Z.to_nat (SCHTBL_ACTIVITIES_PER_SLOT P))
    (drop (Z.to_nat (NextSlotNumber s * SCHTBL_ACTIVITIES_PER_SLOT P))
       (SchTbl s)).

(** Written from the spec ("dispatch the referenced message-table entry";
    "lookup miss or transmission error"): the message is looked up in the
    message table and handed to the software bus, whose status is the
    status of the dispatch; a message that is not found is an error. *)
Definition ExpectedStatus (W : World) (hist : list Event) (MsgIndex : Z) : Z :=
  if MSGTBL_GetMsgPtr W MsgIndex
  then CFE_SB_TransmitMsg W hist MsgIndex
  else CFE_SB_NO_MESSAGE.

(** Written from the spec: the dispatches that processing the entries
    [entries] of slot [Slot] makes on pass [TablePass], the first entry
    having number [EntryNumber], after the history [hist]: one dispatch for
    each entry that is due, in the order of the entries. *)
Fixpoint ExpectedDispatches (W : World) (TablePass Slot EntryNumber : Z)
    (entries : list SCHTBL_Entry) (hist : list Event) : list Event :=
  match entries with
  | [] => []
  | e :: rest =>
      if Due TablePass e then
        let ev :=
          EvDispatch Slot EntryNumber (MsgTblIndex e)
            (ExpectedStatus W hist (MsgTblIndex e)) in
        ev :: ExpectedDispatches W TablePass Slot (EntryNumber + 1) rest
                (hist ++ [ev])
      else
        ExpectedDispatches W TablePass Slot (EntryNumber + 1) rest hist
  end.

(** Written from the spec: the same entries afterwards.  An entry whose
    dispatch failed is disabled, every other entry is as it was. *)
Fixpoint ExpectedEntries (W : World) (TablePass Slot EntryNumber : Z)
    (entries : list SCHTBL_Entry) (hist : list Event) : list SCHTBL_Entry :=
  match entries with
  | [] => []
  | e :: rest =>
      if Due TablePass e then
        let st := ExpectedStatus W hist (MsgTblIndex e) in
        (if st =? CFE_SUCCESS then e else set_Enabled false e)
        :: ExpectedEntries W TablePass Slot (EntryNumber + 1) rest
             (hist ++ [EvDispatch Slot EntryNumber (MsgTblIndex e) st])
      else
        e :: ExpectedEntries W TablePass Slot (EntryNumber + 1) rest hist
  end.

(** *** Properties of whole runs, of the callbacks and of the commands *)

(** The table [t'] is the table [t] with some enabled entries disabled. *)
Definition OnlyDisabled (t t' : list SCHTBL_Entry) : Prop :=
  length t' = length t
  /\ forall j e, t !! j = Some e ->
       t' !! j = Some e
       \/ (Enabled e = true /\ t' !! j = Some (set_Enabled false e)).

(** Every dispatch recorded in [evs] is for a slot and an activity of the
    table, and for an entry that is enabled in [t], with its message. *)
Definition DispatchesFrom (P : Platform) (t : list SCHTBL_Entry)
    (evs : list Event) : Prop :=
  forall Slot EntryNumber MsgIndex Status,
    In (EvDispatch Slot EntryNumber MsgIndex Status) evs ->
    0 <= Slot < SCHTBL_SLOTS P
    /\ 0 <= EntryNumber < SCHTBL_ACTIVITIES_PER_SLOT P
    /\ exists e,
         t !! Z.to_nat (Slot * SCHTBL_ACTIVITIES_PER_SLOT P + EntryNumber)
           = Some e
         /\ Enabled e = true /\ MsgTblIndex e = MsgIndex.

(** What a run of the scheduler does to the tables and to the history. *)
Definition RunPost (P : Platform) (s s' : SCHEDULER_Class) : Prop :=
  OnlyDisabled (SchTbl s) (SchTbl s')
  /\ MsgTbl s' = MsgTbl s
  /\ exists evs, Log s' = Log s ++ evs /\ DispatchesFrom P (SchTbl s) evs.

(** The scheduler without what the reconciler can change. *)
Definition outside_reconcile (s : SCHEDULER_Class) : SCHEDULER_Class :=
  set_SendNoisyMajorFrameMsg false (set_LastProcessCount 0
    (set_SameSlotCount 0 (set_SkippedSlotsCount 0 (set_TablePassCount 0
      (set_NextSlotNumber 0 (set_MultipleSlotsCount 0 s)))))).

(** The scheduler without what a free-running timer tick can change. *)
Definition outside_tick (s : SCHEDULER_Class) : SCHEDULER_Class :=
  set_Log [] (set_MinorFramesSinceTone 0 (set_MissedMajorFrameCount 0 s)).

(** The minor frame timer is free running: the scheduler is not waiting to
    synchronise the major frame with the MET. *)
Definition FreeRunning (P : Platform) (s : SCHEDULER_Class) : Prop :=
  MajorFrameSource s <> SCHEDULER_MF_SOURCE_NONE
  /\ (Z.land (SyncToMET s) (SCHEDULER_SYNCH_MAJOR_PENDING P) = 0
      \/ MajorFrameSource s <> SCHEDULER_MF_SOURCE_MINOR_FRAME_TIMER).

(** The major frame signal is used to resynchronise: the clock is not
    flywheeling and, once the signal is classified, the scheduler is not
    ignoring the major frame. *)
Definition MajorFrameAccepted (P : Platform) (StateFlags : Z)
    (s : SCHEDULER_Class) : bool :=
  (Z.land StateFlags (CFE_TIME_FLAG_FLYING P) =? 0)
  && negb (IgnoreMajorFrame s)
  && (negb (NoisyMajorFrame P s)
      || (store P F_ConsecutiveNoisyFrameCounter
            (ConsecutiveNoisyFrameCounter s + 1)
          <? SCHEDULER_MAX_NOISY_MF P)).

(** The scheduler without the bookkeeping of unexpected major frames and
    the MET slot of the last signal. *)
Definition outside_signal (s : SCHEDULER_Class) : SCHEDULER_Class :=
  set_LastSyncMETSlot 0 (set_IgnoreMajorFrame false
    (set_UnexpectedMajorFrame false (set_UnexpectedMajorFrameCount 0
      (set_ConsecutiveNoisyFrameCounter 0 s)))).

(** The two MET synchronisation flags fit the [SyncToMET] field and share
    no bit. *)
Definition FlagsOK (P : Platform) : Prop :=
  0 < SCHEDULER_SYNCH_MAJOR_PENDING P < 2 ^ bits P F_SyncToMET
  /\ 0 <= SCHEDULER_SYNCH_TO_MAJOR P < 2 ^ bits P F_SyncToMET
  /\ Z.land (SCHEDULER_SYNCH_TO_MAJOR P) (SCHEDULER_SYNCH_MAJOR_PENDING P) = 0.

(** The scheduler is waiting to synchronise the major frame with the MET. *)
Definition Pending (P : Platform) (s : SCHEDULER_Class) : Prop :=
  Z.land (SyncToMET s) (SCHEDULER_SYNCH_MAJOR_PENDING P) <> 0
  /\ MajorFrameSource s = SCHEDULER_MF_SOURCE_MINOR_FRAME_TIMER.

(** The minor frame timer callback, once for each MET reading. *)
Definition MinorFrameCallbacks (P : Platform) (readings : list Z)
    (s : SCHEDULER_Class) : SCHEDULER_Class :=
  fold_left (fun s MicroSeconds => MinorFrameCallback P MicroSeconds s)
    readings s.

(** What an entry command does to a scheduler in which the slot and the
    activity of the command select the table index [Index]: only the table
    changes, and only at [Index]. *)
Definition EntryCmdPost (Index : option Z) (s s' : SCHEDULER_Class)
    (RetStatus : bool) : Prop :=
  set_SchTbl (SchTbl s) s' = s
  /\ length (SchTbl s') = length (SchTbl s)
  /\ (RetStatus = false -> s' = s)
  /\ (RetStatus = true -> exists i, Index = Some i)
  /\ forall i j, Index = Some i -> j <> Z.to_nat i ->
       SchTbl s' !! j = SchTbl s !! j.

(** ** A concrete configuration

    A platform in the style of the cFS scheduler: a 100-slot table of 10 ms
    slots with 5 activities each, 16-bit slot fields and 32-bit counters. *)
Definition example_bits (f : Field) : Z :=
  match f with
  | F_SkippedSlotsCount | F_MultipleSlotsCount | F_SameSlotCount
  | F_MinorFramesSinceTone | F_NextSlotNumber | F_LastSyncMETSlot
  | F_SyncAttemptsLeft => 16
  | F_SyncToMET => 8
  | _ => 32
  end.

Definition example_platform : Platform := {|
  bits := example_bits;
  SCHTBL_SLOTS := 100;
  SCHTBL_ACTIVITIES_PER_SLOT := 5;
  SCHEDULER_MAX_LAG_COUNT := 50;
  SCHEDULER_MAX_SLOTS_PER_WAKEUP := 5;
  SCHEDULER_TIME_SYNC_SLOT := 99;
  SCHEDULER_MAX_NOISY_MF := 2;
  SCHEDULER_MAX_SYNC_ATTEMPTS := 300;
  SCHEDULER_NORMAL_SLOT_PERIOD := 10000;
  SCHEDULER_SHORT_SLOT_PERIOD := 5000;
  SCHEDULER_SYNC_SLOT_PERIOD := 15000;
  SCHEDULER_SYNCH_FALSE := 0;
  SCHEDULER_SYNCH_TO_MINOR := 1;
  SCHEDULER_SYNCH_MAJOR_PENDING := 2;
  SCHEDULER_SYNCH_TO_MAJOR := 4;
  CFE_TIME_FLAG_FLYING := 16384
|}.

(** Collaborators: a 200-entry message table, a software bus that refuses
    message 7, validators as the spec describes them. *)
Definition example_world : World := {|
  SCHTBL_GetEntryIndex := fun Slot Activity =>
    if (0 <=? Slot) && (Slot <? 100) && (0 <=? Activity) && (Activity <? 5)
    then Some (Slot * 5 + Activity) else None;
  SCHTBL_ValidEntry := fun en p o m =>
    ((en =? 0) || (en =? 1)) && (0 <? p) && (o <? p);
  CMDMGR_ValidBoolArg := fun x => (x =? 0) || (x =? 1);
  MSGTBL_GetMsgPtr := fun i => (0 <=? i) && (i <? 200);
  CFE_SB_TransmitMsg := fun _ i => if i =? 7 then -1 else CFE_SUCCESS
|}.

Definition idle_entry : SCHTBL_Entry :=
  {| Enabled := false; Period := 0; Offset := 0; MsgTblIndex := 0 |}.

Definition activity (p o m : Z) : SCHTBL_Entry :=
  {| Enabled := true; Period := p; Offset := o; MsgTblIndex := m |}.

(** Slot 98 sends message 3 on every pass; slot 0 sends message 4 on the
    passes 1, 5, 9, ...; slot 1 has three activities on every pass: message
    7 (refused by the bus), message 250 (not in the message table) and
    message 5. *)
Definition example_table : SCHTBL_Tbl :=
  <[490%nat := activity 1 0 3]>
  (<[1%nat := activity 4 1 4]>
  (<[5%nat := activity 1 0 7]>
  (<[6%nat := activity 1 0 250]>
  (<[7%nat := activity 1 0 5]> (replicate 500 idle_entry))))).

(** The scheduler in slot 98 of pass 7, last wakeup processed one slot. *)
Definition example_state : SCHEDULER_Class := {|
  SchTbl := example_table;
  MsgTbl := [];
  SlotsProcessedCount := 798;
  SkippedSlotsCount := 0;
  MultipleSlotsCount := 1;
  SameSlotCount := 0;
  ScheduleActivitySuccessCount := 12;
  ScheduleActivityFailureCount := 0;
  ValidMajorFrameCount := 7;
  MissedMajorFrameCount := 0;
  UnexpectedMajorFrameCount := 1;
  TablePassCount := 7;
  ConsecutiveNoisyFrameCounter := 1;
  MinorFramesSinceTone := 1;
  NextSlotNumber := 98;
  LastSyncMETSlot := 0;
  SyncAttemptsLeft := 0;
  SendNoisyMajorFrameMsg := true;
  IgnoreMajorFrame := false;
  UnexpectedMajorFrame := false;
  SyncToMET := 0;
  MajorFrameSource := SCHEDULER_MF_SOURCE_CFE_TIME;
  LastProcessCount := 1;
  WorstCaseSlotsPerMinorFrame := 1;
  Log := []
|}.

(** A table that passes this check is [TableOK]. *)
Definition check_table (P : Platform) (tbl : list SCHTBL_Entry) : bool :=
  (Z.of_nat (length tbl) =? SCHTBL_SLOTS P * SCHTBL_ACTIVITIES_PER_SLOT P)
  && forallb (fun e => implb (Enabled e) (0 <? Period e)) tbl.

(** The example scheduler one slot late: the clock is at slot 99. *)
Definition example_state_late : SCHEDULER_Class :=
  set_MinorFramesSinceTone 99 example_state.

(** The example scheduler far behind: the clock is at slot 60. *)
Definition example_state_behind : SCHEDULER_Class :=
  set_MinorFramesSinceTone 60 example_state.

(** The example scheduler about to process slot 1. *)
Definition example_state_slot1 : SCHEDULER_Class :=
  set_NextSlotNumber 1 example_state.

(** Whether the activity of slot 0 (Period 4, Offset 1) is dispatched when
    slot 0 is processed on pass [TablePass]. *)
Definition slot0_dispatched (TablePass : Z) : bool :=
  match ProcessNextSlot example_platform example_world
          (set_TablePassCount TablePass (set_NextSlotNumber 0 example_state))
  with
  | Some (_, s') =>
      match Log s' with
      | EvDispatch 0 1 4 _ :: _ => true
      | _ => false
      end
  | None => false
  end.

(** Two wakeups in a row, the clock at slot 99 and then at slot 0. *)
Definition example_two_wakeups : option (bool * SCHEDULER_Class) :=
  '(_, s) ← SCHEDULER_Execute example_platform example_world OS_SUCCESS 0
              example_state_late;
  SCHEDULER_Execute example_platform example_world OS_SUCCESS 0
    (set_MinorFramesSinceTone 0 s).

(** *** Further example states *)

(** The example scheduler with an enabled entry of period zero in slot
    98. *)
Definition example_state_zero_period : SCHEDULER_Class :=
  set_SchTbl (<[490%nat := activity 0 0 3]> example_table) example_state.

(** The example scheduler after the wakeup that processes slot 1. *)
Definition example_after_wakeup : SCHEDULER_Class :=
  match SCHEDULER_Execute example_platform example_world OS_SUCCESS 0
          example_state_slot1 with
  | Some (_, s') => s'
  | None => example_state_slot1
  end.

(** The example scheduler woken before the clock has moved: the clock is
    at slot 97, the slot before the next one to process. *)
Definition example_state_early : SCHEDULER_Class :=
  set_MinorFramesSinceTone 97 example_state.

(** The same, when the previous wakeup was in the same slot already. *)
Definition example_state_same_slot : SCHEDULER_Class :=
  set_LastProcessCount 100 example_state_early.

(** The example scheduler waiting to synchronise with the MET, two attempts
    left. *)
Definition example_state_pending : SCHEDULER_Class :=
  set_SyncAttemptsLeft 2
    (set_SyncToMET 2
       (set_MajorFrameSource SCHEDULER_MF_SOURCE_MINOR_FRAME_TIMER
          example_state)).

(** A command that disables the activity of slot 98. *)
Definition example_disable_cmd : ConfigSchEntryCmdMsg.t :=
  {| ConfigSchEntryCmdMsg.Slot := 98;
     ConfigSchEntryCmdMsg.Activity := 0;
     ConfigSchEntryCmdMsg.Enabled := 0 |}.

(** ** Theorems *)

(** *** The example configuration is well formed *)

Lemma example_platform_ok : PlatformOK example_platform.
Proof.
  split; cbn; try lia.
  intros f; destruct f; cbn; lia.
Qed.

Lemma example_validators_ok : ValidatorsOK example_world.
Proof.
  split; cbn.
  - intros en p o m H.
    destruct (o <? p) eqn:E; [apply Z.ltb_lt in E; lia|].
    now rewrite andb_false_r.
  - intros x H. apply orb_true_iff in H as [H|H]; apply Z.eqb_eq in H; lia.
Qed.

Lemma example_index_ok : IndexOK example_world example_state.
Proof.
  intros Slot Activity Index; cbn.
  destruct (_ && _) eqn:E; [|discriminate].
  intros [= <-].
  repeat (apply andb_true_iff in E as [E ?]).
  change (length example_table) with 500%nat. lia.
Qed.

Lemma check_table_ok (P : Platform) (s : SCHEDULER_Class) :
  check_table P (SchTbl s) = true -> TableOK P s.
Proof.
  unfold check_table. intros H. apply andb_true_iff in H as [Hlen Hall].
  split; [lia|].
  intros i e Hi Hen. rewrite forallb_forall in Hall.
  assert (Hin : In e (SchTbl s)).
  { apply list_elem_of_In, list_elem_of_lookup. eauto. }
  specialize (Hall e Hin). rewrite Hen in Hall. cbn in Hall. lia.
Qed.

Lemma example_inv : Inv example_platform example_state.
Proof.
  split; [cbn; lia|]. apply check_table_ok. vm_compute. reflexivity.
Qed.

Lemma example_inv_slot1 : Inv example_platform example_state_slot1.
Proof.
  split; [cbn; lia|]. apply check_table_ok. vm_compute. reflexivity.
Qed.

Lemma example_slot_inv : SlotInv example_platform example_state.
Proof. split; [exact example_inv|]. cbn. lia. Qed.

(** *** Arithmetic of the machine integers *)

Lemma u32_small (x : Z) : 0 <= x < 2 ^ 32 -> u32 x = x.
Proof. intros H. unfold u32, wrap. now apply Z.mod_small. Qed.

Lemma wrap_small (w x : Z) : 0 <= x < 2 ^ w -> wrap w x = x.
Proof. intros H. unfold wrap. now apply Z.mod_small. Qed.

Lemma wrap_add_l (w a b : Z) : wrap w (wrap w a + b) = wrap w (a + b).
Proof. unfold wrap. apply Zplus_mod_idemp_l. Qed.

Lemma pow2_bits (P : Platform) (f : Field) :
  PlatformOK P -> 2 ^ 8 <= 2 ^ bits P f <= 2 ^ 32.
Proof.
  intros HP. pose proof (bits_range P HP f).
  split; apply Z.pow_le_mono_r; lia.
Qed.

Lemma slots_lt_u32 (P : Platform) : PlatformOK P -> SCHTBL_SLOTS P < 2 ^ 32.
Proof.
  intros HP. pose proof (slots_fit P HP).
  pose proof (pow2_bits P F_NextSlotNumber HP). lia.
Qed.

Lemma store_small (P : Platform) (f : Field) (x : Z) :
  PlatformOK P -> 0 <= x < 256 -> store P f x = x.
Proof.
  intros HP Hx. apply wrap_small.
  pose proof (pow2_bits P f HP). change (2 ^ 8) with 256 in *. lia.
Qed.

Lemma wrap_slot (P : Platform) (w x : Z) :
  0 <= w -> 0 <= x < SCHTBL_SLOTS P -> 0 <= wrap w x < SCHTBL_SLOTS P.
Proof.
  intros Hw Hx. unfold wrap.
  assert (0 < 2 ^ w) by (apply Z.pow_pos_nonneg; lia).
  pose proof (Z.mod_pos_bound x (2 ^ w) ltac:(lia)).
  pose proof (Z.mod_le x (2 ^ w) ltac:(lia) ltac:(lia)). lia.
Qed.

Lemma store_slot (P : Platform) (f : Field) (x : Z) :
  PlatformOK P ->
  0 <= x < SCHTBL_SLOTS P -> 0 <= store P f x < SCHTBL_SLOTS P.
Proof.
  intros HP Hx. apply wrap_slot; [|exact Hx].
  pose proof (bits_range P HP f). lia.
Qed.

Lemma incremented_add (P : Platform) (f : Field) (a b : nat) (x : Z) :
  incremented P f b (incremented P f a x) = incremented P f (a + b) x.
Proof. unfold incremented. rewrite Nat.add_comm. symmetry. apply Nat.iter_add. Qed.

Lemma rebase_slot (P : Platform) (m l : Z) :
  PlatformOK P ->
  0 <= m < SCHTBL_SLOTS P -> 0 <= l < SCHTBL_SLOTS P ->
  (if m <? l then u32 (u32 (m + SCHTBL_SLOTS P) - l) else u32 (m - l))
  = (if m <? l then m + SCHTBL_SLOTS P - l else m - l).
Proof.
  intros HP Hm Hl. pose proof (slots_lt_u32 P HP) as Hslots.
  destruct (m <? l) eqn:E.
  - unfold u32.
    replace (wrap 32 (m + SCHTBL_SLOTS P) - l)
      with (wrap 32 (m + SCHTBL_SLOTS P) + - l) by lia.
    rewrite wrap_add_l. apply wrap_small. lia.
  - apply u32_small. lia.
Qed.

Ltac case_if :=
  match goal with
  | |- context [if ?c then _ else _] => destruct c eqn:?
  end.

(** *** C1: SCHEDULER_ResetStatus *)

(** C1 as stated fails: the reset also writes [TablePassCount].  In pass 7
    the pass count is 0 after the reset and not 7. *)
Lemma ResetStatus_changes_TablePassCount :
  TablePassCount (SCHEDULER_ResetStatus example_state)
  <> TablePassCount example_state.
Proof. cbn. lia. Qed.

(** C1 (amended): SCHEDULER_ResetStatus zeroes the ten diagnostic counters
    and also [TablePassCount], clears [IgnoreMajorFrame], and leaves
    [NextSlotNumber], the schedule table, the message table and every other
    field as it was, in every state. *)
Theorem ResetStatus_effect (s : SCHEDULER_Class) :
  let s' := SCHEDULER_ResetStatus s in
  (SlotsProcessedCount s' = 0 /\ SkippedSlotsCount s' = 0
   /\ MultipleSlotsCount s' = 0 /\ SameSlotCount s' = 0
   /\ ScheduleActivitySuccessCount s' = 0
   /\ ScheduleActivityFailureCount s' = 0
   /\ ValidMajorFrameCount s' = 0 /\ MissedMajorFrameCount s' = 0
   /\ UnexpectedMajorFrameCount s' = 0
   /\ ConsecutiveNoisyFrameCounter s' = 0)
  /\ TablePassCount s' = 0
  /\ IgnoreMajorFrame s' = false
  /\ (NextSlotNumber s' = NextSlotNumber s
      /\ SchTbl s' = SchTbl s /\ MsgTbl s' = MsgTbl s)
  /\ (MinorFramesSinceTone s' = MinorFramesSinceTone s
      /\ LastSyncMETSlot s' = LastSyncMETSlot s
      /\ SyncAttemptsLeft s' = SyncAttemptsLeft s
      /\ SendNoisyMajorFrameMsg s' = SendNoisyMajorFrameMsg s
      /\ UnexpectedMajorFrame s' = UnexpectedMajorFrame s
      /\ SyncToMET s' = SyncToMET s
      /\ MajorFrameSource s' = MajorFrameSource s
      /\ LastProcessCount s' = LastProcessCount s
      /\ WorstCaseSlotsPerMinorFrame s' = WorstCaseSlotsPerMinorFrame s
      /\ Log s' = Log s).
Proof. cbn. repeat split. Qed.

(** *** C2: validation before an entry is enabled *)

Lemma TableValid_insert (s : SCHEDULER_Class) (i : nat) (e : SCHTBL_Entry) :
  TableValid s ->
  (Enabled e = true -> Offset e < Period e) ->
  TableValid (set_SchTbl (<[i := e]> (SchTbl s)) s).
Proof.
  intros Hs He j e' Hj; cbn in Hj.
  destruct (decide (i = j)) as [->|Hne].
  - destruct (decide (j < length (SchTbl s))%nat) as [Hlt|Hge].
    + rewrite list_lookup_insert_eq in Hj by exact Hlt.
      injection Hj as <-. exact He.
    + rewrite list_insert_ge in Hj by lia. eauto.
  - rewrite list_lookup_insert_ne in Hj by exact Hne. eauto.
Qed.

(** C2 as stated fails for the single-entry table load: it copies whatever
    it is given.  Loading an enabled entry with Period 1 and Offset 5 into
    index 0 returns true and leaves that entry enabled in the table. *)
Lemma LoadSchTblEntry_accepts_invalid_entry :
  exists s',
    SCHEDULER_LoadSchTblEntry 0 (activity 1 5 3) example_state = Some (true, s')
    /\ SchTbl s' !! 0%nat = Some (activity 1 5 3)
    /\ Enabled (activity 1 5 3) = true
    /\ ~ Offset (activity 1 5 3) < Period (activity 1 5 3).
Proof.
  eexists. split; [reflexivity|]. cbn. repeat split. lia.
Qed.

(** C2 (amended): the config-entry command and the load-entry command
    reject (return false, scheduler unchanged) whenever the offset is not
    below the period, for the entry that the config command is asked to
    enable and for the fields that the load command carries, and they never
    produce an enabled entry with its offset not below its period.  The
    single-entry table load performs no validation: it stores the entry it
    is given and returns true. *)
Theorem entry_commands_validate (W : World) (s : SCHEDULER_Class) :
  ValidatorsOK W ->
  IndexOK W s ->
  (forall Cmd Index Entry,
      ConfigSchEntryCmdMsg.Enabled Cmd = 1 ->
      SCHTBL_GetEntryIndex W (ConfigSchEntryCmdMsg.Slot Cmd)
        (ConfigSchEntryCmdMsg.Activity Cmd) = Some Index ->
      SchTbl s !! Z.to_nat Index = Some Entry ->
      ~ Offset Entry < Period Entry ->
      SCHEDULER_ConfigSchEntryCmd W Cmd s = Some (false, s))
  /\ (forall Cmd,
      ~ LoadSchEntryCmdMsg.Offset Cmd < LoadSchEntryCmdMsg.Period Cmd ->
      SCHEDULER_LoadSchEntryCmd W Cmd s = Some (false, s))
  /\ (forall Cmd, TableValid s ->
      exists b s',
        SCHEDULER_ConfigSchEntryCmd W Cmd s = Some (b, s') /\ TableValid s')
  /\ (forall Cmd, TableValid s ->
      exists b s',
        SCHEDULER_LoadSchEntryCmd W Cmd s = Some (b, s') /\ TableValid s')
  /\ (forall EntryId NewEntry,
      0 <= EntryId -> (Z.to_nat EntryId < length (SchTbl s))%nat ->
      exists s',
        SCHEDULER_LoadSchTblEntry EntryId NewEntry s = Some (true, s')
        /\ SchTbl s' !! Z.to_nat EntryId = Some NewEntry).
Proof.
  intros [Hvalid Hbool] Hidx. repeat split.
  - intros Cmd Index Entry Hen Hget Hlook Hbad.
    unfold SCHEDULER_ConfigSchEntryCmd. rewrite Hget.
    destruct (CMDMGR_ValidBoolArg W _); [|reflexivity].
    rewrite Hen, Hlook; cbn. now rewrite Hvalid.
  - intros Cmd Hbad. unfold SCHEDULER_LoadSchEntryCmd.
    destruct (SCHTBL_GetEntryIndex W _ _); [|reflexivity].
    now rewrite Hvalid.
  - intros Cmd Hs. unfold SCHEDULER_ConfigSchEntryCmd.
    destruct (SCHTBL_GetEntryIndex W _ _) as [Index|] eqn:Hget; [|eauto].
    destruct (Hidx _ _ _ Hget) as [_ Hlt].
    destruct (lookup_lt_is_Some_2 _ _ Hlt) as [Entry Hlook].
    destruct (CMDMGR_ValidBoolArg W _) eqn:Hb; [|eauto].
    rewrite Hlook; cbn.
    destruct (ConfigSchEntryCmdMsg.Enabled Cmd =? 1) eqn:Hen; cbn.
    + destruct (SCHTBL_ValidEntry W _ _ _ _) eqn:Hv; [|eauto].
      do 2 eexists; split; [reflexivity|].
      apply TableValid_insert; [exact Hs|]. intros _; cbn.
      destruct (Z_lt_dec (Offset Entry) (Period Entry)) as [|Hbad]; [easy|].
      rewrite Hvalid in Hv by exact Hbad. discriminate.
    + do 2 eexists; split; [reflexivity|].
      apply TableValid_insert; [exact Hs|]. cbn.
      apply Z.eqb_neq in Hen.
      destruct (Hbool _ Hb) as [->|?]; [discriminate|lia].
  - intros Cmd Hs. unfold SCHEDULER_LoadSchEntryCmd.
    destruct (SCHTBL_GetEntryIndex W _ _) as [Index|] eqn:Hget; [|eauto].
    destruct (Hidx _ _ _ Hget) as [_ Hlt].
    destruct (lookup_lt_is_Some_2 _ _ Hlt) as [Entry Hlook].
    destruct (SCHTBL_ValidEntry W _ _ _ _) eqn:Hv; [|eauto].
    rewrite Hlook; cbn.
    do 2 eexists; split; [reflexivity|].
    apply TableValid_insert; [exact Hs|]. intros _; cbn.
    destruct (Z_lt_dec (LoadSchEntryCmdMsg.Offset Cmd)
                (LoadSchEntryCmdMsg.Period Cmd)) as [|Hbad]; [easy|].
    rewrite Hvalid in Hv by exact Hbad. discriminate.
  - intros EntryId NewEntry _ Hlt. unfold SCHEDULER_LoadSchTblEntry.
    destruct (lookup_lt_is_Some_2 _ _ Hlt) as [Entry Hlook].
    rewrite Hlook; cbn. eexists; split; [reflexivity|].
    now apply list_lookup_insert_eq.
Qed.

Lemma entry_commands_validate_witness :
  ValidatorsOK example_world
  /\ IndexOK example_world example_state
  /\ SCHEDULER_LoadSchEntryCmd example_world
       {| LoadSchEntryCmdMsg.Slot := 0; LoadSchEntryCmdMsg.Activity := 0;
          LoadSchEntryCmdMsg.Enabled := 1; LoadSchEntryCmdMsg.Period := 1;
          LoadSchEntryCmdMsg.Offset := 5; LoadSchEntryCmdMsg.MsgTblIndex := 3 |}
       example_state = Some (false, example_state).
Proof.
  split; [exact example_validators_ok|].
  split; [exact example_index_ok|].
  apply (entry_commands_validate example_world example_state
           example_validators_ok example_index_ok).
  cbn. lia.
Defined.

(** *** C10: the slot clock *)

(** Within a major frame of [SCHTBL_SLOTS] slot periods the MET slot is a
    slot number: the hypothesis of the next theorem can be met. *)
Lemma GetMETSlotNumber_range (P : Platform) (MicroSeconds : Z) :
  PlatformOK P ->
  0 <= MicroSeconds < SCHTBL_SLOTS P * SCHEDULER_NORMAL_SLOT_PERIOD P ->
  MicroSeconds < 2 ^ 32 ->
  0 <= GetMETSlotNumber P MicroSeconds < SCHTBL_SLOTS P.
Proof.
  intros HP Hus Hfit.
  pose proof (slot_period_pos P HP) as Hper.
  pose proof (slots_lt_u32 P HP) as Hslots.
  unfold GetMETSlotNumber.
  set (p := SCHEDULER_NORMAL_SLOT_PERIOD P) in *.
  set (n := SCHTBL_SLOTS P) in *.
  assert (Hq : 0 <= MicroSeconds / p < n).
  { split; [apply Z.div_pos; lia|apply Z.div_lt_upper_bound; lia]. }
  pose proof (Z.mod_pos_bound MicroSeconds p ltac:(lia)) as Hr.
  pose proof (Z.div_mod MicroSeconds p ltac:(lia)) as Hdm.
  assert (Hmul : MicroSeconds / p * p = MicroSeconds - MicroSeconds mod p) by lia.
  rewrite Hmul.
  rewrite (u32_small (MicroSeconds - MicroSeconds mod p)) by lia.
  replace (MicroSeconds - (MicroSeconds - MicroSeconds mod p))
    with (MicroSeconds mod p) by lia.
  rewrite (u32_small (MicroSeconds mod p)) by lia.
  rewrite (u32_small (MicroSeconds mod p + 1)) by lia.
  assert (Hc : 0 <= (MicroSeconds mod p + 1) / p <= 1).
  { split; [apply Z.div_pos; lia|].
    apply Z.lt_succ_r, Z.div_lt_upper_bound; lia. }
  rewrite u32_small by lia.
  destruct (_ =? n) eqn:E; [lia|]. apply Z.eqb_neq in E. lia.
Qed.

Lemma GetCurrentSlotNumber_bound (P : Platform) (MicroSeconds : Z)
    (s : SCHEDULER_Class) :
  PlatformOK P ->
  0 <= MinorFramesSinceTone s < SCHTBL_SLOTS P ->
  0 <= GetMETSlotNumber P MicroSeconds < SCHTBL_SLOTS P ->
  0 <= LastSyncMETSlot s < SCHTBL_SLOTS P ->
  0 <= GetCurrentSlotNumber P MicroSeconds s < SCHTBL_SLOTS P.
Proof.
  intros HP Hminor Hmet Hlast.
  unfold GetCurrentSlotNumber.
  rewrite (rebase_slot P _ _ HP Hmet Hlast).
  destruct (SyncToMET s =? SCHEDULER_SYNCH_FALSE P); cbn; [exact Hminor|].
  destruct (_ <? _) eqn:E; lia.
Qed.

(** C10: when [MinorFramesSinceTone], the MET slot and [LastSyncMETSlot]
    are slot numbers, GetCurrentSlotNumber returns a slot number: it is
    [MinorFramesSinceTone] when not synchronised to the MET, and otherwise
    the MET slot minus [LastSyncMETSlot], with [SCHTBL_SLOTS] added first
    when the difference would be negative. *)
Theorem GetCurrentSlotNumber_range (P : Platform) (MicroSeconds : Z)
    (s : SCHEDULER_Class) :
  PlatformOK P ->
  0 <= MinorFramesSinceTone s < SCHTBL_SLOTS P ->
  0 <= GetMETSlotNumber P MicroSeconds < SCHTBL_SLOTS P ->
  0 <= LastSyncMETSlot s < SCHTBL_SLOTS P ->
  0 <= GetCurrentSlotNumber P MicroSeconds s < SCHTBL_SLOTS P
  /\ (SyncToMET s = SCHEDULER_SYNCH_FALSE P ->
      GetCurrentSlotNumber P MicroSeconds s = MinorFramesSinceTone s)
  /\ (SyncToMET s <> SCHEDULER_SYNCH_FALSE P ->
      GetCurrentSlotNumber P MicroSeconds s =
        if GetMETSlotNumber P MicroSeconds <? LastSyncMETSlot s
        then GetMETSlotNumber P MicroSeconds + SCHTBL_SLOTS P
             - LastSyncMETSlot s
        else GetMETSlotNumber P MicroSeconds - LastSyncMETSlot s).
Proof.
  intros HP Hminor Hmet Hlast.
  pose proof (slots_lt_u32 P HP) as Hslots.
  unfold GetCurrentSlotNumber.
  set (m := GetMETSlotNumber P MicroSeconds) in *.
  assert (Hsync :
    (if m <? LastSyncMETSlot s
     then u32 (u32 (m + SCHTBL_SLOTS P) - LastSyncMETSlot s)
     else u32 (m - LastSyncMETSlot s))
    = (if m <? LastSyncMETSlot s
       then m + SCHTBL_SLOTS P - LastSyncMETSlot s
       else m - LastSyncMETSlot s)).
  { destruct (m <? LastSyncMETSlot s) eqn:E.
    - apply Z.ltb_lt in E.
      unfold u32.
      replace (wrap 32 (m + SCHTBL_SLOTS P) - LastSyncMETSlot s)
        with (wrap 32 (m + SCHTBL_SLOTS P) + - LastSyncMETSlot s) by lia.
      rewrite wrap_add_l. apply wrap_small. lia.
    - apply Z.ltb_ge in E. apply u32_small. lia. }
  rewrite Hsync.
  destruct (SyncToMET s =? SCHEDULER_SYNCH_FALSE P) eqn:E; cbn.
  - apply Z.eqb_eq in E. split; [lia|]. split; [reflexivity|congruence].
  - apply Z.eqb_neq in E. split; [|split; [congruence|reflexivity]].
    destruct (m <? LastSyncMETSlot s) eqn:E';
      [apply Z.ltb_lt in E'|apply Z.ltb_ge in E']; lia.
Qed.

Lemma GetCurrentSlotNumber_range_witness :
  PlatformOK example_platform
  /\ 0 <= GetMETSlotNumber example_platform 123456 < 100
  /\ 0 <= GetCurrentSlotNumber example_platform 123456
            (set_LastSyncMETSlot 30 (set_SyncToMET 1 example_state)) < 100.
Proof.
  assert (Hmet : GetMETSlotNumber example_platform 123456 = 12) by reflexivity.
  split; [exact example_platform_ok|]. split; [rewrite Hmet; lia|].
  apply (GetCurrentSlotNumber_range example_platform 123456
           (set_LastSyncMETSlot 30 (set_SyncToMET 1 example_state))
           example_platform_ok); rewrite ?Hmet; cbn; lia.
Defined.

(** *** The slot executor *)

Lemma EntriesPost_nil (P : Platform) (W : World) (k : Z) (i : nat)
    (s : SCHEDULER_Class) :
  EntriesPost P W 0 k i s s [].
Proof.
  split; try reflexivity; try (intros; lia).
  - now rewrite app_nil_r.
  - intros ev [].
Qed.

Lemma ProcessEntry_post (P : Platform) (W : World) (k : Z) (i : nat)
    (s : SCHEDULER_Class) (e : SCHTBL_Entry) :
  SchTbl s !! i = Some e ->
  (Enabled e = true -> 0 < Period e) ->
  exists s' evs,
    ProcessEntry P W k i s = Some s' /\ EntriesPost P W 1 k i s s' evs.
Proof.
  intros Hi Hper.
  assert (Hone : forall (d : nat) e0, (d < 1)%nat ->
            SchTbl s !! (i + d)%nat = Some e0 -> d = 0%nat /\ e0 = e).
  { intros d e0 Hd He0. assert (d = 0%nat) as -> by lia.
    rewrite Nat.add_0_r in He0. split; congruence. }
  unfold ProcessEntry. rewrite Hi; cbn.
  destruct (Due (TablePassCount s) e) eqn:Hdue.
  - pose proof Hdue as Hdue'.
    unfold Due in Hdue'. apply andb_true_iff in Hdue' as [Hen Hoff].
    rewrite Hen, Hoff.
    destruct (Period e =? 0) eqn:Hz;
      [apply Z.eqb_eq in Hz; specialize (Hper Hen); lia|].
    set (st := DispatchStatus W (Log s) (MsgTblIndex e)).
    set (ev := EvDispatch (NextSlotNumber s) k (MsgTblIndex e) st).
    destruct (st =? CFE_SUCCESS) eqn:Hst.
    + eexists _, [ev]. split; [reflexivity|].
      split; try reflexivity.
      * intros ev' [<-|[]]. exists 0%nat, e, st, [], [].
        rewrite Nat.add_0_r, Z.add_0_r, app_nil_r, Hst. cbn. auto 10.
      * intros d e0 Hd He0 _. destruct (Hone d e0 Hd He0) as [-> ->].
        exists st. left. unfold ev. now rewrite Z.add_0_r.
      * intros d e0 Hd He0 Hn. destruct (Hone d e0 Hd He0) as [-> ->].
        congruence.
      * cbn. now rewrite Hst.
      * cbn. now rewrite Hst.
    + assert (Hlt : (i < length (SchTbl s))%nat) by (eapply lookup_lt_Some; eauto).
      eexists _, [ev]. split; [reflexivity|].
      split; try reflexivity.
      * cbn. apply length_insert.
      * intros j Hj. cbn. apply list_lookup_insert_ne. lia.
      * intros ev' [<-|[]]. exists 0%nat, e, st, [], [].
        rewrite Nat.add_0_r, Z.add_0_r, app_nil_r, Hst. cbn.
        rewrite list_lookup_insert_eq by exact Hlt. auto 10.
      * intros d e0 Hd He0 _. destruct (Hone d e0 Hd He0) as [-> ->].
        exists st. left. unfold ev. now rewrite Z.add_0_r.
      * intros d e0 Hd He0 Hn. destruct (Hone d e0 Hd He0) as [-> ->].
        congruence.
      * cbn. now rewrite Hst.
      * cbn. now rewrite Hst.
  - exists s, []. split.
    + unfold Due in Hdue. destruct (Enabled e); [|reflexivity].
      cbn in Hdue. rewrite Hdue.
      destruct (Period e =? 0) eqn:Hz; [|reflexivity].
      apply Z.eqb_eq in Hz. specialize (Hper eq_refl). lia.
    + split; try reflexivity.
      * now rewrite app_nil_r.
      * intros ev [].
      * intros d e0 Hd He0 Hn. destruct (Hone d e0 Hd He0) as [-> ->].
        congruence.
      * intros d e0 Hd He0 _. destruct (Hone d e0 Hd He0) as [-> ->].
        now rewrite Nat.add_0_r.
Qed.

Lemma outside_entries_timing (s s' : SCHEDULER_Class) :
  outside_entries s' = outside_entries s ->
  NextSlotNumber s' = NextSlotNumber s /\ TablePassCount s' = TablePassCount s.
Proof.
  intros H. split.
  - exact (f_equal NextSlotNumber H).
  - exact (f_equal TablePassCount H).
Qed.

Lemma EntriesPost_step (P : Platform) (W : World) (n : nat) (k : Z) (i : nat)
    (s s1 s2 : SCHEDULER_Class) (evs1 evs2 : list Event) :
  EntriesPost P W 1 k i s s1 evs1 ->
  EntriesPost P W n (k + 1) (S i) s1 s2 evs2 ->
  EntriesPost P W (S n) k i s s2 (evs1 ++ evs2).
Proof.
  intros H1 H2.
  destruct (outside_entries_timing _ _ (ep_frame _ _ _ _ _ _ _ _ H1)) as [Hnext Htpc].
  assert (Hidx : forall d : nat, (S i + d)%nat = (i + S d)%nat) by lia.
  assert (Hnum : forall d : nat, k + 1 + Z.of_nat d = k + Z.of_nat (S d)) by lia.
  split.
  - rewrite (ep_log _ _ _ _ _ _ _ _ H2), (ep_log _ _ _ _ _ _ _ _ H1).
    now rewrite app_assoc.
  - rewrite (ep_frame _ _ _ _ _ _ _ _ H2). apply (ep_frame _ _ _ _ _ _ _ _ H1).
  - rewrite (ep_length _ _ _ _ _ _ _ _ H2). apply (ep_length _ _ _ _ _ _ _ _ H1).
  - intros j Hj.
    rewrite (ep_outside _ _ _ _ _ _ _ _ H2) by lia.
    apply (ep_outside _ _ _ _ _ _ _ _ H1). lia.
  - intros ev Hin. apply in_app_or in Hin as [Hin|Hin].
    + destruct (ep_events _ _ _ _ _ _ _ _ H1 ev Hin)
        as (d & e & st & pre & post & Hd & Hev & Hsplit & Hst & He & Hdue & Hfin).
      exists d, e, st, pre, (post ++ evs2).
      repeat split; auto; try lia.
      * rewrite Hsplit. now rewrite <- app_assoc.
      * rewrite (ep_outside _ _ _ _ _ _ _ _ H2) by lia. exact Hfin.
    + destruct (ep_events _ _ _ _ _ _ _ _ H2 ev Hin)
        as (d & e & st & pre & post & Hd & Hev & Hsplit & Hst & He & Hdue & Hfin).
      exists (S d), e, st, (evs1 ++ pre), post.
      rewrite <- Hidx, <- Hnum, <- Hnext, <- Htpc.
      repeat split; auto; try lia.
      * rewrite Hsplit. now rewrite <- app_assoc.
      * rewrite Hst, (ep_log _ _ _ _ _ _ _ _ H1). now rewrite app_assoc.
      * rewrite <- (ep_outside _ _ _ _ _ _ _ _ H1) by lia. exact He.
  - intros d e Hd He Hdue. destruct d as [|d].
    + destruct (ep_due _ _ _ _ _ _ _ _ H1 0%nat e ltac:(lia) He Hdue) as [st Hin].
      exists st. apply in_or_app. now left.
    + rewrite <- Hidx in He.
      rewrite <- (ep_outside _ _ _ _ _ _ _ _ H1) in He by lia.
      rewrite <- Htpc in Hdue.
      destruct (ep_due _ _ _ _ _ _ _ _ H2 d e ltac:(lia) He Hdue) as [st Hin].
      exists st. apply in_or_app. right.
      now rewrite <- Hnum, <- Hnext.
  - intros d e Hd He Hdue. destruct d as [|d].
    + rewrite (ep_outside _ _ _ _ _ _ _ _ H2) by lia.
      apply (ep_not_due _ _ _ _ _ _ _ _ H1); auto.
    + rewrite <- Hidx in *.
      rewrite <- (ep_outside _ _ _ _ _ _ _ _ H1) in He by lia.
      rewrite <- Htpc in Hdue.
      apply (ep_not_due _ _ _ _ _ _ _ _ H2); auto. lia.
  - rewrite (ep_failure _ _ _ _ _ _ _ _ H2), (ep_failure _ _ _ _ _ _ _ _ H1).
    rewrite incremented_add. now rewrite List.filter_app, length_app.
  - rewrite (ep_success _ _ _ _ _ _ _ _ H2), (ep_success _ _ _ _ _ _ _ _ H1).
    rewrite incremented_add. now rewrite List.filter_app, length_app.
Qed.

Lemma ProcessEntries_post (P : Platform) (W : World) (n : nat) :
  forall (k : Z) (i : nat) (s : SCHEDULER_Class),
  (forall d : nat, (d < n)%nat ->
     exists e, SchTbl s !! (i + d)%nat = Some e
               /\ (Enabled e = true -> 0 < Period e)) ->
  exists s' evs,
    ProcessEntries P W n k i s = Some s' /\ EntriesPost P W n k i s s' evs.
Proof.
  induction n as [|n IH]; intros k i s Hpre.
  - exists s, []. split; [reflexivity|apply EntriesPost_nil].
  - destruct (Hpre 0%nat ltac:(lia)) as (e & He & Hper).
    rewrite Nat.add_0_r in He.
    destruct (ProcessEntry_post P W k i s e He Hper) as (s1 & evs1 & Hrun1 & H1).
    destruct (IH (k + 1) (S i) s1) as (s2 & evs2 & Hrun2 & H2).
    { intros d Hd. destruct (Hpre (S d) ltac:(lia)) as (e' & He' & Hper').
      exists e'. split; [|exact Hper'].
      rewrite (ep_outside _ _ _ _ _ _ _ _ H1) by lia.
      now replace (S i + d)%nat with (i + S d)%nat by lia. }
    exists s2, (evs1 ++ evs2). split.
    + cbn. rewrite Hrun1. cbn. exact Hrun2.
    + eapply EntriesPost_step; eauto.
Qed.

Lemma EntriesPost_final (P : Platform) (W : World) (n : nat) (k : Z) (i : nat)
    (s s' : SCHEDULER_Class) (evs : list Event) :
  EntriesPost P W n k i s s' evs ->
  forall j e, SchTbl s !! j = Some e ->
    SchTbl s' !! j = Some e \/ SchTbl s' !! j = Some (set_Enabled false e).
Proof.
  intros H j e He.
  destruct (decide (j < i \/ i + n <= j)%nat) as [Hout|Hin].
  - left. now rewrite (ep_outside _ _ _ _ _ _ _ _ H).
  - assert (Hj : j = (i + (j - i))%nat) by lia.
    rewrite Hj in He |- *.
    destruct (Due (TablePassCount s) e) eqn:Hdue.
    + destruct (ep_due _ _ _ _ _ _ _ _ H (j - i)%nat e ltac:(lia) He Hdue)
        as [st Hev].
      destruct (ep_events _ _ _ _ _ _ _ _ H _ Hev)
        as (d & e0 & st0 & pre & post & Hd & Heq & _ & _ & He0 & _ & Hfin).
      injection Heq as Hd' _ _.
      assert (d = (j - i)%nat) as -> by lia.
      assert (e0 = e) as -> by congruence.
      rewrite Hfin. destruct (st0 =? CFE_SUCCESS); auto.
    + left. apply (ep_not_due _ _ _ _ _ _ _ _ H); auto. lia.
Qed.

Lemma EntriesPost_TableOK (P : Platform) (W : World) (n : nat) (k : Z) (i : nat)
    (s s' : SCHEDULER_Class) (evs : list Event) :
  EntriesPost P W n k i s s' evs -> TableOK P s -> TableOK P s'.
Proof.
  intros H [Hlen Hper]. split.
  - now rewrite (ep_length _ _ _ _ _ _ _ _ H).
  - intros j e' He' Hen.
    assert (Hlt : (j < length (SchTbl s))%nat).
    { rewrite <- (ep_length _ _ _ _ _ _ _ _ H). eapply lookup_lt_Some; eauto. }
    destruct (lookup_lt_is_Some_2 _ _ Hlt) as [e He].
    destruct (EntriesPost_final _ _ _ _ _ _ _ _ H j e He) as [Hs|Hs];
      rewrite Hs in He'; injection He' as <-.
    + eauto.
    + discriminate.
Qed.

Lemma ProcessedSlots_app (l1 l2 : list Event) :
  ProcessedSlots (l1 ++ l2) = ProcessedSlots l1 ++ ProcessedSlots l2.
Proof. apply omap_app. Qed.

Lemma ProcessedSlots_dispatches (evs : list Event) :
  (forall ev, In ev evs -> exists a b c d, ev = EvDispatch a b c d) ->
  ProcessedSlots evs = [].
Proof.
  induction evs as [|ev evs IH]; intros H; [reflexivity|].
  destruct (H ev (or_introl eq_refl)) as (a & b & c & d & ->).
  cbn. apply IH. intros ev' Hin. apply H. now right.
Qed.

Lemma EntriesPost_no_slot (P : Platform) (W : World) (n : nat) (k : Z) (i : nat)
    (s s' : SCHEDULER_Class) (evs : list Event) :
  EntriesPost P W n k i s s' evs -> ProcessedSlots evs = [].
Proof.
  intros H. apply ProcessedSlots_dispatches. intros ev Hin.
  destruct (ep_events _ _ _ _ _ _ _ _ H ev Hin)
    as (d & e & st & _ & _ & _ & -> & _).
  eauto.
Qed.

Lemma slot_entries_in_table (P : Platform) (s : SCHEDULER_Class) :
  PlatformOK P -> Inv P s ->
  forall d : nat, (d < Z.to_nat (SCHTBL_ACTIVITIES_PER_SLOT P))%nat ->
  exists e,
    SchTbl s !! (Z.to_nat (NextSlotNumber s * SCHTBL_ACTIVITIES_PER_SLOT P) + d)%nat
      = Some e
    /\ (Enabled e = true -> 0 < Period e).
Proof.
  intros HP [Hnext [Hlen Hper]] d Hd.
  pose proof (activities_nonneg P HP) as Hact.
  assert (Hlt : (Z.to_nat (NextSlotNumber s * SCHTBL_ACTIVITIES_PER_SLOT P) + d
                 < length (SchTbl s))%nat).
  { apply Nat2Z.inj_lt. rewrite Hlen. nia. }
  destruct (lookup_lt_is_Some_2 _ _ Hlt) as [e He].
  exists e. split; [exact He|]. eauto.
Qed.

Lemma ProcessNextSlot_post (P : Platform) (W : World) (s : SCHEDULER_Class) :
  PlatformOK P -> Inv P s ->
  exists s' evs,
    ProcessNextSlot P W s = Some (CFE_SUCCESS, s')
    /\ SlotPost P W s s' evs /\ Inv P s'.
Proof.
  intros HP HI.
  destruct (ProcessEntries_post P W (Z.to_nat (SCHTBL_ACTIVITIES_PER_SLOT P)) 0
              (Z.to_nat (NextSlotNumber s * SCHTBL_ACTIVITIES_PER_SLOT P)) s
              (slot_entries_in_table P s HP HI))
    as (sm & evs & Hrun & Hpost).
  destruct (outside_entries_timing _ _ (ep_frame _ _ _ _ _ _ _ _ Hpost))
    as [Hnext Htpc].
  destruct HI as [Hrange Htable].
  pose proof (slots_fit P HP) as Hfit.
  assert (Hst : store P F_NextSlotNumber (NextSlotNumber s + 1)
                = NextSlotNumber s + 1).
  { apply wrap_small. lia. }
  pose proof (EntriesPost_TableOK _ _ _ _ _ _ _ _ Hpost Htable) as [Hlen Hper].
  pose proof (ep_frame _ _ _ _ _ _ _ _ Hpost) as Hf.
  pose proof (f_equal SlotsProcessedCount Hf) as Hc; cbn in Hc.
  unfold ProcessNextSlot. rewrite Hrun; cbn.
  rewrite Hnext, Htpc, Hst.
  destruct (NextSlotNumber s + 1 =? SCHTBL_SLOTS P) eqn:E;
    (eexists _, evs; split; [reflexivity|]); (split; [split|split]); cbn;
    rewrite ?E, ?Hc; try reflexivity.
  all: try (exists sm; now auto).
  all: try (rewrite (ep_log _ _ _ _ _ _ _ _ Hpost); now rewrite <- app_assoc).
  all: try (split; assumption).
  all: try (change (outside_slot sm = outside_slot s);
            unfold outside_slot; now rewrite Hf).
  all: try (apply Z.eqb_eq in E; rewrite ?E, ?Z.mod_same by lia; lia).
  all: apply Z.eqb_neq in E; rewrite ?Z.mod_small by lia; lia.
Qed.

Lemma slot_sequence_seqZ (P : Platform) (n : nat) :
  forall first, 0 <= first -> first + Z.of_nat n <= SCHTBL_SLOTS P ->
  slot_sequence P first n = seqZ first (Z.of_nat n).
Proof.
  induction n as [|n IH]; intros first H0 Hle; [reflexivity|].
  rewrite seqZ_cons by lia. cbn [slot_sequence]. f_equal.
  destruct n as [|n]; [reflexivity|].
  rewrite Z.mod_small by lia.
  rewrite IH by lia. f_equal; lia.
Qed.

Lemma ProcessSlots_post (P : Platform) (W : World) (n : nat) :
  PlatformOK P ->
  forall s, Inv P s ->
  exists s',
    ProcessSlots P W n CFE_SUCCESS s = Some (CFE_SUCCESS, s')
    /\ Inv P s'
    /\ NextSlotNumber s' = (NextSlotNumber s + Z.of_nat n) mod SCHTBL_SLOTS P
    /\ TablePassCount s'
       = incremented P F_TablePassCount
           (Z.to_nat ((NextSlotNumber s + Z.of_nat n) / SCHTBL_SLOTS P))
           (TablePassCount s)
    /\ SlotsProcessedCount s'
       = incremented P F_SlotsProcessedCount n (SlotsProcessedCount s)
    /\ ProcessedSlots (Log s')
       = ProcessedSlots (Log s) ++ slot_sequence P (NextSlotNumber s) n
    /\ outside_slot s' = outside_slot s.
Proof.
  intros HP. pose proof (slots_pos P HP) as Hpos.
  induction n as [|n IH]; intros s HI.
  - exists s. cbn. destruct HI as [Hr Ht].
    rewrite Z.add_0_r, Z.mod_small, Z.div_small, app_nil_r by lia.
    destruct Ht as [? ?]. repeat split; try assumption; lia.
  - destruct (ProcessNextSlot_post P W s HP HI) as (s1 & evs & Hrun & Hpost & HI1).
    destruct (IH s1 HI1) as (s2 & Hrun2 & HI2 & Hn & Ht & Hc & Hl & Hf).
    destruct HI as [Hr _].
    exists s2. cbn [ProcessSlots]. change (CFE_SUCCESS =? CFE_SUCCESS) with true.
    cbv iota. rewrite Hrun. cbn. rewrite Hrun2.
    split; [reflexivity|]. split; [exact HI2|].
    rewrite Hn, Ht, Hc, Hl, Hf.
    rewrite (sp_next _ _ _ _ _ Hpost), (sp_pass _ _ _ _ _ Hpost),
      (sp_processed _ _ _ _ _ Hpost), (sp_log _ _ _ _ _ Hpost),
      (sp_frame _ _ _ _ _ Hpost).
    destruct (sp_entries _ _ _ _ _ Hpost) as (sm & Hent & _).
    rewrite !ProcessedSlots_app, (EntriesPost_no_slot _ _ _ _ _ _ _ _ Hent).
    cbn [app ProcessedSlots omap]. 
    repeat split.
    + rewrite Zplus_mod_idemp_l. f_equal. lia.
    + destruct (NextSlotNumber s + 1 =? SCHTBL_SLOTS P) eqn:E.
      * apply Z.eqb_eq in E.
        change (store P F_TablePassCount (TablePassCount s + 1))
          with (incremented P F_TablePassCount 1 (TablePassCount s)).
        rewrite incremented_add. f_equal.
        rewrite E, Z.mod_same by lia.
        replace (NextSlotNumber s + Z.of_nat (S n))
          with (Z.of_nat n + 1 * SCHTBL_SLOTS P) by lia.
        rewrite Z.div_add, Z.add_0_l by lia.
        assert (0 <= Z.of_nat n / SCHTBL_SLOTS P) by (apply Z.div_pos; lia).
        lia.
      * apply Z.eqb_neq in E. rewrite Z.mod_small by lia.
        now replace (NextSlotNumber s + 1 + Z.of_nat n)
          with (NextSlotNumber s + Z.of_nat (S n)) by lia.
    + change (store P F_SlotsProcessedCount (SlotsProcessedCount s + 1))
        with (incremented P F_SlotsProcessedCount 1 (SlotsProcessedCount s)).
      now rewrite incremented_add.
    + now rewrite <- app_assoc.
Qed.

Lemma EntryIndex_offset (P : Platform) (s : SCHEDULER_Class) (m : Z) :
  PlatformOK P -> 0 <= NextSlotNumber s -> 0 <= m ->
  EntryIndex P s m
  = (Z.to_nat (NextSlotNumber s * SCHTBL_ACTIVITIES_PER_SLOT P) + Z.to_nat m)%nat.
Proof.
  intros HP Hn Hm. pose proof (activities_nonneg P HP).
  unfold EntryIndex. rewrite Z2Nat.inj_add; [reflexivity|nia|lia].
Qed.

(** *** The dispatches of a slot *)

Lemma incremented_S (P : Platform) (f : Field) (n : nat) (x : Z) :
  incremented P f n (store P f (x + 1)) = incremented P f (S n) x.
Proof.
  unfold incremented. now rewrite Nat.iter_succ_r.
Qed.

(** The loop over the entries of a slot makes the expected dispatches and
    leaves the expected entries. *)
Lemma ProcessEntries_expected (P : Platform) (W : World) (n : nat) :
  forall k i s es,
  length es = n ->
  (forall d, (d < n)%nat -> SchTbl s !! (i + d)%nat = es !! d) ->
  (forall e, In e es -> Enabled e = true -> Period e <> 0) ->
  exists s',
    ProcessEntries P W n k i s = Some s'
    /\ Log s'
       = Log s
         ++ ExpectedDispatches W (TablePassCount s) (NextSlotNumber s) k es
              (Log s)
    /\ (forall d, (d < n)%nat ->
          SchTbl s' !! (i + d)%nat
          = ExpectedEntries W (TablePassCount s) (NextSlotNumber s) k es
              (Log s) !! d)
    /\ (forall j, (j < i \/ i + n <= j)%nat -> SchTbl s' !! j = SchTbl s !! j)
    /\ ScheduleActivityFailureCount s'
       = incremented P F_ScheduleActivityFailureCount
           (length (List.filter is_failure
              (ExpectedDispatches W (TablePassCount s) (NextSlotNumber s) k es
                 (Log s))))
           (ScheduleActivityFailureCount s)
    /\ ScheduleActivitySuccessCount s'
       = incremented P F_ScheduleActivitySuccessCount
           (length (List.filter (fun ev => negb (is_failure ev))
              (ExpectedDispatches W (TablePassCount s) (NextSlotNumber s) k es
                 (Log s))))
           (ScheduleActivitySuccessCount s)
    /\ outside_entries s' = outside_entries s.
Proof.
  induction n as [|n IH]; intros k i s es Hlen Htbl Hper.
  - destruct es; [|discriminate]. exists s. cbn.
    rewrite app_nil_r. repeat split; auto; intros d Hd; lia.
  - destruct es as [|e rest]; [discriminate|]. injection Hlen as Hlen.
    assert (He : SchTbl s !! i = Some e).
    { specialize (Htbl 0%nat ltac:(lia)). now rewrite Nat.add_0_r in Htbl. }
    assert (Hlt : (i < length (SchTbl s))%nat)
      by (eapply lookup_lt_Some; eauto).
    assert (Hrest : forall s1,
              (forall j, j <> i -> SchTbl s1 !! j = SchTbl s !! j) ->
              forall d, (d < n)%nat -> SchTbl s1 !! (S i + d)%nat = rest !! d).
    { intros s1 Hs1 d Hd. rewrite Hs1 by lia.
      replace (S i + d)%nat with (i + S d)%nat by lia.
      now rewrite Htbl by lia. }
    assert (Hper' : forall e0, In e0 rest -> Enabled e0 = true -> Period e0 <> 0)
      by (intros e0 Hin; apply Hper; now right).
    cbn [ProcessEntries ExpectedDispatches ExpectedEntries].
    unfold ProcessEntry. rewrite He. cbn [mbind option_bind].
    unfold Due.
    destruct (Enabled e) eqn:Hen; cbn [andb].
    + destruct (Period e =? 0) eqn:Hp0.
      { exfalso. apply (Hper e); [now left|exact Hen|lia]. }
      destruct (TablePassCount s mod Period e =? Offset e) eqn:Hoff.
      * change (DispatchStatus W (Log s) (MsgTblIndex e))
          with (ExpectedStatus W (Log s) (MsgTblIndex e)).
        set (st := ExpectedStatus W (Log s) (MsgTblIndex e)).
        set (ev := EvDispatch (NextSlotNumber s) k (MsgTblIndex e) st).
        destruct (st =? CFE_SUCCESS) eqn:Hst.
        -- cbn [mbind option_bind].
           match goal with
           | |- context [ProcessEntries P W n (k + 1) (S i) ?x] => set (s1 := x)
           end.
           destruct (IH (k + 1) (S i) s1 rest Hlen
                       (Hrest s1 ltac:(intros; reflexivity)) Hper')
             as (s' & Hrun & Hlog & Hin & Hout & Hf & Hs & Hfr).
           exists s'. split; [exact Hrun|].
           change (TablePassCount s1) with (TablePassCount s) in *.
           change (NextSlotNumber s1) with (NextSlotNumber s) in *.
           change (Log s1) with (Log s ++ [ev]) in *.
           change (SchTbl s1) with (SchTbl s) in *.
           split; [rewrite Hlog, <- app_assoc; reflexivity|].
           split; [|split; [|split; [|split]]].
           ++ intros [|d] Hd.
              ** rewrite Nat.add_0_r, Hout by lia. exact He.
              ** replace (i + S d)%nat with (S i + d)%nat by lia.
                 apply Hin. lia.
           ++ intros j Hj. apply Hout. lia.
           ++ rewrite Hf. cbn [List.filter is_failure ev]. subst ev.
              cbn [is_failure]. rewrite Hst. reflexivity.
           ++ rewrite Hs. cbn [List.filter]. subst ev.
              cbn [is_failure]. rewrite Hst. cbn [negb length].
              subst s1. cbn. apply incremented_S.
           ++ rewrite Hfr. reflexivity.
        -- cbn [mbind option_bind].
           match goal with
           | |- context [ProcessEntries P W n (k + 1) (S i) ?x] => set (s1 := x)
           end.
           destruct (IH (k + 1) (S i) s1 rest Hlen
                       (Hrest s1
                          ltac:(intros j Hj; cbn;
                                now apply list_lookup_insert_ne)) Hper')
             as (s' & Hrun & Hlog & Hin & Hout & Hf & Hs & Hfr).
           exists s'. split; [exact Hrun|].
           change (TablePassCount s1) with (TablePassCount s) in *.
           change (NextSlotNumber s1) with (NextSlotNumber s) in *.
           change (Log s1) with (Log s ++ [ev]) in *.
           split; [rewrite Hlog, <- app_assoc; reflexivity|].
           split; [|split; [|split; [|split]]].
           ++ intros [|d] Hd.
              ** rewrite Nat.add_0_r, Hout by lia. subst s1. cbn.
                 now apply list_lookup_insert_eq.
              ** replace (i + S d)%nat with (S i + d)%nat by lia.
                 apply Hin. lia.
           ++ intros j Hj. rewrite Hout by lia. subst s1. cbn.
              apply list_lookup_insert_ne. lia.
           ++ rewrite Hf. cbn [List.filter]. subst ev.
              cbn [is_failure]. rewrite Hst. cbn [negb length].
              subst s1. cbn. apply incremented_S.
           ++ rewrite Hs. cbn [List.filter]. subst ev.
              cbn [is_failure]. rewrite Hst. reflexivity.
           ++ rewrite Hfr. reflexivity.
      * cbn [mbind option_bind].
        destruct (IH (k + 1) (S i) s rest Hlen
                    (Hrest s ltac:(intros; reflexivity)) Hper')
          as (s' & Hrun & Hlog & Hin & Hout & Hf & Hs & Hfr).
        exists s'. split; [exact Hrun|]. split; [exact Hlog|].
        split; [|split; [|auto]].
        -- intros [|d] Hd.
           ** rewrite Nat.add_0_r, Hout by lia. exact He.
           ** replace (i + S d)%nat with (S i + d)%nat by lia.
              apply Hin. lia.
        -- intros j Hj. apply Hout. lia.
    + cbn [mbind option_bind].
      destruct (IH (k + 1) (S i) s rest Hlen
                  (Hrest s ltac:(intros; reflexivity)) Hper')
        as (s' & Hrun & Hlog & Hin & Hout & Hf & Hs & Hfr).
      exists s'. split; [exact Hrun|]. split; [exact Hlog|].
      split; [|split; [|auto]].
      * intros [|d] Hd.
        -- rewrite Nat.add_0_r, Hout by lia. exact He.
        -- replace (i + S d)%nat with (S i + d)%nat by lia.
           apply Hin. lia.
      * intros j Hj. apply Hout. lia.
Qed.

Lemma ExpectedDispatches_numbers (W : World) (tp slot : Z) :
  forall es k hist ev,
  In ev (ExpectedDispatches W tp slot k es hist) ->
  exists (d : nat) e st,
    es !! d = Some e /\ Due tp e = true
    /\ ev = EvDispatch slot (k + Z.of_nat d) (MsgTblIndex e) st.
Proof.
  induction es as [|e rest IH]; intros k hist ev Hin; [destruct Hin|].
  cbn [ExpectedDispatches] in Hin.
  assert (Hrest : forall hist',
            In ev (ExpectedDispatches W tp slot (k + 1) rest hist') ->
            exists (d : nat) e0 st,
              (e :: rest) !! d = Some e0 /\ Due tp e0 = true
              /\ ev = EvDispatch slot (k + Z.of_nat d) (MsgTblIndex e0) st).
  { intros hist' H. destruct (IH _ _ _ H) as (d & e0 & st & He0 & Hdue & ->).
    exists (S d), e0, st. split; [exact He0|]. split; [exact Hdue|].
    f_equal. lia. }
  destruct (Due tp e) eqn:Hdue; [|eauto].
  destruct Hin as [<-|Hin]; [|eauto].
  exists 0%nat, e. eexists. split; [reflexivity|]. split; [exact Hdue|].
  f_equal. lia.
Qed.

Lemma ExpectedDispatches_range (W : World) (tp slot : Z) (es : list SCHTBL_Entry)
    (k : Z) (hist : list Event) (ev : Event) :
  In ev (ExpectedDispatches W tp slot k es hist) ->
  exists m idx st,
    ev = EvDispatch slot m idx st /\ k <= m < k + Z.of_nat (length es).
Proof.
  intros Hin.
  destruct (ExpectedDispatches_numbers _ _ _ _ _ _ _ Hin)
    as (d & e & st & He & _ & ->).
  apply lookup_lt_Some in He. do 3 eexists. split; [reflexivity|lia].
Qed.

(** The expected dispatches around the entry at position [d]: before it
    those of the earlier entries, after it those of the later ones, and its
    own dispatch in between exactly when it is due. *)
Lemma Expected_at (W : World) (tp slot : Z) :
  forall es k hist (d : nat) e,
  es !! d = Some e ->
  exists pre post,
    ExpectedDispatches W tp slot k es hist
    = pre
      ++ (if Due tp e
          then [EvDispatch slot (k + Z.of_nat d) (MsgTblIndex e)
                  (ExpectedStatus W (hist ++ pre) (MsgTblIndex e))]
          else [])
      ++ post
    /\ (forall ev, In ev pre ->
          exists m idx st,
            ev = EvDispatch slot m idx st /\ k <= m < k + Z.of_nat d)
    /\ (forall ev, In ev post ->
          exists m idx st, ev = EvDispatch slot m idx st /\ k + Z.of_nat d < m)
    /\ ExpectedEntries W tp slot k es hist !! d
       = Some (if Due tp e
               then (if ExpectedStatus W (hist ++ pre) (MsgTblIndex e)
                        =? CFE_SUCCESS
                     then e else set_Enabled false e)
               else e).
Proof.
  induction es as [|e0 rest IH]; intros k hist d e He; [discriminate|].
  destruct d as [|d].
  - injection He as ->. exists [].
    exists (ExpectedDispatches W tp slot (k + 1) rest
              (if Due tp e
               then hist ++ [EvDispatch slot k (MsgTblIndex e)
                               (ExpectedStatus W hist (MsgTblIndex e))]
               else hist)).
    cbn [ExpectedDispatches ExpectedEntries app]. rewrite app_nil_r, Z.add_0_r.
    split; [destruct (Due tp e); reflexivity|].
    split; [intros ev []|].
    split; [|destruct (Due tp e); reflexivity].
    intros ev Hin.
    destruct (ExpectedDispatches_range _ _ _ _ _ _ _ Hin)
      as (m & idx & st & -> & Hm).
    do 3 eexists. split; [reflexivity|lia].
  - cbn [lookup list_lookup] in He.
    cbn [ExpectedDispatches ExpectedEntries].
    destruct (Due tp e0) eqn:Hdue0.
    + set (ev0 := EvDispatch slot k (MsgTblIndex e0)
                    (ExpectedStatus W hist (MsgTblIndex e0))).
      destruct (IH (k + 1) (hist ++ [ev0]) d e He)
        as (pre & post & Heq & Hpre & Hpost & Hent).
      exists (ev0 :: pre), post.
      replace (hist ++ ev0 :: pre) with ((hist ++ [ev0]) ++ pre)
        by (now rewrite <- app_assoc).
      replace (k + Z.of_nat (S d)) with (k + 1 + Z.of_nat d) by lia.
      split; [cbn [app]; now rewrite Heq|].
      split; [|split; [|exact Hent]].
      * intros ev [<-|Hin].
        -- do 3 eexists. split; [reflexivity|lia].
        -- destruct (Hpre _ Hin) as (m & idx & st & -> & Hm).
           do 3 eexists. split; [reflexivity|lia].
      * intros ev Hin. destruct (Hpost _ Hin) as (m & idx & st & -> & Hm).
        do 3 eexists. split; [reflexivity|lia].
    + destruct (IH (k + 1) hist d e He)
        as (pre & post & Heq & Hpre & Hpost & Hent).
      exists pre, post.
      replace (k + Z.of_nat (S d)) with (k + 1 + Z.of_nat d) by lia.
      split; [exact Heq|]. split; [|split; [|exact Hent]].
      * intros ev Hin. destruct (Hpre _ Hin) as (m & idx & st & -> & Hm).
        do 3 eexists. split; [reflexivity|lia].
      * intros ev Hin. destruct (Hpost _ Hin) as (m & idx & st & -> & Hm).
        do 3 eexists. split; [reflexivity|lia].
Qed.

Lemma SlotEntries_lookup (P : Platform) (s : SCHEDULER_Class) (d : nat) :
  (d < Z.to_nat (SCHTBL_ACTIVITIES_PER_SLOT P))%nat ->
  SlotEntries P s !! d
  = SchTbl s
      !! (Z.to_nat (NextSlotNumber s * SCHTBL_ACTIVITIES_PER_SLOT P) + d)%nat.
Proof.
  intros Hd. unfold SlotEntries.
  rewrite lookup_take_lt by exact Hd. apply lookup_drop.
Qed.

Lemma SlotEntries_length (P : Platform) (s : SCHEDULER_Class) :
  PlatformOK P -> Inv P s ->
  length (SlotEntries P s) = Z.to_nat (SCHTBL_ACTIVITIES_PER_SLOT P).
Proof.
  intros HP [Hnext [Hlen _]]. pose proof (activities_nonneg P HP) as Hact.
  unfold SlotEntries. rewrite length_take, length_drop.
  apply Nat.min_l. apply Nat2Z.inj_le.
  rewrite Nat2Z.inj_sub.
  - rewrite Hlen. nia.
  - apply Nat2Z.inj_le. rewrite Hlen. nia.
Qed.

(** ProcessNextSlot makes the expected dispatches of the slot, leaves the
    expected entries, and counts the failed and the successful dispatches. *)
Lemma ProcessNextSlot_expected (P : Platform) (W : World)
    (s : SCHEDULER_Class) :
  PlatformOK P -> Inv P s ->
  exists s',
    ProcessNextSlot P W s = Some (CFE_SUCCESS, s')
    /\ Log s'
       = Log s
         ++ ExpectedDispatches W (TablePassCount s) (NextSlotNumber s) 0
              (SlotEntries P s) (Log s)
         ++ [EvSlot (NextSlotNumber s)]
    /\ (forall d, (d < Z.to_nat (SCHTBL_ACTIVITIES_PER_SLOT P))%nat ->
          SchTbl s'
            !! (Z.to_nat (NextSlotNumber s * SCHTBL_ACTIVITIES_PER_SLOT P) + d)%nat
          = ExpectedEntries W (TablePassCount s) (NextSlotNumber s) 0
              (SlotEntries P s) (Log s) !! d)
    /\ (forall j,
          (j < Z.to_nat (NextSlotNumber s * SCHTBL_ACTIVITIES_PER_SLOT P)
           \/ Z.to_nat (NextSlotNumber s * SCHTBL_ACTIVITIES_PER_SLOT P)
              + Z.to_nat (SCHTBL_ACTIVITIES_PER_SLOT P) <= j)%nat ->
          SchTbl s' !! j = SchTbl s !! j)
    /\ ScheduleActivityFailureCount s'
       = incremented P F_ScheduleActivityFailureCount
           (length (List.filter is_failure
              (ExpectedDispatches W (TablePassCount s) (NextSlotNumber s) 0
                 (SlotEntries P s) (Log s))))
           (ScheduleActivityFailureCount s)
    /\ ScheduleActivitySuccessCount s'
       = incremented P F_ScheduleActivitySuccessCount
           (length (List.filter (fun ev => negb (is_failure ev))
              (ExpectedDispatches W (TablePassCount s) (NextSlotNumber s) 0
                 (SlotEntries P s) (Log s))))
           (ScheduleActivitySuccessCount s).
Proof.
  intros HP HI.
  destruct (ProcessEntries_expected P W
              (Z.to_nat (SCHTBL_ACTIVITIES_PER_SLOT P)) 0
              (Z.to_nat (NextSlotNumber s * SCHTBL_ACTIVITIES_PER_SLOT P)) s
              (SlotEntries P s) (SlotEntries_length P s HP HI))
    as (sm & Hrun & Hlog & Hin & Hout & Hf & Hs & Hfr).
  - intros d Hd. symmetry. now apply SlotEntries_lookup.
  - intros e He Hen. destruct HI as [_ [_ Hper]].
    apply list_elem_of_In, list_elem_of_lookup in He as [d He].
    assert (Hd : (d < Z.to_nat (SCHTBL_ACTIVITIES_PER_SLOT P))%nat).
    { apply lookup_lt_Some in He. unfold SlotEntries in He.
      rewrite length_take in He. lia. }
    rewrite SlotEntries_lookup in He by exact Hd.
    specialize (Hper _ _ He Hen). lia.
  - destruct (outside_entries_timing _ _ Hfr) as [Hnext Htpc].
    unfold ProcessNextSlot. rewrite Hrun. cbn [mbind option_bind].
    eexists. split; [reflexivity|].
    repeat case_if; cbn; rewrite ?Hnext, ?Hlog, <- ?app_assoc; auto 10.
Qed.

(** Entry number [m] of the slot among the expected dispatches and the
    expected entries. *)
Lemma Expected_entry (P : Platform) (W : World) (s : SCHEDULER_Class) (m : Z)
    (e : SCHTBL_Entry) :
  PlatformOK P -> Inv P s ->
  0 <= m < SCHTBL_ACTIVITIES_PER_SLOT P ->
  SchTbl s !! EntryIndex P s m = Some e ->
  exists pre post,
    ExpectedDispatches W (TablePassCount s) (NextSlotNumber s) 0
      (SlotEntries P s) (Log s)
    = pre
      ++ (if Due (TablePassCount s) e
          then [EvDispatch (NextSlotNumber s) m (MsgTblIndex e)
                  (ExpectedStatus W (Log s ++ pre) (MsgTblIndex e))]
          else [])
      ++ post
    /\ (forall idx st, ~ In (EvDispatch (NextSlotNumber s) m idx st) pre)
    /\ (forall idx st, ~ In (EvDispatch (NextSlotNumber s) m idx st) post)
    /\ ExpectedEntries W (TablePassCount s) (NextSlotNumber s) 0
         (SlotEntries P s) (Log s) !! Z.to_nat m
       = Some (if Due (TablePassCount s) e
               then (if ExpectedStatus W (Log s ++ pre) (MsgTblIndex e)
                        =? CFE_SUCCESS
                     then e else set_Enabled false e)
               else e).
Proof.
  intros HP HI Hm He. pose proof HI as [[Hn0 _] _].
  rewrite (EntryIndex_offset P s m HP) in He by lia.
  rewrite <- SlotEntries_lookup in He by lia.
  destruct (Expected_at W (TablePassCount s) (NextSlotNumber s)
              (SlotEntries P s) 0 (Log s) (Z.to_nat m) e He)
    as (pre & post & Heq & Hpre & Hpost & Hent).
  replace (0 + Z.of_nat (Z.to_nat m)) with m in * by lia.
  exists pre, post. split; [exact Heq|]. split; [|split; [|exact Hent]].
  - intros idx st Hin. destruct (Hpre _ Hin) as (m' & ? & ? & [= <- _ _] & ?).
    lia.
  - intros idx st Hin. destruct (Hpost _ Hin) as (m' & ? & ? & [= <- _ _] & ?).
    lia.
Qed.

(** Every expected dispatch of the slot is the dispatch of a due entry of
    the slot. *)
Lemma Expected_event (P : Platform) (W : World) (s : SCHEDULER_Class)
    (ev : Event) :
  PlatformOK P -> Inv P s ->
  In ev (ExpectedDispatches W (TablePassCount s) (NextSlotNumber s) 0
           (SlotEntries P s) (Log s)) ->
  exists m e st,
    ev = EvDispatch (NextSlotNumber s) m (MsgTblIndex e) st
    /\ 0 <= m < SCHTBL_ACTIVITIES_PER_SLOT P
    /\ SchTbl s !! EntryIndex P s m = Some e
    /\ Due (TablePassCount s) e = true.
Proof.
  intros HP HI Hin. pose proof HI as [[Hn0 _] _].
  destruct (ExpectedDispatches_numbers _ _ _ _ _ _ _ Hin)
    as (d & e & st & He & Hdue & ->).
  assert (Hd : (d < Z.to_nat (SCHTBL_ACTIVITIES_PER_SLOT P))%nat).
  { apply lookup_lt_Some in He.
    now rewrite (SlotEntries_length P s HP HI) in He. }
  exists (Z.of_nat d), e, st. rewrite Z.add_0_l.
  split; [reflexivity|]. split; [lia|]. split; [|exact Hdue].
  rewrite (EntryIndex_offset P s _ HP), Nat2Z.id by lia.
  now rewrite <- SlotEntries_lookup by exact Hd.
Qed.

(** *** C6: which entries are dispatched *)

(** C6: when ProcessNextSlot processes a slot, the dispatches it makes are
    exactly those the spec asks for: one for each entry of the slot that is
    enabled and has [TablePassCount mod Period = Offset], in the order of
    the entries, each with the message index of its entry and with the
    status that the lookup of this message and its transmission on the
    software bus give.  So an entry of the slot is dispatched if and only
    if it is enabled and [TablePassCount mod Period = Offset], it is then
    dispatched once, a disabled entry is never dispatched, and an enabled
    entry with Period 4 and Offset 1 is dispatched exactly on the passes
    with [TablePassCount mod 4 = 1]. *)
Theorem ProcessNextSlot_dispatches_due_entries (P : Platform) (W : World)
    (s : SCHEDULER_Class) :
  PlatformOK P -> Inv P s ->
  exists s' evs,
    ProcessNextSlot P W s = Some (CFE_SUCCESS, s')
    /\ Log s' = Log s ++ evs ++ [EvSlot (NextSlotNumber s)]
    /\ evs = ExpectedDispatches W (TablePassCount s) (NextSlotNumber s) 0
               (SlotEntries P s) (Log s)
    /\ (forall ev, In ev evs ->
          exists m e st,
            ev = EvDispatch (NextSlotNumber s) m (MsgTblIndex e) st
            /\ 0 <= m < SCHTBL_ACTIVITIES_PER_SLOT P
            /\ SchTbl s !! EntryIndex P s m = Some e)
    /\ (forall m e,
          0 <= m < SCHTBL_ACTIVITIES_PER_SLOT P ->
          SchTbl s !! EntryIndex P s m = Some e ->
          (Enabled e = true /\ TablePassCount s mod Period e = Offset e ->
           exists pre post,
             evs = pre
                   ++ EvDispatch (NextSlotNumber s) m (MsgTblIndex e)
                        (if MSGTBL_GetMsgPtr W (MsgTblIndex e)
                         then CFE_SB_TransmitMsg W (Log s ++ pre)
                                (MsgTblIndex e)
                         else CFE_SB_NO_MESSAGE)
                      :: post
             /\ (forall idx st,
                   ~ In (EvDispatch (NextSlotNumber s) m idx st) pre)
             /\ (forall idx st,
                   ~ In (EvDispatch (NextSlotNumber s) m idx st) post))
          /\ ((exists idx st, In (EvDispatch (NextSlotNumber s) m idx st) evs)
              <-> Enabled e = true /\ TablePassCount s mod Period e = Offset e)
          /\ (Enabled e = false ->
              forall idx st, ~ In (EvDispatch (NextSlotNumber s) m idx st) evs)
          /\ (Enabled e = true -> Period e = 4 -> Offset e = 1 ->
              ((exists idx st, In (EvDispatch (NextSlotNumber s) m idx st) evs)
               <-> TablePassCount s mod 4 = 1))).
Proof.
  intros HP HI.
  destruct (ProcessNextSlot_expected P W s HP HI) as (s' & Hrun & Hlog & _).
  exists s'. eexists. split; [exact Hrun|]. split; [exact Hlog|].
  split; [reflexivity|].
  set (evs := ExpectedDispatches W (TablePassCount s) (NextSlotNumber s) 0
                (SlotEntries P s) (Log s)).
  assert (Hdue : forall e,
            Due (TablePassCount s) e = true
            <-> Enabled e = true /\ TablePassCount s mod Period e = Offset e).
  { intros e. unfold Due. rewrite andb_true_iff, Z.eqb_eq. tauto. }
  assert (Hiff : forall m e,
          0 <= m < SCHTBL_ACTIVITIES_PER_SLOT P ->
          SchTbl s !! EntryIndex P s m = Some e ->
          ((exists idx st, In (EvDispatch (NextSlotNumber s) m idx st) evs)
           <-> Enabled e = true /\ TablePassCount s mod Period e = Offset e)).
  { intros m e Hm He. rewrite <- Hdue. split.
    - intros (idx & st & Hin).
      destruct (Expected_event P W s _ HP HI Hin)
        as (m' & e' & st' & [= <- _ _] & _ & He' & Hd).
      congruence.
    - intros Hd.
      destruct (Expected_entry P W s m e HP HI Hm He)
        as (pre & post & Heq & _).
      rewrite Hd in Heq. do 2 eexists. fold evs in Heq. rewrite Heq.
      apply in_or_app. right. left. reflexivity. }
  split.
  - intros ev Hin.
    destruct (Expected_event P W s ev HP HI Hin) as (m & e & st & ? & ? & ? & _).
    eauto 10.
  - intros m e Hm He. pose proof (Hiff m e Hm He) as H.
    split; [|split; [exact H|split]].
    + intros Hd. apply Hdue in Hd.
      destruct (Expected_entry P W s m e HP HI Hm He)
        as (pre & post & Heq & Hpre & Hpost & _).
      rewrite Hd in Heq. exists pre, post. split; [exact Heq|].
      split; assumption.
    + intros Hdis idx st Hin.
      destruct (proj1 H (ex_intro _ idx (ex_intro _ st Hin))) as [Hen _].
      congruence.
    + intros Hen Hp Ho. rewrite Hp, Ho in H. tauto.
Qed.

Lemma ProcessNextSlot_dispatches_due_entries_witness :
  PlatformOK example_platform
  /\ Inv example_platform example_state_slot1
  /\ exists s',
      ProcessNextSlot example_platform example_world example_state_slot1
        = Some (CFE_SUCCESS, s')
      /\ Log s'
         = [EvDispatch 1 0 7 (-1); EvDispatch 1 1 250 CFE_SB_NO_MESSAGE;
            EvDispatch 1 2 5 CFE_SUCCESS; EvSlot 1].
Proof.
  split; [exact example_platform_ok|]. split; [exact example_inv_slot1|].
  destruct (ProcessNextSlot_dispatches_due_entries example_platform
              example_world example_state_slot1 example_platform_ok
              example_inv_slot1)
    as (s' & evs & Hrun & Hlog & Hevs & _).
  exists s'. split; [exact Hrun|].
  rewrite Hlog, Hevs. vm_compute. reflexivity.
Defined.

(** Twenty passes over slot 0: the activity with Period 4 and Offset 1 is
    dispatched on the passes 1, 5, 9, 13 and 17. *)
Example slot0_twenty_passes :
  map slot0_dispatched (seqZ 0 20)
  = [false; true; false; false; false; true; false; false; false; true;
     false; false; false; true; false; false; false; true; false; false].
Proof. vm_compute. reflexivity. Qed.

(** *** The wakeup reconciler *)

Lemma NoisyMessage_eq (s : SCHEDULER_Class) :
  exists b, NoisyMessage s = set_SendNoisyMajorFrameMsg b s.
Proof.
  unfold NoisyMessage.
  destruct (IgnoreMajorFrame s); [destruct (SendNoisyMajorFrameMsg s) eqn:E|];
    eauto.
  exists false. destruct s; cbn in *. now subst.
Qed.

Lemma GetCurrentSlotNumber_NoisyMessage (P : Platform) (us : Z)
    (s : SCHEDULER_Class) :
  GetCurrentSlotNumber P us (NoisyMessage s) = GetCurrentSlotNumber P us s.
Proof. destruct (NoisyMessage_eq s) as [b ->]. reflexivity. Qed.

Lemma Inv_NoisyMessage (P : Platform) (s : SCHEDULER_Class) :
  Inv P s -> Inv P (NoisyMessage s).
Proof. destruct (NoisyMessage_eq s) as [b ->]. exact id. Qed.

Lemma InitialProcessCount_NoisyMessage (P : Platform) (cur : Z)
    (s : SCHEDULER_Class) :
  InitialProcessCount P cur (NoisyMessage s) = InitialProcessCount P cur s.
Proof. destruct (NoisyMessage_eq s) as [b ->]. reflexivity. Qed.

(** The reconciler leaves the table, the history and the major frame flags
    alone; [NextSlotNumber] stays or becomes the current slot. *)
Lemma Reconcile_frame (P : Platform) (cur : Z) (s : SCHEDULER_Class) :
  let s' := snd (Reconcile P cur s) in
  SchTbl s' = SchTbl s /\ Log s' = Log s
  /\ IgnoreMajorFrame s' = IgnoreMajorFrame s
  /\ (NextSlotNumber s' = NextSlotNumber s
      \/ NextSlotNumber s' = store P F_NextSlotNumber cur).
Proof.
  unfold Reconcile, JitterCorrection, SameSlot, LagLimit, MultipleSlots.
  repeat case_if; cbn; auto.
Qed.

Lemma Reconcile_clock (P : Platform) (cur : Z) (s : SCHEDULER_Class) :
  let s' := snd (Reconcile P cur s) in
  MinorFramesSinceTone s' = MinorFramesSinceTone s
  /\ LastSyncMETSlot s' = LastSyncMETSlot s.
Proof.
  unfold Reconcile, JitterCorrection, SameSlot, LagLimit, MultipleSlots.
  repeat case_if; cbn; auto.
Qed.

Lemma Reconcile_Inv (P : Platform) (cur : Z) (s : SCHEDULER_Class) :
  PlatformOK P -> Inv P s -> 0 <= cur < SCHTBL_SLOTS P ->
  Inv P (snd (Reconcile P cur s)).
Proof.
  intros HP [Hn [Hlen Hper]] Hcur.
  destruct (Reconcile_frame P cur s) as (Ht & _ & _ & Hnext).
  pose proof (slots_fit P HP).
  split; [|split; rewrite Ht; assumption].
  destruct Hnext as [->| ->]; [exact Hn|].
  unfold store. rewrite wrap_small; lia.
Qed.

Lemma InitialProcessCount_exact (P : Platform) (cur : Z) (s : SCHEDULER_Class) :
  PlatformOK P ->
  0 <= NextSlotNumber s < SCHTBL_SLOTS P -> 0 <= cur < SCHTBL_SLOTS P ->
  InitialProcessCount P cur s
  = if cur >=? NextSlotNumber s then cur - NextSlotNumber s + 1
    else SCHTBL_SLOTS P - NextSlotNumber s + cur + 1.
Proof.
  intros HP Hn Hc. pose proof (slots_lt_u32 P HP).
  unfold InitialProcessCount.
  destruct (cur <? NextSlotNumber s) eqn:E, (cur >=? NextSlotNumber s) eqn:E';
    try lia; rewrite !u32_small; rewrite ?u32_small; lia.
Qed.

Lemma Execute_total (P : Platform) (W : World) (us : Z) (s : SCHEDULER_Class) :
  PlatformOK P -> Inv P s ->
  0 <= GetCurrentSlotNumber P us s < SCHTBL_SLOTS P ->
  exists s', SCHEDULER_Execute P W OS_SUCCESS us s = Some (true, s') /\ Inv P s'.
Proof.
  intros HP HI Hcur.
  unfold SCHEDULER_Execute. change (OS_SUCCESS =? OS_SUCCESS) with true. cbv iota.
  rewrite GetCurrentSlotNumber_NoisyMessage.
  pose proof (Reconcile_Inv P (GetCurrentSlotNumber P us s) (NoisyMessage s) HP
                (Inv_NoisyMessage P s HI) Hcur) as HIr.
  destruct (Reconcile P _ (NoisyMessage s)) as [pc sr]. cbn [snd] in HIr.
  destruct (ProcessSlots_post P W (Z.to_nat pc) HP sr HIr)
    as (s' & Hrun & HI' & _).
  change OS_SUCCESS with CFE_SUCCESS. rewrite Hrun. cbn. eauto.
Qed.

(** A wakeup whose semaphore is taken: the reconciler gives [pc] and [sr],
    then [pc] slots are processed. *)
Lemma Execute_post (P : Platform) (W : World) (us : Z) (s : SCHEDULER_Class)
    (pc : Z) (sr : SCHEDULER_Class) :
  PlatformOK P -> Inv P s ->
  0 <= GetCurrentSlotNumber P us s < SCHTBL_SLOTS P ->
  Reconcile P (GetCurrentSlotNumber P us s) (NoisyMessage s) = (pc, sr) ->
  exists s',
    SCHEDULER_Execute P W OS_SUCCESS us s = Some (true, s')
    /\ Inv P s'
    /\ NextSlotNumber s'
       = (NextSlotNumber sr + Z.of_nat (Z.to_nat pc)) mod SCHTBL_SLOTS P
    /\ TablePassCount s'
       = incremented P F_TablePassCount
           (Z.to_nat ((NextSlotNumber sr + Z.of_nat (Z.to_nat pc))
                      / SCHTBL_SLOTS P))
           (TablePassCount sr)
    /\ ProcessedSlots (Log s')
       = ProcessedSlots (Log s)
         ++ slot_sequence P (NextSlotNumber sr) (Z.to_nat pc)
    /\ outside_slot s' = outside_slot sr.
Proof.
  intros HP HI Hcur Hrec.
  pose proof (Reconcile_Inv P (GetCurrentSlotNumber P us s) (NoisyMessage s) HP
                (Inv_NoisyMessage P s HI) Hcur) as HIr.
  destruct (Reconcile_frame P (GetCurrentSlotNumber P us s) (NoisyMessage s))
    as (_ & Hlog & _).
  rewrite Hrec in HIr, Hlog. cbn [snd] in HIr, Hlog.
  destruct (ProcessSlots_post P W (Z.to_nat pc) HP sr HIr)
    as (s' & Hrun & HI' & Hn & Ht & _ & Hl & Hf).
  exists s'. unfold SCHEDULER_Execute.
  change (OS_SUCCESS =? OS_SUCCESS) with true. cbv iota.
  rewrite GetCurrentSlotNumber_NoisyMessage, Hrec.
  change OS_SUCCESS with CFE_SUCCESS. rewrite Hrun. cbn.
  rewrite Hl, Hlog.
  destruct (NoisyMessage_eq s) as [b ->]. cbn.
  auto 10.
Qed.

(** *** The corrections of the reconciler, one by one *)

Lemma slot_sequence_length (P : Platform) (n : nat) :
  forall first, length (slot_sequence P first n) = n.
Proof. induction n as [|n IH]; intros first; cbn; [reflexivity|now rewrite IH]. Qed.

Lemma JitterCorrection_same (P : Platform) (s : SCHEDULER_Class) :
  LastProcessCount s = SCHTBL_SLOTS P ->
  JitterCorrection P (SCHTBL_SLOTS P) s
  = (SCHTBL_SLOTS P,
     set_LastProcessCount (store P F_LastProcessCount (SCHTBL_SLOTS P)) s).
Proof.
  intros Hlast. unfold JitterCorrection. rewrite Hlast, Z.eqb_refl.
  destruct (SCHTBL_SLOTS P =? 2) eqn:E; [|reflexivity].
  apply Z.eqb_eq in E. rewrite E. reflexivity.
Qed.

Lemma JitterCorrection_early (P : Platform) (s : SCHEDULER_Class) :
  LastProcessCount s <> SCHTBL_SLOTS P -> SCHTBL_SLOTS P <> 2 ->
  JitterCorrection P (SCHTBL_SLOTS P) s
  = (1, set_LastProcessCount (store P F_LastProcessCount (SCHTBL_SLOTS P)) s).
Proof.
  intros Hlast H2. unfold JitterCorrection. rewrite Z.eqb_refl.
  destruct (SCHTBL_SLOTS P =? 2) eqn:E; [lia|].
  destruct (LastProcessCount s =? SCHTBL_SLOTS P) eqn:E'; [lia|reflexivity].
Qed.

Lemma JitterCorrection_plain (P : Platform) (pc : Z) (s : SCHEDULER_Class) :
  pc <> 2 -> pc <> SCHTBL_SLOTS P ->
  JitterCorrection P pc s
  = (pc, set_LastProcessCount (store P F_LastProcessCount pc) s).
Proof.
  intros H2 Hs. unfold JitterCorrection.
  destruct (pc =? 2) eqn:E; [lia|].
  destruct (pc =? SCHTBL_SLOTS P) eqn:E'; [lia|reflexivity].
Qed.

Lemma SameSlot_other (P : Platform) (pc : Z) (s : SCHEDULER_Class) :
  pc <> SCHTBL_SLOTS P -> SameSlot P pc s = (pc, s).
Proof.
  intros H. unfold SameSlot.
  destruct (pc =? SCHTBL_SLOTS P) eqn:E; [lia|reflexivity].
Qed.

Lemma LagLimit_within (P : Platform) (cur pc : Z) (s : SCHEDULER_Class) :
  pc <= SCHEDULER_MAX_LAG_COUNT P -> LagLimit P cur pc s = (pc, s).
Proof.
  intros H. unfold LagLimit.
  destruct (pc >? SCHEDULER_MAX_LAG_COUNT P) eqn:E; [lia|reflexivity].
Qed.

Lemma SlotsPerWakeup_within (P : Platform) (pc : Z) :
  pc <= SCHEDULER_MAX_SLOTS_PER_WAKEUP P -> SlotsPerWakeup P pc = pc.
Proof.
  intros H. unfold SlotsPerWakeup.
  destruct (pc >? SCHEDULER_MAX_SLOTS_PER_WAKEUP P) eqn:E; [lia|reflexivity].
Qed.

Lemma MultipleSlots_single (P : Platform) (pc : Z) (s : SCHEDULER_Class) :
  pc <= 1 -> MultipleSlots P pc s = s.
Proof.
  intros H. unfold MultipleSlots. destruct (pc >? 1) eqn:E; [lia|reflexivity].
Qed.

Lemma JitterCorrection_kept (P : Platform) (pc : Z) (s : SCHEDULER_Class) :
  pc <> SCHTBL_SLOTS P -> (pc = 2 -> LastProcessCount s <> 1) ->
  JitterCorrection P pc s
  = (pc, set_LastProcessCount (store P F_LastProcessCount pc) s).
Proof.
  intros Hs H2. unfold JitterCorrection.
  destruct (pc =? 2) eqn:E.
  - assert (pc = 2) as -> by lia.
    destruct (LastProcessCount s =? 1) eqn:E'; [|reflexivity].
    specialize (H2 eq_refl). lia.
  - destruct (pc =? SCHTBL_SLOTS P) eqn:E'; [lia|reflexivity].
Qed.

Lemma SlotsPerWakeup_capped (P : Platform) (pc : Z) :
  SCHEDULER_MAX_SLOTS_PER_WAKEUP P < pc ->
  SlotsPerWakeup P pc = SCHEDULER_MAX_SLOTS_PER_WAKEUP P.
Proof.
  intros H. unfold SlotsPerWakeup.
  destruct (pc >? SCHEDULER_MAX_SLOTS_PER_WAKEUP P) eqn:E; [reflexivity|lia].
Qed.

(** The reconciler starts from the integer value of the slot count. *)
Lemma Reconcile_from_count (P : Platform) (cur : Z) (s : SCHEDULER_Class) :
  PlatformOK P ->
  0 <= NextSlotNumber s < SCHTBL_SLOTS P -> 0 <= cur < SCHTBL_SLOTS P ->
  Reconcile P cur s
  = (let '(pc1, s1) :=
       JitterCorrection P
         (if cur >=? NextSlotNumber s then cur - NextSlotNumber s + 1
          else SCHTBL_SLOTS P - NextSlotNumber s + cur + 1) s in
     let '(pc2, s2) := SameSlot P pc1 s1 in
     let '(pc3, s3) := LagLimit P cur pc2 s2 in
     (SlotsPerWakeup P pc3, MultipleSlots P (SlotsPerWakeup P pc3) s3)).
Proof.
  intros HP Hn Hc. unfold Reconcile.
  now rewrite (InitialProcessCount_exact P cur s HP Hn Hc).
Qed.

(** *** C7: a failed dispatch *)

(** C7: every entry of the slot that is due is dispatched, and when its
    dispatch fails (the message lookup misses or the transmission returns an
    error status) the entry has [Enabled] false after the slot, its other
    fields unchanged; an entry whose dispatch succeeds, an entry that is not
    due and every entry outside the slot is unchanged; the failure counter
    is incremented once per failed dispatch and the success counter once per
    successful one; ProcessNextSlot still completes the slot with
    CFE_SUCCESS and SCHEDULER_Execute still returns true. *)
Theorem dispatch_failure_disables_entry (P : Platform) (W : World)
    (s : SCHEDULER_Class) :
  PlatformOK P -> Inv P s ->
  (exists s' evs,
    ProcessNextSlot P W s = Some (CFE_SUCCESS, s')
    /\ Log s' = Log s ++ evs ++ [EvSlot (NextSlotNumber s)]
    /\ evs = ExpectedDispatches W (TablePassCount s) (NextSlotNumber s) 0
               (SlotEntries P s) (Log s)
    /\ (forall m e,
          0 <= m < SCHTBL_ACTIVITIES_PER_SLOT P ->
          SchTbl s !! EntryIndex P s m = Some e ->
          (Due (TablePassCount s) e = true ->
           exists pre post st,
             evs = pre ++ EvDispatch (NextSlotNumber s) m (MsgTblIndex e) st
                          :: post
             /\ st = (if MSGTBL_GetMsgPtr W (MsgTblIndex e)
                      then CFE_SB_TransmitMsg W (Log s ++ pre) (MsgTblIndex e)
                      else CFE_SB_NO_MESSAGE)
             /\ SchTbl s' !! EntryIndex P s m
                = Some (if st =? CFE_SUCCESS then e else set_Enabled false e))
          /\ (Due (TablePassCount s) e = true ->
              MSGTBL_GetMsgPtr W (MsgTblIndex e) = false ->
              SchTbl s' !! EntryIndex P s m = Some (set_Enabled false e))
          /\ (Due (TablePassCount s) e = true ->
              (forall hist,
                  CFE_SB_TransmitMsg W hist (MsgTblIndex e) <> CFE_SUCCESS) ->
              SchTbl s' !! EntryIndex P s m = Some (set_Enabled false e))
          /\ (Due (TablePassCount s) e = false ->
              SchTbl s' !! EntryIndex P s m = Some e))
    /\ (forall j,
          (j < EntryIndex P s 0
           \/ EntryIndex P s (SCHTBL_ACTIVITIES_PER_SLOT P) <= j)%nat ->
          SchTbl s' !! j = SchTbl s !! j)
    /\ ScheduleActivityFailureCount s'
       = incremented P F_ScheduleActivityFailureCount
           (length (List.filter is_failure evs))
           (ScheduleActivityFailureCount s)
    /\ ScheduleActivitySuccessCount s'
       = incremented P F_ScheduleActivitySuccessCount
           (length (List.filter (fun ev => negb (is_failure ev)) evs))
           (ScheduleActivitySuccessCount s))
  /\ (forall MicroSeconds,
        0 <= GetCurrentSlotNumber P MicroSeconds s < SCHTBL_SLOTS P ->
        exists s',
          SCHEDULER_Execute P W OS_SUCCESS MicroSeconds s = Some (true, s')).
Proof.
  intros HP HI. pose proof HI as [[Hn0 _] _].
  pose proof (activities_nonneg P HP) as Hact. split.
  - destruct (ProcessNextSlot_expected P W s HP HI)
      as (s' & Hrun & Hlog & Hin & Hout & Hf & Hs).
    exists s'. eexists. split; [exact Hrun|]. split; [exact Hlog|].
    split; [reflexivity|].
    assert (Hentry : forall m e,
              0 <= m < SCHTBL_ACTIVITIES_PER_SLOT P ->
              SchTbl s !! EntryIndex P s m = Some e ->
              exists pre post,
                ExpectedDispatches W (TablePassCount s) (NextSlotNumber s) 0
                  (SlotEntries P s) (Log s)
                = pre
                  ++ (if Due (TablePassCount s) e
                      then [EvDispatch (NextSlotNumber s) m (MsgTblIndex e)
                              (ExpectedStatus W (Log s ++ pre) (MsgTblIndex e))]
                      else [])
                  ++ post
                /\ SchTbl s' !! EntryIndex P s m
                   = Some (if Due (TablePassCount s) e
                           then (if ExpectedStatus W (Log s ++ pre)
                                      (MsgTblIndex e) =? CFE_SUCCESS
                                 then e else set_Enabled false e)
                           else e)).
    { intros m e Hm He.
      destruct (Expected_entry P W s m e HP HI Hm He)
        as (pre & post & Heq & _ & _ & Hent).
      exists pre, post. split; [exact Heq|].
      rewrite (EntryIndex_offset P s m HP) by lia.
      rewrite Hin by lia. exact Hent. }
    split; [|split; [|split; [exact Hf|exact Hs]]].
    + intros m e Hm He.
      destruct (Hentry m e Hm He) as (pre & post & Heq & Hent).
      split; [|split; [|split]].
      * intros Hd. rewrite Hd in Heq, Hent.
        exists pre, post. eexists. split; [exact Heq|].
        split; [reflexivity|exact Hent].
      * intros Hd Hmiss. rewrite Hd in Hent. rewrite Hent.
        unfold ExpectedStatus. rewrite Hmiss. reflexivity.
      * intros Hd Herr. rewrite Hd in Hent. rewrite Hent.
        assert (Hne : ExpectedStatus W (Log s ++ pre) (MsgTblIndex e)
                      <> CFE_SUCCESS).
        { unfold ExpectedStatus.
          destruct (MSGTBL_GetMsgPtr W (MsgTblIndex e));
            [apply Herr|discriminate]. }
        apply Z.eqb_neq in Hne. now rewrite Hne.
      * intros Hd. now rewrite Hd in Hent.
    + intros j Hj. apply Hout.
      rewrite !(EntryIndex_offset P s _ HP) in Hj by lia.
      cbn in Hj. lia.
  - intros us Hcur.
    destruct (Execute_total P W us s HP HI Hcur) as (s' & Hrun & _). eauto.
Qed.

Lemma dispatch_failure_disables_entry_witness :
  PlatformOK example_platform
  /\ Inv example_platform example_state_slot1
  /\ Due (TablePassCount example_state_slot1) (activity 1 0 250) = true
  /\ MSGTBL_GetMsgPtr example_world 250 = false
  /\ CFE_SB_TransmitMsg example_world [] 7 <> CFE_SUCCESS
  /\ exists s',
      ProcessNextSlot example_platform example_world example_state_slot1
        = Some (CFE_SUCCESS, s')
      /\ SchTbl s' !! 5%nat = Some (set_Enabled false (activity 1 0 7))
      /\ SchTbl s' !! 6%nat = Some (set_Enabled false (activity 1 0 250))
      /\ SchTbl s' !! 7%nat = Some (activity 1 0 5)
      /\ ScheduleActivityFailureCount s'
         = ScheduleActivityFailureCount example_state_slot1 + 2.
Proof.
  split; [exact example_platform_ok|]. split; [exact example_inv_slot1|].
  split; [reflexivity|]. split; [reflexivity|]. split; [discriminate|].
  destruct (dispatch_failure_disables_entry example_platform example_world
              example_state_slot1 example_platform_ok example_inv_slot1)
    as ((s' & evs & Hrun & _ & Hevs & Hent & _ & Hfail & _) & _).
  exists s'. split; [exact Hrun|].
  split; [|split; [|split]].
  - destruct (Hent 0 (activity 1 0 7) ltac:(cbn; lia) eq_refl)
      as (_ & _ & H & _).
    apply (H eq_refl). intros hist. discriminate.
  - destruct (Hent 1 (activity 1 0 250) ltac:(cbn; lia) eq_refl)
      as (_ & H & _).
    exact (H eq_refl eq_refl).
  - destruct (Hent 2 (activity 1 0 5) ltac:(cbn; lia) eq_refl) as (H & _).
    destruct (H eq_refl) as (pre & post & st & _ & -> & Hs').
    exact Hs'.
  - rewrite Hfail, Hevs. vm_compute. reflexivity.
Defined.

(** Slot 1 of the example: the bus refuses message 7, message 250 is not in
    the message table, message 5 is sent.  The first two activities end up
    disabled, the third stays enabled. *)
Example slot1_run :
  match ProcessNextSlot example_platform example_world example_state_slot1 with
  | Some (Result, s') =>
      Result = CFE_SUCCESS
      /\ Log s' = [EvDispatch 1 0 7 (-1); EvDispatch 1 1 250 CFE_SB_NO_MESSAGE;
                   EvDispatch 1 2 5 0; EvSlot 1]
      /\ Enabled <$> SchTbl s' !! 5%nat = Some false
      /\ Enabled <$> SchTbl s' !! 6%nat = Some false
      /\ Enabled <$> SchTbl s' !! 7%nat = Some true
      /\ ScheduleActivityFailureCount s' = 2
      /\ ScheduleActivitySuccessCount s' = 13
      /\ NextSlotNumber s' = 2
  | None => False
  end.
Proof. vm_compute. repeat split. Qed.

(** *** C3: the number of slots to process *)

(** C3: on every wakeup the slot count is
    [CurrentSlot - NextSlotNumber + 1] when [CurrentSlot >= NextSlotNumber]
    and [SCHTBL_SLOTS - NextSlotNumber + CurrentSlot + 1] otherwise (as C
    expressions on [uint32], and as integers for slot numbers in the table):
    SCHEDULER_Execute processes the slots that the corrections of the
    reconciler leave of this count, and when no correction applies it
    processes exactly that many slots, from NextSlotNumber up to
    CurrentSlot.  The count is 3 for NextSlotNumber 5 and CurrentSlot 7, and
    4 for NextSlotNumber 98, CurrentSlot 1 in a table of 100 slots, after
    which (the lag limit and the slots-per-wakeup limit being at least 4)
    the slots 98, 99, 0, 1 are processed, [TablePassCount] is incremented
    once and NextSlotNumber is 2. *)
Theorem InitialProcessCount_value (P : Platform) (W : World) :
  PlatformOK P ->
  (forall cur s,
      InitialProcessCount P cur s
      = u32 (if cur >=? NextSlotNumber s then cur - NextSlotNumber s + 1
             else SCHTBL_SLOTS P - NextSlotNumber s + cur + 1))
  /\ (forall cur s,
      0 <= NextSlotNumber s < SCHTBL_SLOTS P -> 0 <= cur < SCHTBL_SLOTS P ->
      InitialProcessCount P cur s
      = if cur >=? NextSlotNumber s then cur - NextSlotNumber s + 1
        else SCHTBL_SLOTS P - NextSlotNumber s + cur + 1)
  /\ (forall s, NextSlotNumber s = 5 -> InitialProcessCount P 7 s = 3)
  /\ (forall MicroSeconds s,
        Inv P s ->
        let CurrentSlot := GetCurrentSlotNumber P MicroSeconds s in
        0 <= CurrentSlot < SCHTBL_SLOTS P ->
        exists ProcessCount sr s',
          (let '(pc1, s1) :=
             JitterCorrection P
               (if CurrentSlot >=? NextSlotNumber s
                then CurrentSlot - NextSlotNumber s + 1
                else SCHTBL_SLOTS P - NextSlotNumber s + CurrentSlot + 1)
               (NoisyMessage s) in
           let '(pc2, s2) := SameSlot P pc1 s1 in
           let '(pc3, s3) := LagLimit P CurrentSlot pc2 s2 in
           (SlotsPerWakeup P pc3, MultipleSlots P (SlotsPerWakeup P pc3) s3))
          = (ProcessCount, sr)
          /\ SCHEDULER_Execute P W OS_SUCCESS MicroSeconds s = Some (true, s')
          /\ ProcessedSlots (Log s')
             = ProcessedSlots (Log s)
               ++ slot_sequence P (NextSlotNumber sr) (Z.to_nat ProcessCount)
          /\ NextSlotNumber s'
             = (NextSlotNumber sr + Z.of_nat (Z.to_nat ProcessCount))
               mod SCHTBL_SLOTS P)
  /\ (forall MicroSeconds s ProcessCount,
        Inv P s ->
        let CurrentSlot := GetCurrentSlotNumber P MicroSeconds s in
        0 <= CurrentSlot < SCHTBL_SLOTS P ->
        ProcessCount
        = (if CurrentSlot >=? NextSlotNumber s
           then CurrentSlot - NextSlotNumber s + 1
           else SCHTBL_SLOTS P - NextSlotNumber s + CurrentSlot + 1) ->
        ProcessCount < SCHTBL_SLOTS P ->
        (ProcessCount = 2 -> LastProcessCount s <> 1) ->
        ProcessCount <= SCHEDULER_MAX_LAG_COUNT P ->
        ProcessCount <= SCHEDULER_MAX_SLOTS_PER_WAKEUP P ->
        exists s',
          SCHEDULER_Execute P W OS_SUCCESS MicroSeconds s = Some (true, s')
          /\ ProcessedSlots (Log s')
             = ProcessedSlots (Log s)
               ++ slot_sequence P (NextSlotNumber s) (Z.to_nat ProcessCount)
          /\ length (slot_sequence P (NextSlotNumber s)
                       (Z.to_nat ProcessCount))
             = Z.to_nat ProcessCount
          /\ NextSlotNumber s' = (CurrentSlot + 1) mod SCHTBL_SLOTS P)
  /\ (forall s MicroSeconds,
        SCHTBL_SLOTS P = 100 ->
        4 <= SCHEDULER_MAX_LAG_COUNT P ->
        4 <= SCHEDULER_MAX_SLOTS_PER_WAKEUP P ->
        Inv P s ->
        NextSlotNumber s = 98 ->
        GetCurrentSlotNumber P MicroSeconds s = 1 ->
        InitialProcessCount P 1 s = 4
        /\ exists s',
            SCHEDULER_Execute P W OS_SUCCESS MicroSeconds s = Some (true, s')
            /\ ProcessedSlots (Log s') = ProcessedSlots (Log s) ++ [98; 99; 0; 1]
            /\ TablePassCount s'
               = store P F_TablePassCount (TablePassCount s + 1)
            /\ NextSlotNumber s' = 2).
Proof.
  intros HP. split; [|split; [|split; [|split; [|split]]]].
  - intros cur s. unfold InitialProcessCount, u32.
    destruct (cur <? NextSlotNumber s) eqn:E, (cur >=? NextSlotNumber s) eqn:E';
      try lia.
    + unfold wrap. rewrite <- Z.add_mod by lia. f_equal. lia.
    + apply wrap_add_l.
  - intros cur s Hn Hc. now apply InitialProcessCount_exact.
  - intros s Hn. unfold InitialProcessCount. rewrite Hn. reflexivity.
  - intros us s HI cur Hc. subst cur.
    pose proof (Inv_NoisyMessage P s HI) as [Hn _].
    pose proof (Reconcile_from_count P (GetCurrentSlotNumber P us s)
                  (NoisyMessage s) HP Hn Hc) as Heq.
    replace (NextSlotNumber (NoisyMessage s)) with (NextSlotNumber s) in Heq
      by (destruct (NoisyMessage_eq s) as [b ->]; reflexivity).
    destruct (Reconcile P (GetCurrentSlotNumber P us s) (NoisyMessage s))
      as [pc sr] eqn:Hrec.
    destruct (Execute_post P W us s pc sr HP HI Hc Hrec)
      as (s' & Hrun & _ & Hn' & _ & Hl' & _).
    exists pc, sr, s'. split; [symmetry; exact Heq|]. auto.
  - intros us s pc HI cur Hc Hpc Hlt Hjit Hlag Hcap. subst cur.
    set (cur := GetCurrentSlotNumber P us s) in *.
    pose proof HI as [Hn _]. pose proof (slots_pos P HP) as Hpos.
    pose proof (InitialProcessCount_exact P cur s HP Hn Hc) as Hexact.
    rewrite <- Hpc in Hexact.
    assert (Hrec : Reconcile P cur (NoisyMessage s)
                   = (pc, MultipleSlots P pc
                            (set_LastProcessCount
                               (store P F_LastProcessCount pc)
                               (NoisyMessage s)))).
    { unfold Reconcile. rewrite InitialProcessCount_NoisyMessage, Hexact.
      destruct (NoisyMessage_eq s) as [b ->].
      rewrite JitterCorrection_kept by (cbn; auto; lia).
      rewrite SameSlot_other, LagLimit_within, SlotsPerWakeup_within by lia.
      reflexivity. }
    destruct (Execute_post P W us s _ _ HP HI Hc Hrec)
      as (s' & Hrun & _ & Hn' & _ & Hl' & _).
    assert (Hnr : NextSlotNumber
                    (MultipleSlots P pc
                       (set_LastProcessCount (store P F_LastProcessCount pc)
                          (NoisyMessage s))) = NextSlotNumber s).
    { destruct (NoisyMessage_eq s) as [b ->]. unfold MultipleSlots.
      destruct (pc >? 1); reflexivity. }
    rewrite Hnr in Hn', Hl'.
    exists s'. split; [exact Hrun|]. split; [exact Hl'|].
    split; [apply slot_sequence_length|].
    rewrite Hn'.
    assert (Hsum : NextSlotNumber s + Z.of_nat (Z.to_nat pc)
                   = if cur >=? NextSlotNumber s
                     then cur + 1 else cur + 1 + 1 * SCHTBL_SLOTS P)
      by (revert Hpc; destruct (cur >=? NextSlotNumber s) eqn:Hge; lia).
    rewrite Hsum. destruct (cur >=? NextSlotNumber s); [reflexivity|].
    apply Z.mod_add. lia.
  - intros s us Hslots Hlag Hcap HI Hn Hcur.
    assert (Hpc : InitialProcessCount P 1 s = 4).
    { unfold InitialProcessCount. rewrite Hn, Hslots. reflexivity. }
    split; [exact Hpc|].
    assert (Hrec : exists sr,
      Reconcile P (GetCurrentSlotNumber P us s) (NoisyMessage s) = (4, sr)
      /\ NextSlotNumber sr = 98 /\ TablePassCount sr = TablePassCount s).
    { rewrite Hcur. unfold Reconcile.
      rewrite InitialProcessCount_NoisyMessage, Hpc.
      destruct (NoisyMessage_eq s) as [b ->].
      unfold JitterCorrection, SameSlot, LagLimit, SlotsPerWakeup, MultipleSlots.
      rewrite Hslots. cbn.
      repeat case_if; try lia. eexists. split; [reflexivity|]. cbn. auto. }
    destruct Hrec as (sr & Hrec & Hnr & Htr).
    destruct (Execute_post P W us s 4 sr HP HI ltac:(lia) Hrec)
      as (s' & Hrun & _ & Hn' & Ht' & Hl' & _).
    exists s'. split; [exact Hrun|].
    rewrite Hn', Ht', Hl', Hnr, Htr, Hslots. repeat split.
    change (Z.to_nat 4) with 4%nat. cbn [slot_sequence]. rewrite Hslots.
    reflexivity.
Qed.

Lemma InitialProcessCount_value_witness :
  PlatformOK example_platform
  /\ Inv example_platform example_state
  /\ (exists s',
        SCHEDULER_Execute example_platform example_world OS_SUCCESS 0
          example_state = Some (true, s')
        /\ ProcessedSlots (Log s') = [98; 99; 0; 1]
        /\ NextSlotNumber s' = 2)
  /\ (exists s',
        SCHEDULER_Execute example_platform example_world OS_SUCCESS 0
          (set_MinorFramesSinceTone 0 example_state) = Some (true, s')
        /\ ProcessedSlots (Log s') = [98; 99; 0]
        /\ NextSlotNumber s' = 1).
Proof.
  split; [exact example_platform_ok|]. split; [exact example_inv|].
  destruct (InitialProcessCount_value example_platform example_world
              example_platform_ok) as (_ & _ & _ & _ & Hgen & H).
  split.
  - destruct (H example_state 0 eq_refl ltac:(cbn; lia) ltac:(cbn; lia)
                example_inv eq_refl eq_refl)
      as (_ & s' & Hrun & Hslots & _ & Hnext).
    exists s'. repeat split; assumption.
  - destruct (Hgen 0 (set_MinorFramesSinceTone 0 example_state) 3 example_inv
                ltac:(cbn; lia) eq_refl ltac:(cbn; lia) ltac:(lia)
                ltac:(cbn; lia) ltac:(cbn; lia))
      as (s' & Hrun & Hslots & _ & Hnext).
    exists s'. repeat split; assumption.
Defined.

(** The wakeup of C3 on the example: slots 98, 99, 0 and 1 are processed
    across the end of the table. *)
Example rollover_wakeup :
  match SCHEDULER_Execute example_platform example_world OS_SUCCESS 0
          example_state with
  | Some (b, s') =>
      b = true
      /\ Log s' = [EvDispatch 98 0 3 0; EvSlot 98; EvSlot 99; EvSlot 0;
                   EvDispatch 1 0 7 (-1); EvDispatch 1 1 250 CFE_SB_NO_MESSAGE;
                   EvDispatch 1 2 5 0; EvSlot 1]
      /\ TablePassCount s' = 8
      /\ NextSlotNumber s' = 2
      /\ LastProcessCount s' = 4
      /\ MultipleSlotsCount s' = 2
  | None => False
  end.
Proof. vm_compute. repeat split. Qed.

(** *** C4: the jitter correction *)



(** A wakeup one slot late after a normal one is collapsed to slot 98; the
    next wakeup, again two slots behind, processes both slots 99 and 0. *)
Example two_wakeups :
  match example_two_wakeups with
  | Some (b, s') =>
      b = true
      /\ ProcessedSlots (Log s') = [98; 99; 0]
      /\ LastProcessCount s' = 2
      /\ NextSlotNumber s' = 1
      /\ TablePassCount s' = 8
  | None => False
  end.
Proof. vm_compute. repeat split. Qed.

(** *** C5: the lag limit *)

(** C5: on every wakeup whose ProcessCount, after the jitter correction and
    the same-slot check, exceeds SCHEDULER_MAX_LAG_COUNT, the reconciler
    increments [SkippedSlotsCount], increments [TablePassCount] exactly when
    [CurrentSlot < NextSlotNumber], sets NextSlotNumber to CurrentSlot and
    ProcessCount to 1; SCHEDULER_Execute then processes exactly one slot,
    the current one, and leaves [SkippedSlotsCount] incremented once,
    [TablePassCount] incremented for the skipped rollover (and once more
    when the current slot is the last of the table), and NextSlotNumber at
    the slot after the current one. *)
Theorem lag_limit_jump (P : Platform) (W : World) (MicroSeconds : Z)
    (s : SCHEDULER_Class) (pc1 pc2 : Z) (s1 s2 : SCHEDULER_Class) :
  PlatformOK P -> Inv P s ->
  0 <= GetCurrentSlotNumber P MicroSeconds s < SCHTBL_SLOTS P ->
  1 <= SCHEDULER_MAX_SLOTS_PER_WAKEUP P ->
  JitterCorrection P
    (InitialProcessCount P (GetCurrentSlotNumber P MicroSeconds s) s)
    (NoisyMessage s) = (pc1, s1) ->
  SameSlot P pc1 s1 = (pc2, s2) ->
  pc2 > SCHEDULER_MAX_LAG_COUNT P ->
  let CurrentSlot := GetCurrentSlotNumber P MicroSeconds s in
  let SkippedPass :=
    if CurrentSlot <? NextSlotNumber s
    then store P F_TablePassCount (TablePassCount s + 1)
    else TablePassCount s in
  (exists s3,
      LagLimit P CurrentSlot pc2 s2 = (1, s3)
      /\ SkippedSlotsCount s3
         = store P F_SkippedSlotsCount (SkippedSlotsCount s + 1)
      /\ TablePassCount s3 = SkippedPass
      /\ NextSlotNumber s3 = CurrentSlot)
  /\ (exists sr,
        Reconcile P CurrentSlot (NoisyMessage s) = (1, sr)
        /\ SkippedSlotsCount sr
           = store P F_SkippedSlotsCount (SkippedSlotsCount s + 1)
        /\ TablePassCount sr = SkippedPass
        /\ NextSlotNumber sr = CurrentSlot
        /\ SameSlotCount sr = SameSlotCount s
        /\ MultipleSlotsCount sr = MultipleSlotsCount s
        /\ SchTbl sr = SchTbl s /\ Log sr = Log s)
  /\ exists s',
      SCHEDULER_Execute P W OS_SUCCESS MicroSeconds s = Some (true, s')
      /\ ProcessedSlots (Log s') = ProcessedSlots (Log s) ++ [CurrentSlot]
      /\ NextSlotNumber s' = (CurrentSlot + 1) mod SCHTBL_SLOTS P
      /\ SkippedSlotsCount s'
         = store P F_SkippedSlotsCount (SkippedSlotsCount s + 1)
      /\ TablePassCount s'
         = (if CurrentSlot + 1 =? SCHTBL_SLOTS P
            then store P F_TablePassCount (SkippedPass + 1)
            else SkippedPass)
      /\ SameSlotCount s' = SameSlotCount s
      /\ MultipleSlotsCount s' = MultipleSlotsCount s.
Proof.
  intros HP HI Hcur Hcap Hj Hs Hlag CurrentSlot SkippedPass.
  subst CurrentSlot SkippedPass.
  set (cur := GetCurrentSlotNumber P MicroSeconds s) in *.
  pose proof (slots_fit P HP) as Hfit.
  pose proof (lag_nonneg P HP) as Hlag0.
  assert (Hst : store P F_NextSlotNumber cur = cur) by (apply wrap_small; lia).
  assert (Hs2 : SkippedSlotsCount s2 = SkippedSlotsCount s
                /\ TablePassCount s2 = TablePassCount s
                /\ NextSlotNumber s2 = NextSlotNumber s
                /\ SameSlotCount s2 = SameSlotCount s
                /\ MultipleSlotsCount s2 = MultipleSlotsCount s
                /\ SchTbl s2 = SchTbl s /\ Log s2 = Log s).
  { destruct (NoisyMessage_eq s) as [b Hb]. rewrite Hb in Hj.
    unfold JitterCorrection in Hj. unfold SameSlot in Hs.
    repeat match type of Hj with
           | context [if ?c then _ else _] => destruct c
           end; injection Hj as <- <-;
    repeat match type of Hs with
           | context [if ?c then _ else _] => destruct c
           end; injection Hs as Hpc2 <-; cbn; auto 10; lia. }
  destruct Hs2 as (Hsk & Htp & Hnx & Hsame & Hmul & Htbl & Hlg).
  assert (Hlim : exists s3,
      LagLimit P cur pc2 s2 = (1, s3)
      /\ SkippedSlotsCount s3
         = store P F_SkippedSlotsCount (SkippedSlotsCount s + 1)
      /\ TablePassCount s3
         = (if cur <? NextSlotNumber s
            then store P F_TablePassCount (TablePassCount s + 1)
            else TablePassCount s)
      /\ NextSlotNumber s3 = cur
      /\ SameSlotCount s3 = SameSlotCount s
      /\ MultipleSlotsCount s3 = MultipleSlotsCount s
      /\ SchTbl s3 = SchTbl s /\ Log s3 = Log s).
  { unfold LagLimit. destruct (pc2 >? SCHEDULER_MAX_LAG_COUNT P) eqn:E; [|lia].
    eexists. split; [reflexivity|]. cbn.
    rewrite ?Hnx, ?Hst.
    destruct (cur <? NextSlotNumber s); cbn;
      rewrite ?Hsk, ?Htp, ?Hsame, ?Hmul, ?Htbl, ?Hlg; auto 10. }
  destruct Hlim as (s3 & Hl3 & Hsk3 & Htp3 & Hn3 & Hsame3 & Hmul3 & Htbl3 & Hlg3).
  split; [exists s3; auto|].
  assert (Hrec : Reconcile P cur (NoisyMessage s) = (1, s3)).
  { unfold Reconcile. rewrite InitialProcessCount_NoisyMessage, Hj, Hs, Hl3.
    unfold SlotsPerWakeup, MultipleSlots.
    repeat case_if; try lia. reflexivity. }
  split; [exists s3; auto 10|].
  destruct (Execute_post P W MicroSeconds s 1 s3 HP HI Hcur Hrec)
    as (s' & Hrun & _ & Hn' & Ht' & Hl' & Hf).
  exists s'. split; [exact Hrun|].
  pose proof (f_equal SkippedSlotsCount Hf) as H1.
  pose proof (f_equal SameSlotCount Hf) as H2.
  pose proof (f_equal MultipleSlotsCount Hf) as H3.
  cbn in H1, H2, H3.
  rewrite Hn', Ht', Hl', Hn3, Htp3, H1, H2, H3.
  split; [reflexivity|]. split; [reflexivity|]. split; [exact Hsk3|].
  split; [|auto].
  pose proof (slots_pos P HP).
  change (Z.of_nat (Z.to_nat 1)) with 1.
  destruct (cur + 1 =? SCHTBL_SLOTS P) eqn:Hend.
  - replace (cur + 1) with (SCHTBL_SLOTS P) by lia.
    rewrite Z.div_same by lia. reflexivity.
  - rewrite Z.div_small by lia. reflexivity.
Qed.

Lemma lag_limit_jump_witness :
  PlatformOK example_platform
  /\ Inv example_platform example_state_behind
  /\ exists s',
      SCHEDULER_Execute example_platform example_world OS_SUCCESS 0
        example_state_behind = Some (true, s')
      /\ ProcessedSlots (Log s') = [60]
      /\ NextSlotNumber s' = 61
      /\ SkippedSlotsCount s'
         = SkippedSlotsCount example_state_behind + 1
      /\ TablePassCount s' = TablePassCount example_state_behind + 1.
Proof.
  split; [exact example_platform_ok|]. split; [exact example_inv|].
  destruct (lag_limit_jump example_platform example_world 0
              example_state_behind 63 63
              (set_LastProcessCount 63 example_state_behind)
              (set_LastProcessCount 63 example_state_behind)
              example_platform_ok example_inv ltac:(cbn; lia) ltac:(cbn; lia)
              eq_refl eq_refl ltac:(cbn; lia))
    as (_ & _ & s' & Hrun & Hslots & Hnext & Hskip & Hpass & _).
  exists s'. repeat split; assumption.
Defined.

(** A wakeup 63 slots behind skips to the current slot 60. *)
Example lagging_wakeup :
  match SCHEDULER_Execute example_platform example_world OS_SUCCESS 0
          example_state_behind with
  | Some (b, s') =>
      b = true
      /\ Log s' = [EvSlot 60]
      /\ SkippedSlotsCount s' = 1
      /\ TablePassCount s' = 8
      /\ NextSlotNumber s' = 61
  | None => False
  end.
Proof. vm_compute. repeat split. Qed.

(** *** C8: NextSlotNumber stays in the table *)

Lemma MajorFrameCallback_SlotInv (P : Platform) (fl us : Z)
    (s : SCHEDULER_Class) :
  PlatformOK P -> METReading P us -> SlotInv P s ->
  SlotInv P (MajorFrameCallback P fl us s).
Proof.
  intros HP [Hus Hfit] (HI & Hm & Hl).
  pose proof (store_slot P F_LastSyncMETSlot _ HP
                (GetMETSlotNumber_range P us HP Hus Hfit)) as Hst.
  pose proof (slots_pos P HP).
  unfold MajorFrameCallback.
  repeat case_if; (split; [exact HI|]); cbn; (split; [lia|exact Hst]).
Qed.

Lemma MinorFrameRollover_SlotInv (P : Platform) (s : SCHEDULER_Class) :
  PlatformOK P -> Inv P s ->
  0 <= MinorFramesSinceTone s <= SCHTBL_SLOTS P ->
  0 <= LastSyncMETSlot s < SCHTBL_SLOTS P ->
  SlotInv P (MinorFrameRollover P s).
Proof.
  intros HP HI Hm Hl. pose proof (slots_pos P HP).
  unfold MinorFrameRollover.
  repeat case_if; (split; [exact HI|]); cbn in *; (split; [lia|exact Hl]).
Qed.

Lemma MinorFrameCallback_SlotInv (P : Platform) (us : Z) (s : SCHEDULER_Class) :
  PlatformOK P -> METReading P us -> SlotInv P s ->
  SlotInv P (MinorFrameCallback P us s).
Proof.
  intros HP [Hus Hfit] (HI & Hm & Hl).
  pose proof (slots_pos P HP) as Hpos.
  pose proof (store_slot P F_MinorFramesSinceTone _ HP
                (GetMETSlotNumber_range P us HP Hus Hfit)) as Hmet.
  assert (Hinc : 0 <= store P F_MinorFramesSinceTone (MinorFramesSinceTone s + 1)
                 <= SCHTBL_SLOTS P).
  { pose proof (bits_range P HP F_MinorFramesSinceTone).
    unfold store, wrap.
    assert (0 < 2 ^ bits P F_MinorFramesSinceTone)
      by (apply Z.pow_pos_nonneg; lia).
    pose proof (Z.mod_pos_bound (MinorFramesSinceTone s + 1)
                  (2 ^ bits P F_MinorFramesSinceTone) ltac:(lia)).
    pose proof (Z.mod_le (MinorFramesSinceTone s + 1)
                  (2 ^ bits P F_MinorFramesSinceTone) ltac:(lia) ltac:(lia)).
    lia. }
  unfold MinorFrameCallback.
  repeat match goal with
  | |- context [if ?c then _ else _] =>
      lazymatch c with
      | context [if _ then _ else _] => fail
      | _ => destruct c eqn:?
      end
  end;
  try (apply MinorFrameRollover_SlotInv; [exact HP|exact HI|cbn; lia|cbn; lia]);
  (split; [exact HI|]); cbn; lia.
Qed.

Lemma Execute_SlotInv (P : Platform) (W : World) (take us : Z)
    (s : SCHEDULER_Class) (b : bool) (s' : SCHEDULER_Class) :
  PlatformOK P -> METReading P us -> SlotInv P s ->
  SCHEDULER_Execute P W take us s = Some (b, s') ->
  SlotInv P s'.
Proof.
  intros HP [Hus Hfit] (HI & Hm & Hl) Hrun.
  destruct (take =? OS_SUCCESS) eqn:Htake.
  - assert (take = OS_SUCCESS) as -> by lia.
    pose proof (GetCurrentSlotNumber_bound P us s HP Hm
                  (GetMETSlotNumber_range P us HP Hus Hfit) Hl) as Hcur.
    destruct (Reconcile P (GetCurrentSlotNumber P us s) (NoisyMessage s))
      as [pc sr] eqn:Hrec.
    destruct (Execute_post P W us s pc sr HP HI Hcur Hrec)
      as (s1 & Hrun1 & HI1 & _ & _ & _ & Hf).
    rewrite Hrun1 in Hrun. injection Hrun as _ <-.
    destruct (Reconcile_clock P (GetCurrentSlotNumber P us s) (NoisyMessage s))
      as [Hrm Hrl].
    rewrite Hrec in Hrm, Hrl. cbn [snd] in Hrm, Hrl.
    destruct (NoisyMessage_eq s) as [b' Hb]. rewrite Hb in Hrm, Hrl.
    cbn in Hrm, Hrl.
    pose proof (f_equal MinorFramesSinceTone Hf) as Hfm.
    pose proof (f_equal LastSyncMETSlot Hf) as Hfl.
    cbn in Hfm, Hfl.
    split; [exact HI1|]. rewrite Hfm, Hfl, Hrm, Hrl. auto.
  - unfold SCHEDULER_Execute in Hrun. rewrite Htake in Hrun.
    injection Hrun as _ <-. exact (conj HI (conj Hm Hl)).
Qed.

Lemma Step_SlotInv (P : Platform) (W : World) (s s' : SCHEDULER_Class) :
  PlatformOK P -> Step P W s s' -> SlotInv P s -> SlotInv P s'.
Proof.
  intros HP Hstep HI. destruct Hstep.
  - now apply MajorFrameCallback_SlotInv.
  - now apply MinorFrameCallback_SlotInv.
  - eapply Execute_SlotInv; eauto.
  - exact HI.
Qed.

Lemma Steps_SlotInv (P : Platform) (W : World) (s s' : SCHEDULER_Class) :
  PlatformOK P -> rtc (Step P W) s s' -> SlotInv P s -> SlotInv P s'.
Proof.
  intros HP Hsteps. induction Hsteps as [|s s1 s2 Hstep _ IH]; [auto|].
  intros HI. apply IH. eapply Step_SlotInv; eauto.
Qed.

(** C8: NextSlotNumber stays in [0, SCHTBL_SLOTS): ProcessNextSlot advances
    it by one modulo SCHTBL_SLOTS and increments [TablePassCount] exactly
    when it wraps to 0, the lag-limit jump sets it to the current slot, and
    it is in range after any sequence of major frame signals, timer ticks,
    wakeups and resets; SCHTBL_SLOTS consecutive calls of ProcessNextSlot
    bring it back, increment [TablePassCount] exactly once and, from slot 0,
    process the slots 0, 1, ..., SCHTBL_SLOTS - 1 in order. *)
Theorem NextSlotNumber_in_table (P : Platform) (W : World) :
  PlatformOK P ->
  (forall s, Inv P s ->
     exists s',
       ProcessNextSlot P W s = Some (CFE_SUCCESS, s')
       /\ 0 <= NextSlotNumber s' < SCHTBL_SLOTS P
       /\ NextSlotNumber s' = (NextSlotNumber s + 1) mod SCHTBL_SLOTS P
       /\ TablePassCount s'
          = (if NextSlotNumber s' =? 0
             then store P F_TablePassCount (TablePassCount s + 1)
             else TablePassCount s))
  /\ (forall s CurrentSlot ProcessCount,
        0 <= NextSlotNumber s < SCHTBL_SLOTS P ->
        0 <= CurrentSlot < SCHTBL_SLOTS P ->
        let s' := snd (LagLimit P CurrentSlot ProcessCount s) in
        0 <= NextSlotNumber s' < SCHTBL_SLOTS P
        /\ (ProcessCount > SCHEDULER_MAX_LAG_COUNT P ->
            NextSlotNumber s' = CurrentSlot))
  /\ (forall s s',
        SlotInv P s -> rtc (Step P W) s s' ->
        0 <= NextSlotNumber s' < SCHTBL_SLOTS P)
  /\ (forall s, Inv P s ->
        exists s',
          ProcessSlots P W (Z.to_nat (SCHTBL_SLOTS P)) CFE_SUCCESS s
            = Some (CFE_SUCCESS, s')
          /\ NextSlotNumber s' = NextSlotNumber s
          /\ TablePassCount s'
             = store P F_TablePassCount (TablePassCount s + 1)
          /\ (NextSlotNumber s = 0 ->
              ProcessedSlots (Log s')
              = ProcessedSlots (Log s) ++ seqZ 0 (SCHTBL_SLOTS P))).
Proof.
  intros HP. pose proof (slots_pos P HP) as Hpos.
  pose proof (slots_fit P HP) as Hfit.
  split; [|split; [|split]].
  - intros s HI.
    destruct (ProcessNextSlot_post P W s HP HI) as (s' & evs & Hrun & Hpost & HI').
    exists s'. split; [exact Hrun|]. split; [apply HI'|].
    rewrite (sp_pass _ _ _ _ _ Hpost), (sp_next _ _ _ _ _ Hpost).
    split; [reflexivity|]. destruct HI as [Hn _].
    destruct (NextSlotNumber s + 1 =? SCHTBL_SLOTS P) eqn:E.
    + apply Z.eqb_eq in E. now rewrite E, Z.mod_same by lia.
    + apply Z.eqb_neq in E. rewrite Z.mod_small by lia.
      destruct (NextSlotNumber s + 1 =? 0) eqn:E'; [lia|reflexivity].
  - intros s cur pc Hn Hc. unfold LagLimit.
    destruct (pc >? SCHEDULER_MAX_LAG_COUNT P) eqn:E; cbn.
    + unfold store. rewrite wrap_small by lia. split; [lia|reflexivity].
    + split; [exact Hn|lia].
  - intros s s' HI Hsteps.
    destruct (Steps_SlotInv P W s s' HP Hsteps HI) as [[Hn _] _]. exact Hn.
  - intros s HI.
    destruct (ProcessSlots_post P W (Z.to_nat (SCHTBL_SLOTS P)) HP s HI)
      as (s' & Hrun & _ & Hn & Ht & _ & Hl & _).
    destruct HI as [Hr _].
    exists s'. split; [exact Hrun|].
    rewrite Hn, Ht, Hl, Z2Nat.id by lia.
    replace (NextSlotNumber s + SCHTBL_SLOTS P)
      with (NextSlotNumber s + 1 * SCHTBL_SLOTS P) by lia.
    rewrite Z.mod_add, Z.div_add, Z.mod_small, Z.div_small by lia.
    repeat split.
    intros H0. rewrite H0, slot_sequence_seqZ by lia.
    now rewrite Z2Nat.id by lia.
Qed.

Lemma NextSlotNumber_in_table_witness :
  PlatformOK example_platform
  /\ Inv example_platform example_state
  /\ exists s',
      ProcessNextSlot example_platform example_world example_state
        = Some (CFE_SUCCESS, s')
      /\ NextSlotNumber s' = 99.
Proof.
  split; [exact example_platform_ok|]. split; [exact example_inv|].
  destruct (NextSlotNumber_in_table example_platform example_world
              example_platform_ok) as (H & _).
  destruct (H example_state example_inv) as (s' & Hrun & _ & Hnext & _).
  exists s'. split; [exact Hrun|exact Hnext].
Defined.

(** *** C9: the noisy major frame latch *)

(** The synchronisation flag is out of reach of the slot executor. *)
Lemma ProcessEntry_IgnoreMajorFrame (P : Platform) (W : World) (k : Z) (i : nat)
    (s s' : SCHEDULER_Class) :
  ProcessEntry P W k i s = Some s' -> IgnoreMajorFrame s' = IgnoreMajorFrame s.
Proof.
  unfold ProcessEntry. destruct (SchTbl s !! i) as [e|]; [cbn|discriminate].
  repeat case_if; intros [= <-]; reflexivity.
Qed.

Lemma ProcessEntries_IgnoreMajorFrame (P : Platform) (W : World) (n : nat) :
  forall k i s s',
  ProcessEntries P W n k i s = Some s' ->
  IgnoreMajorFrame s' = IgnoreMajorFrame s.
Proof.
  induction n as [|n IH]; intros k i s s'; cbn.
  - now intros [= <-].
  - destruct (ProcessEntry P W k i s) as [s1|] eqn:E; [cbn|discriminate].
    intros H. rewrite (IH _ _ _ _ H).
    eapply ProcessEntry_IgnoreMajorFrame; eauto.
Qed.

Lemma ProcessNextSlot_IgnoreMajorFrame (P : Platform) (W : World)
    (s s' : SCHEDULER_Class) (r : Z) :
  ProcessNextSlot P W s = Some (r, s') ->
  IgnoreMajorFrame s' = IgnoreMajorFrame s.
Proof.
  unfold ProcessNextSlot.
  destruct (ProcessEntries P W _ _ _ s) as [sm|] eqn:E; [cbn|discriminate].
  intros [= _ <-].
  rewrite <- (ProcessEntries_IgnoreMajorFrame _ _ _ _ _ _ _ E).
  case_if; reflexivity.
Qed.

Lemma ProcessSlots_IgnoreMajorFrame (P : Platform) (W : World) (n : nat) :
  forall r s r' s',
  ProcessSlots P W n r s = Some (r', s') ->
  IgnoreMajorFrame s' = IgnoreMajorFrame s.
Proof.
  induction n as [|n IH]; intros r s r' s'; cbn [ProcessSlots].
  - now intros [= _ <-].
  - destruct (r =? CFE_SUCCESS); [|now intros [= _ <-]].
    destruct (ProcessNextSlot P W s) as [[r1 s1]|] eqn:E; [cbn|discriminate].
    intros H. rewrite (IH _ _ _ _ H).
    eapply ProcessNextSlot_IgnoreMajorFrame; eauto.
Qed.

(** C9: a noisy major frame signal that arrives (clock not flywheeling)
    while [IgnoreMajorFrame] is false increments
    [ConsecutiveNoisyFrameCounter] and sets [IgnoreMajorFrame] when the
    counter has reached SCHEDULER_MAX_NOISY_MF; once true, the flag is kept
    by MajorFrameCallback, MinorFrameCallback and SCHEDULER_Execute, and
    SCHEDULER_ResetStatus clears it. *)
Theorem IgnoreMajorFrame_latched (P : Platform) (W : World) :
  (forall StateFlags MicroSeconds s,
      Z.land StateFlags (CFE_TIME_FLAG_FLYING P) = 0 ->
      NoisyMajorFrame P s = true ->
      IgnoreMajorFrame s = false ->
      let s' := MajorFrameCallback P StateFlags MicroSeconds s in
      ConsecutiveNoisyFrameCounter s'
      = store P F_ConsecutiveNoisyFrameCounter
          (ConsecutiveNoisyFrameCounter s + 1)
      /\ IgnoreMajorFrame s'
         = (ConsecutiveNoisyFrameCounter s' >=? SCHEDULER_MAX_NOISY_MF P))
  /\ (forall StateFlags MicroSeconds s,
        IgnoreMajorFrame s = true ->
        IgnoreMajorFrame (MajorFrameCallback P StateFlags MicroSeconds s) = true)
  /\ (forall MicroSeconds s,
        IgnoreMajorFrame (MinorFrameCallback P MicroSeconds s)
        = IgnoreMajorFrame s)
  /\ (forall TakeResult MicroSeconds s b s',
        SCHEDULER_Execute P W TakeResult MicroSeconds s = Some (b, s') ->
        IgnoreMajorFrame s' = IgnoreMajorFrame s)
  /\ (forall s, IgnoreMajorFrame (SCHEDULER_ResetStatus s) = false).
Proof.
  split; [|split; [|split; [|split]]].
  - intros fl us s Hfl Hnoisy Hign. unfold MajorFrameCallback.
    rewrite Hfl, Hnoisy. cbn -[Z.geb]. rewrite Hign. cbn -[Z.geb].
    destruct (_ >=? _) eqn:E; cbn -[Z.geb]; rewrite ?Hign; cbn -[Z.geb];
      now rewrite E.
  - intros fl us s Hign. unfold MajorFrameCallback.
    repeat case_if; cbn in *; congruence.
  - intros us s. unfold MinorFrameCallback, MinorFrameRollover.
    repeat case_if; reflexivity.
  - intros take us s b s'. unfold SCHEDULER_Execute.
    destruct (take =? OS_SUCCESS); [|now intros [= _ <-]].
    destruct (Reconcile_frame P (GetCurrentSlotNumber P us (NoisyMessage s))
                (NoisyMessage s)) as (_ & _ & Hign & _).
    destruct (Reconcile P _ (NoisyMessage s)) as [pc sr]. cbn [snd] in Hign.
    destruct (ProcessSlots P W (Z.to_nat pc) take sr) as [[r s1]|] eqn:E;
      [cbn|discriminate].
    intros [= _ <-].
    rewrite (ProcessSlots_IgnoreMajorFrame _ _ _ _ _ _ _ E), Hign.
    destruct (NoisyMessage_eq s) as [b' ->]. reflexivity.
  - reflexivity.
Qed.

Lemma IgnoreMajorFrame_latched_witness :
  NoisyMajorFrame example_platform example_state = true
  /\ IgnoreMajorFrame example_state = false
  /\ IgnoreMajorFrame
       (MajorFrameCallback example_platform 0 0 example_state) = true.
Proof.
  split; [reflexivity|]. split; [reflexivity|].
  destruct (IgnoreMajorFrame_latched example_platform example_world) as (H & _).
  destruct (H 0 0 example_state eq_refl eq_refl eq_refl) as [Hcount Hign].
  rewrite Hign, Hcount. reflexivity.
Defined.

(** ** Further properties of scheduler.c *)

(** *** The example states used below are well formed *)

Lemma example_flags_ok : FlagsOK example_platform.
Proof. repeat split; cbn; lia. Qed.

Lemma example_slot_inv_slot1 : SlotInv example_platform example_state_slot1.
Proof. split; [exact example_inv_slot1|]. cbn. lia. Qed.

Lemma example_wakeup_steps :
  rtc (Step example_platform example_world) example_state_slot1
    example_after_wakeup.
Proof.
  apply rtc_once.
  apply (StepExecute example_platform example_world OS_SUCCESS 0
           example_state_slot1 true).
  - split; cbn; lia.
  - vm_compute. reflexivity.
Qed.

Lemma example_offsets_ok :
  forall i e, SchTbl example_state !! i = Some e -> 0 <= Offset e.
Proof.
  intros i e Hi.
  assert (Hall : forallb (fun e => 0 <=? Offset e) (SchTbl example_state)
                 = true) by (vm_compute; reflexivity).
  rewrite forallb_forall in Hall.
  assert (Hin : In e (SchTbl example_state)).
  { apply list_elem_of_In, list_elem_of_lookup. eauto. }
  specialize (Hall e Hin). lia.
Qed.

Lemma example_inv_early : Inv example_platform example_state_early.
Proof. exact example_inv. Qed.

Lemma example_free_running : FreeRunning example_platform example_state_early.
Proof. split; [discriminate|]. left. reflexivity. Qed.

Lemma example_pending : Pending example_platform example_state_pending.
Proof. split; [vm_compute; discriminate|reflexivity]. Qed.

(** *** The MET slot and the slot executor *)

(** X1: for a MET reading below 2^32 - 1 microseconds GetMETSlotNumber
    returns (MicroSeconds + 1) / SCHEDULER_NORMAL_SLOT_PERIOD, the slot of
    the reading after the one microsecond added to round up, and 0 when this
    quotient is SCHTBL_SLOTS. *)
Theorem GetMETSlotNumber_rounds_up (P : Platform) (MicroSeconds : Z) :
  PlatformOK P ->
  0 <= MicroSeconds < 2 ^ 32 - 1 ->
  GetMETSlotNumber P MicroSeconds
  = (if (MicroSeconds + 1) / SCHEDULER_NORMAL_SLOT_PERIOD P =? SCHTBL_SLOTS P
     then 0
     else (MicroSeconds + 1) / SCHEDULER_NORMAL_SLOT_PERIOD P).
Proof.
  intros HP Hus. pose proof (slot_period_pos P HP) as Hper.
  unfold GetMETSlotNumber.
  set (p := SCHEDULER_NORMAL_SLOT_PERIOD P) in *.
  pose proof (Z.mod_pos_bound MicroSeconds p ltac:(lia)) as Hr.
  pose proof (Z.div_mod MicroSeconds p ltac:(lia)) as Hdm.
  assert (Hq : 0 <= MicroSeconds / p <= MicroSeconds).
  { split; [apply Z.div_pos; lia|].
    apply Z.div_le_upper_bound; nia. }
  assert (Hmul : MicroSeconds / p * p = MicroSeconds - MicroSeconds mod p) by lia.
  rewrite Hmul.
  rewrite (u32_small (MicroSeconds - MicroSeconds mod p)) by lia.
  replace (MicroSeconds - (MicroSeconds - MicroSeconds mod p))
    with (MicroSeconds mod p) by lia.
  rewrite (u32_small (MicroSeconds mod p)) by lia.
  rewrite (u32_small (MicroSeconds mod p + 1)) by lia.
  assert (Hsum : MicroSeconds / p + (MicroSeconds mod p + 1) / p
                 = (MicroSeconds + 1) / p).
  { replace (MicroSeconds + 1)
      with ((MicroSeconds mod p + 1) + (MicroSeconds / p) * p) by lia.
    rewrite Z.div_add by lia. lia. }
  rewrite Hsum.
  assert (0 <= (MicroSeconds + 1) / p <= MicroSeconds + 1).
  { split; [apply Z.div_pos; lia|]. apply Z.div_le_upper_bound; nia. }
  rewrite u32_small by lia. reflexivity.
Qed.

Lemma GetMETSlotNumber_rounds_up_witness :
  GetMETSlotNumber example_platform 129999 = 13.
Proof.
  rewrite (GetMETSlotNumber_rounds_up example_platform 129999
             example_platform_ok); [reflexivity|lia].
Defined.

Lemma ProcessEntry_other_entries (P : Platform) (W : World) (k : Z) (i : nat)
    (s s' : SCHEDULER_Class) :
  ProcessEntry P W k i s = Some s' ->
  forall j, j <> i -> SchTbl s' !! j = SchTbl s !! j.
Proof.
  unfold ProcessEntry. destruct (SchTbl s !! i) as [e|]; [cbn|discriminate].
  repeat case_if; intros [= <-] j Hj; cbn; try reflexivity.
  now apply list_lookup_insert_ne.
Qed.

Lemma ProcessEntries_zero_period (P : Platform) (W : World) (n : nat) :
  forall k i s (d : nat) e,
  (d < n)%nat ->
  SchTbl s !! (i + d)%nat = Some e -> Enabled e = true -> Period e = 0 ->
  ProcessEntries P W n k i s = None.
Proof.
  induction n as [|n IH]; intros k i s d e Hd He Hen Hp; [lia|].
  cbn [ProcessEntries].
  destruct (ProcessEntry P W k i s) as [s1|] eqn:E; [cbn|reflexivity].
  destruct d as [|d].
  - rewrite Nat.add_0_r in He. unfold ProcessEntry in E.
    rewrite He in E. cbn in E. rewrite Hen, Hp in E. discriminate.
  - apply (IH _ _ _ d e); auto; [lia|].
    rewrite (ProcessEntry_other_entries _ _ _ _ _ _ E) by lia.
    now replace (S i + d)%nat with (i + S d)%nat by lia.
Qed.

(** X2: an enabled entry whose [Period] is 0, in the slot being processed,
    makes ProcessNextSlot undefined (line 1209 takes a remainder by
    [Period]); SCHEDULER_LoadSchTblEntry, which checks nothing, stores such
    an entry, after which ProcessNextSlot is undefined. *)
Theorem zero_period_entry_undefined (P : Platform) (W : World)
    (s : SCHEDULER_Class) (m : Z) :
  PlatformOK P ->
  0 <= NextSlotNumber s ->
  0 <= m < SCHTBL_ACTIVITIES_PER_SLOT P ->
  (forall e,
      SchTbl s !! EntryIndex P s m = Some e ->
      Enabled e = true -> Period e = 0 ->
      ProcessNextSlot P W s = None)
  /\ (forall NewEntry,
        (EntryIndex P s m < length (SchTbl s))%nat ->
        Enabled NewEntry = true -> Period NewEntry = 0 ->
        exists s1,
          SCHEDULER_LoadSchTblEntry (Z.of_nat (EntryIndex P s m)) NewEntry s
            = Some (true, s1)
          /\ ProcessNextSlot P W s1 = None).
Proof.
  intros HP Hn Hm.
  assert (Hslot : forall s0 e, NextSlotNumber s0 = NextSlotNumber s ->
            SchTbl s0 !! EntryIndex P s m = Some e ->
            Enabled e = true -> Period e = 0 ->
            ProcessNextSlot P W s0 = None).
  { intros s0 e Hn0 He Hen Hp. unfold ProcessNextSlot.
    rewrite (EntryIndex_offset P s m HP) in He by lia.
    rewrite <- Hn0 in He.
    rewrite (ProcessEntries_zero_period P W _ _ _ _ (Z.to_nat m) e); auto. lia. }
  split.
  - intros e He Hen Hp. now apply (Hslot s e).
  - intros NewEntry Hlt Hen Hp. unfold SCHEDULER_LoadSchTblEntry.
    rewrite Nat2Z.id.
    destruct (lookup_lt_is_Some_2 _ _ Hlt) as [e0 He0]. rewrite He0. cbn.
    eexists. split; [reflexivity|].
    apply (Hslot _ NewEntry); auto. cbn.
    now apply list_lookup_insert_eq.
Qed.

Lemma zero_period_entry_undefined_witness :
  Enabled (activity 0 0 3) = true
  /\ Period (activity 0 0 3) = 0
  /\ ProcessNextSlot example_platform example_world example_state_zero_period
     = None.
Proof.
  split; [reflexivity|]. split; [reflexivity|].
  destruct (zero_period_entry_undefined example_platform example_world
              example_state_zero_period 0 example_platform_ok
              ltac:(cbn; lia) ltac:(cbn; lia)) as [H _].
  apply (H (activity 0 0 3)); reflexivity.
Defined.

Lemma OnlyDisabled_refl (t : list SCHTBL_Entry) : OnlyDisabled t t.
Proof. split; auto. Qed.

Lemma OnlyDisabled_trans (t1 t2 t3 : list SCHTBL_Entry) :
  OnlyDisabled t1 t2 -> OnlyDisabled t2 t3 -> OnlyDisabled t1 t3.
Proof.
  intros [Hl12 H12] [Hl23 H23]. split; [congruence|].
  intros j e He. destruct (H12 j e He) as [H2|[Hen H2]].
  - apply (H23 j e H2).
  - destruct (H23 j _ H2) as [H3|[Hen' _]]; [auto|discriminate].
Qed.

Lemma DispatchesFrom_nil (P : Platform) (t : list SCHTBL_Entry) :
  DispatchesFrom P t [].
Proof. intros ? ? ? ? []. Qed.

Lemma DispatchesFrom_app (P : Platform) (t : list SCHTBL_Entry)
    (evs1 evs2 : list Event) :
  DispatchesFrom P t evs1 -> DispatchesFrom P t evs2 ->
  DispatchesFrom P t (evs1 ++ evs2).
Proof.
  intros H1 H2 a b c d Hin. apply in_app_or in Hin as [Hin|Hin]; eauto.
Qed.

Lemma DispatchesFrom_earlier (P : Platform) (t t' : list SCHTBL_Entry)
    (evs : list Event) :
  OnlyDisabled t t' -> DispatchesFrom P t' evs -> DispatchesFrom P t evs.
Proof.
  intros [Hlen Hkeep] H a b c d Hin.
  destruct (H a b c d Hin) as (Ha & Hb & e' & He' & Hen & Hidx).
  split; [exact Ha|]. split; [exact Hb|].
  assert (Hlt : (Z.to_nat (a * SCHTBL_ACTIVITIES_PER_SLOT P + b) < length t)%nat).
  { rewrite <- Hlen. eapply lookup_lt_Some; eauto. }
  destruct (lookup_lt_is_Some_2 _ _ Hlt) as [e He].
  exists e. split; [exact He|].
  destruct (Hkeep _ _ He) as [H1|[_ H1]]; rewrite H1 in He'.
  - injection He' as <-. auto.
  - injection He' as <-. discriminate.
Qed.

Lemma DispatchesFrom_other (P : Platform) (t : list SCHTBL_Entry)
    (evs : list Event) :
  (forall ev, In ev evs ->
     match ev with EvDispatch _ _ _ _ => False | _ => True end) ->
  DispatchesFrom P t evs.
Proof. intros H a b c d Hin. destruct (H _ Hin). Qed.

Lemma RunPost_refl (P : Platform) (s : SCHEDULER_Class) : RunPost P s s.
Proof.
  split; [apply OnlyDisabled_refl|]. split; [reflexivity|].
  exists []. split; [now rewrite app_nil_r|apply DispatchesFrom_nil].
Qed.

Lemma RunPost_trans (P : Platform) (s1 s2 s3 : SCHEDULER_Class) :
  RunPost P s1 s2 -> RunPost P s2 s3 -> RunPost P s1 s3.
Proof.
  intros (Ht12 & Hm12 & evs1 & Hl12 & Hd1) (Ht23 & Hm23 & evs2 & Hl23 & Hd2).
  split; [eapply OnlyDisabled_trans; eauto|]. split; [congruence|].
  exists (evs1 ++ evs2). split.
  - rewrite Hl23, Hl12. now rewrite app_assoc.
  - apply DispatchesFrom_app; [exact Hd1|].
    eapply DispatchesFrom_earlier; eauto.
Qed.

Lemma ProcessNextSlot_RunPost (P : Platform) (W : World) (s : SCHEDULER_Class) :
  PlatformOK P -> Inv P s ->
  exists s',
    ProcessNextSlot P W s = Some (CFE_SUCCESS, s') /\ Inv P s' /\ RunPost P s s'.
Proof.
  intros HP HI.
  destruct (ProcessNextSlot_post P W s HP HI) as (s' & evs & Hrun & Hpost & HI').
  destruct (sp_entries _ _ _ _ _ Hpost) as (sm & Hent & Htbl & _).
  pose proof (activities_nonneg P HP) as Hact.
  destruct HI as [Hn _].
  exists s'. split; [exact Hrun|]. split; [exact HI'|].
  split; [|split].
  - rewrite Htbl. split; [apply (ep_length _ _ _ _ _ _ _ _ Hent)|].
    intros j e He.
    destruct (EntriesPost_final _ _ _ _ _ _ _ _ Hent j e He) as [H|H]; auto.
    destruct (Enabled e) eqn:Hen; auto.
    left. rewrite H. f_equal. destruct e; cbn in *. now subst.
  - pose proof (f_equal MsgTbl (sp_frame _ _ _ _ _ Hpost)) as Hm. exact Hm.
  - exists (evs ++ [EvSlot (NextSlotNumber s)]).
    split; [apply (sp_log _ _ _ _ _ Hpost)|].
    apply DispatchesFrom_app; [|apply DispatchesFrom_other; intros ev [<-|[]]; exact I].
    intros a b c d Hin.
    destruct (ep_events _ _ _ _ _ _ _ _ Hent _ Hin)
      as (k & e & st & _ & _ & Hk & Heq & _ & _ & He & Hdue & _).
    injection Heq as -> -> -> ->.
    unfold Due in Hdue. apply andb_true_iff in Hdue as [Hen _].
    split; [exact Hn|]. split; [lia|].
    exists e. split; [|auto].
    rewrite Z.add_0_l, Z2Nat.inj_add, Nat2Z.id by nia. exact He.
Qed.

Lemma ProcessSlots_RunPost (P : Platform) (W : World) (n : nat) :
  PlatformOK P ->
  forall s, Inv P s ->
  exists s',
    ProcessSlots P W n CFE_SUCCESS s = Some (CFE_SUCCESS, s')
    /\ Inv P s' /\ RunPost P s s'.
Proof.
  intros HP. induction n as [|n IH]; intros s HI.
  - exists s. split; [reflexivity|]. split; [exact HI|apply RunPost_refl].
  - destruct (ProcessNextSlot_RunPost P W s HP HI) as (s1 & Hrun1 & HI1 & Hp1).
    destruct (IH s1 HI1) as (s2 & Hrun2 & HI2 & Hp2).
    exists s2. cbn [ProcessSlots]. change (CFE_SUCCESS =? CFE_SUCCESS) with true.
    cbv iota. rewrite Hrun1. cbn. rewrite Hrun2.
    split; [reflexivity|]. split; [exact HI2|].
    eapply RunPost_trans; eauto.
Qed.

Lemma RunPost_same (P : Platform) (s s' : SCHEDULER_Class) :
  SchTbl s' = SchTbl s -> MsgTbl s' = MsgTbl s -> Log s' = Log s ->
  RunPost P s s'.
Proof.
  intros Ht Hm Hl. unfold RunPost. rewrite Ht, Hm, Hl. apply RunPost_refl.
Qed.

Lemma RunPost_events (P : Platform) (s s' : SCHEDULER_Class)
    (evs : list Event) :
  SchTbl s' = SchTbl s -> MsgTbl s' = MsgTbl s -> Log s' = Log s ++ evs ->
  (forall ev, In ev evs ->
     match ev with EvDispatch _ _ _ _ => False | _ => True end) ->
  RunPost P s s'.
Proof.
  intros Ht Hm Hl Hev. unfold RunPost. rewrite Ht, Hm.
  split; [apply OnlyDisabled_refl|]. split; [reflexivity|].
  exists evs. split; [exact Hl|now apply DispatchesFrom_other].
Qed.

Lemma Reconcile_RunPost (P : Platform) (cur : Z) (s : SCHEDULER_Class) :
  RunPost P s (snd (Reconcile P cur (NoisyMessage s))).
Proof.
  destruct (NoisyMessage_eq s) as [b ->].
  unfold Reconcile, JitterCorrection, SameSlot, LagLimit, MultipleSlots.
  repeat case_if; cbn; apply RunPost_same; reflexivity.
Qed.

Ltac other_events :=
  let ev := fresh "ev" in
  let H := fresh "H" in
  intros ev H; cbn in H;
  repeat (destruct H as [<-|H]; [exact I|]); destruct H.

Lemma MajorFrameCallback_RunPost (P : Platform) (fl us : Z)
    (s : SCHEDULER_Class) :
  RunPost P s (MajorFrameCallback P fl us s).
Proof.
  unfold MajorFrameCallback.
  repeat case_if;
    first [ apply RunPost_same; reflexivity
          | eapply RunPost_events;
            [reflexivity|reflexivity|cbn; rewrite <- ?app_assoc; reflexivity
            |other_events] ].
Qed.

Lemma MinorFrameCallback_RunPost (P : Platform) (us : Z) (s : SCHEDULER_Class) :
  RunPost P s (MinorFrameCallback P us s).
Proof.
  unfold MinorFrameCallback, MinorFrameRollover.
  repeat match goal with
  | |- context [if ?c then _ else _] =>
      lazymatch c with
      | context [if _ then _ else _] => fail
      | _ => destruct c eqn:?
      end
  end;
    first [ apply RunPost_same; reflexivity
          | eapply RunPost_events;
            [reflexivity|reflexivity|cbn; rewrite <- ?app_assoc; reflexivity
            |other_events] ].
Qed.

Lemma Execute_RunPost (P : Platform) (W : World) (take us : Z)
    (s : SCHEDULER_Class) (b : bool) (s' : SCHEDULER_Class) :
  PlatformOK P -> METReading P us -> SlotInv P s ->
  SCHEDULER_Execute P W take us s = Some (b, s') ->
  RunPost P s s'.
Proof.
  intros HP [Hus Hfit] (HI & Hm & Hl) Hrun.
  unfold SCHEDULER_Execute in Hrun.
  destruct (take =? OS_SUCCESS) eqn:Htake.
  - assert (take = OS_SUCCESS) as -> by lia.
    pose proof (GetCurrentSlotNumber_bound P us s HP Hm
                  (GetMETSlotNumber_range P us HP Hus Hfit) Hl) as Hcur.
    rewrite GetCurrentSlotNumber_NoisyMessage in Hrun.
    pose proof (Reconcile_Inv P (GetCurrentSlotNumber P us s) (NoisyMessage s)
                  HP (Inv_NoisyMessage P s HI) Hcur) as HIr.
    pose proof (Reconcile_RunPost P (GetCurrentSlotNumber P us s) s) as Hpr.
    destruct (Reconcile P _ (NoisyMessage s)) as [pc sr].
    cbn [snd] in HIr, Hpr.
    destruct (ProcessSlots_RunPost P W (Z.to_nat pc) HP sr HIr)
      as (s1 & Hrun1 & _ & Hp1).
    change OS_SUCCESS with CFE_SUCCESS in Hrun. rewrite Hrun1 in Hrun.
    cbn in Hrun. injection Hrun as _ <-.
    eapply RunPost_trans; eauto.
  - injection Hrun as _ <-. apply RunPost_refl.
Qed.

Lemma Step_RunPost (P : Platform) (W : World) (s s' : SCHEDULER_Class) :
  PlatformOK P -> SlotInv P s -> Step P W s s' -> RunPost P s s'.
Proof.
  intros HP HI Hstep. destruct Hstep.
  - apply MajorFrameCallback_RunPost.
  - apply MinorFrameCallback_RunPost.
  - eapply Execute_RunPost; eauto.
  - apply RunPost_same; reflexivity.
Qed.

Lemma Steps_RunPost (P : Platform) (W : World) (s s' : SCHEDULER_Class) :
  PlatformOK P -> rtc (Step P W) s s' -> SlotInv P s -> RunPost P s s'.
Proof.
  intros HP Hsteps. induction Hsteps as [|s s1 s2 Hstep _ IH]; intros HI.
  - apply RunPost_refl.
  - eapply RunPost_trans; [eapply Step_RunPost; eauto|].
    apply IH. eapply Step_SlotInv; eauto.
Qed.

(** X3: over any sequence of major frame signals, timer ticks, wakeups
    and resets the message table is not changed, the scheduler table keeps
    its length, and every entry keeps its [Period], [Offset] and
    [MsgTblIndex]; [Enabled] only ever goes from true to false. *)
Theorem run_only_disables_entries (P : Platform) (W : World)
    (s s' : SCHEDULER_Class) :
  PlatformOK P -> SlotInv P s -> rtc (Step P W) s s' ->
  MsgTbl s' = MsgTbl s
  /\ length (SchTbl s') = length (SchTbl s)
  /\ forall j e',
       SchTbl s' !! j = Some e' ->
       exists e,
         SchTbl s !! j = Some e
         /\ Period e' = Period e /\ Offset e' = Offset e
         /\ MsgTblIndex e' = MsgTblIndex e
         /\ (Enabled e' = true -> Enabled e = true).
Proof.
  intros HP HI Hsteps.
  destruct (Steps_RunPost P W s s' HP Hsteps HI) as ([Hlen Hkeep] & Hmsg & _).
  split; [exact Hmsg|]. split; [exact Hlen|].
  intros j e' He'.
  assert (Hlt : (j < length (SchTbl s))%nat).
  { rewrite <- Hlen. eapply lookup_lt_Some; eauto. }
  destruct (lookup_lt_is_Some_2 _ _ Hlt) as [e He].
  exists e. split; [exact He|].
  destruct (Hkeep _ _ He) as [H|[_ H]]; rewrite H in He'; injection He' as <-;
    cbn; auto. repeat split. discriminate.
Qed.

Lemma run_only_disables_entries_witness :
  SlotInv example_platform example_state_slot1
  /\ rtc (Step example_platform example_world) example_state_slot1
       example_after_wakeup
  /\ MsgTbl example_after_wakeup = MsgTbl example_state_slot1
  /\ length (SchTbl example_after_wakeup)
     = length (SchTbl example_state_slot1).
Proof.
  split; [exact example_slot_inv_slot1|]. split; [exact example_wakeup_steps|].
  destruct (run_only_disables_entries example_platform example_world
              example_state_slot1 example_after_wakeup example_platform_ok
              example_slot_inv_slot1 example_wakeup_steps) as (Hm & Hl & _).
  split; [exact Hm|exact Hl].
Defined.

(** X4: every dispatch recorded during a sequence of major frame
    signals, timer ticks, wakeups and resets is for a slot and an activity
    inside the table, and for an entry that was enabled when the sequence
    began, with the message index of that entry. *)
Theorem run_dispatches_enabled_entries_only (P : Platform) (W : World)
    (s s' : SCHEDULER_Class) :
  PlatformOK P -> SlotInv P s -> rtc (Step P W) s s' ->
  exists evs,
    Log s' = Log s ++ evs
    /\ forall Slot EntryNumber MsgIndex Status,
         In (EvDispatch Slot EntryNumber MsgIndex Status) evs ->
         0 <= Slot < SCHTBL_SLOTS P
         /\ 0 <= EntryNumber < SCHTBL_ACTIVITIES_PER_SLOT P
         /\ exists e,
              SchTbl s
                !! Z.to_nat (Slot * SCHTBL_ACTIVITIES_PER_SLOT P + EntryNumber)
                = Some e
              /\ Enabled e = true /\ MsgTblIndex e = MsgIndex.
Proof.
  intros HP HI Hsteps.
  destruct (Steps_RunPost P W s s' HP Hsteps HI) as (_ & _ & evs & Hlog & Hd).
  exists evs. split; [exact Hlog|exact Hd].
Qed.

Lemma run_dispatches_enabled_entries_only_witness :
  SlotInv example_platform example_state_slot1
  /\ rtc (Step example_platform example_world) example_state_slot1
       example_after_wakeup
  /\ exists evs,
       Log example_after_wakeup = Log example_state_slot1 ++ evs
       /\ forall Slot EntryNumber MsgIndex Status,
            In (EvDispatch Slot EntryNumber MsgIndex Status) evs ->
            0 <= Slot < 100.
Proof.
  split; [exact example_slot_inv_slot1|]. split; [exact example_wakeup_steps|].
  destruct (run_dispatches_enabled_entries_only example_platform example_world
              example_state_slot1 example_after_wakeup example_platform_ok
              example_slot_inv_slot1 example_wakeup_steps) as (evs & Hl & H).
  exists evs. split; [exact Hl|].
  intros Slot En m st Hin. exact (proj1 (H Slot En m st Hin)).
Defined.

(** *** The wakeup *)

Lemma Reconcile_outside (P : Platform) (cur : Z) (s : SCHEDULER_Class) :
  outside_reconcile (snd (Reconcile P cur (NoisyMessage s)))
  = outside_reconcile s.
Proof.
  destruct (NoisyMessage_eq s) as [b ->].
  unfold Reconcile, JitterCorrection, SameSlot, LagLimit, MultipleSlots.
  repeat case_if; reflexivity.
Qed.

Lemma Reconcile_count_le (P : Platform) (cur : Z) (s : SCHEDULER_Class) :
  fst (Reconcile P cur s) <= SCHEDULER_MAX_SLOTS_PER_WAKEUP P.
Proof.
  unfold Reconcile, JitterCorrection, SameSlot, LagLimit, SlotsPerWakeup.
  repeat case_if; cbn -[Z.gtb]; repeat case_if; lia.
Qed.

(** X5: a wakeup whose semaphore take succeeds returns true, processes at
    most SCHEDULER_MAX_SLOTS_PER_WAKEUP slots, and increments
    [SlotsProcessedCount] once for each slot it processes. *)
Theorem wakeup_slot_limit (P : Platform) (W : World) (MicroSeconds : Z)
    (s : SCHEDULER_Class) :
  PlatformOK P -> Inv P s ->
  0 <= GetCurrentSlotNumber P MicroSeconds s < SCHTBL_SLOTS P ->
  exists s' slots,
    SCHEDULER_Execute P W OS_SUCCESS MicroSeconds s = Some (true, s')
    /\ ProcessedSlots (Log s') = ProcessedSlots (Log s) ++ slots
    /\ Z.of_nat (length slots) <= SCHEDULER_MAX_SLOTS_PER_WAKEUP P
    /\ SlotsProcessedCount s'
       = incremented P F_SlotsProcessedCount (length slots)
           (SlotsProcessedCount s).
Proof.
  intros HP HI Hcur.
  pose proof (Reconcile_Inv P (GetCurrentSlotNumber P MicroSeconds s)
                (NoisyMessage s) HP (Inv_NoisyMessage P s HI) Hcur) as HIr.
  pose proof (Reconcile_outside P (GetCurrentSlotNumber P MicroSeconds s) s)
    as Hout.
  pose proof (Reconcile_count_le P (GetCurrentSlotNumber P MicroSeconds s)
                (NoisyMessage s)) as Hle.
  destruct (Reconcile_frame P (GetCurrentSlotNumber P MicroSeconds s)
              (NoisyMessage s)) as (_ & Hlog & _).
  pose proof (per_wakeup_nonneg P HP) as Hcap.
  destruct (Reconcile P _ (NoisyMessage s)) as [pc sr] eqn:Hrec.
  cbn [fst snd] in *.
  destruct (ProcessSlots_post P W (Z.to_nat pc) HP sr HIr)
    as (s' & Hrun & _ & _ & _ & Hc & Hl & _).
  exists s', (slot_sequence P (NextSlotNumber sr) (Z.to_nat pc)).
  unfold SCHEDULER_Execute.
  change (OS_SUCCESS =? OS_SUCCESS) with true. cbv iota.
  rewrite GetCurrentSlotNumber_NoisyMessage, Hrec.
  change OS_SUCCESS with CFE_SUCCESS. rewrite Hrun. cbn.
  split; [reflexivity|].
  rewrite Hl, Hc, Hlog, slot_sequence_length.
  pose proof (f_equal SlotsProcessedCount Hout) as Hspc. cbn in Hspc.
  rewrite Hspc.
  destruct (NoisyMessage_eq s) as [b ->]. cbn.
  repeat split. lia.
Qed.

Lemma wakeup_slot_limit_witness :
  Inv example_platform example_state
  /\ exists s' slots,
       SCHEDULER_Execute example_platform example_world OS_SUCCESS 0
         example_state = Some (true, s')
       /\ ProcessedSlots (Log s') = ProcessedSlots (Log example_state) ++ slots
       /\ Z.of_nat (length slots) <= 5.
Proof.
  split; [exact example_inv|].
  destruct (wakeup_slot_limit example_platform example_world 0 example_state
              example_platform_ok example_inv ltac:(cbn; lia))
    as (s' & slots & Hrun & Hl & Hle & _).
  exists s', slots. split; [exact Hrun|]. split; [exact Hl|exact Hle].
Defined.

Lemma InitialProcessCount_previous_slot (P : Platform) (cur : Z)
    (s : SCHEDULER_Class) :
  PlatformOK P ->
  0 <= NextSlotNumber s < SCHTBL_SLOTS P ->
  cur = (NextSlotNumber s - 1) mod SCHTBL_SLOTS P ->
  InitialProcessCount P cur s = SCHTBL_SLOTS P.
Proof.
  intros HP Hn ->. pose proof (slots_pos P HP).
  assert (Hc : 0 <= (NextSlotNumber s - 1) mod SCHTBL_SLOTS P < SCHTBL_SLOTS P)
    by (apply Z.mod_pos_bound; lia).
  rewrite (InitialProcessCount_exact P _ s HP Hn Hc).
  destruct (decide (NextSlotNumber s = 0)) as [H0|H0].
  - rewrite H0 in *. replace (0 - 1) with (SCHTBL_SLOTS P - 1 + -1 * SCHTBL_SLOTS P) in * by lia.
    rewrite Z.mod_add, Z.mod_small in * by lia.
    destruct (_ >=? _) eqn:E; lia.
  - rewrite Z.mod_small in * by lia. destruct (_ >=? _) eqn:E; lia.
Qed.

(** X6: a wakeup that finds the clock in the slot before NextSlotNumber, as
    the previous wakeup did ([LastProcessCount] is SCHTBL_SLOTS), processes
    no slot: the history, the table, NextSlotNumber and [TablePassCount] are
    unchanged and [SameSlotCount] is incremented. *)
Theorem same_slot_wakeup (P : Platform) (W : World) (MicroSeconds : Z)
    (s : SCHEDULER_Class) :
  PlatformOK P ->
  0 <= NextSlotNumber s < SCHTBL_SLOTS P ->
  GetCurrentSlotNumber P MicroSeconds s
    = (NextSlotNumber s - 1) mod SCHTBL_SLOTS P ->
  LastProcessCount s = SCHTBL_SLOTS P ->
  exists s',
    SCHEDULER_Execute P W OS_SUCCESS MicroSeconds s = Some (true, s')
    /\ Log s' = Log s
    /\ SchTbl s' = SchTbl s
    /\ NextSlotNumber s' = NextSlotNumber s
    /\ TablePassCount s' = TablePassCount s
    /\ SameSlotCount s' = store P F_SameSlotCount (SameSlotCount s + 1)
    /\ SkippedSlotsCount s' = SkippedSlotsCount s
    /\ SlotsProcessedCount s' = SlotsProcessedCount s.
Proof.
  intros HP Hn Hcur Hlast.
  pose proof (InitialProcessCount_previous_slot P _ s HP Hn Hcur) as Hpc.
  pose proof (lag_nonneg P HP). pose proof (per_wakeup_nonneg P HP).
  pose proof (slots_pos P HP).
  unfold SCHEDULER_Execute.
  change (OS_SUCCESS =? OS_SUCCESS) with true. cbv iota.
  rewrite GetCurrentSlotNumber_NoisyMessage.
  unfold Reconcile. rewrite InitialProcessCount_NoisyMessage, Hpc.
  destruct (NoisyMessage_eq s) as [b ->].
  rewrite JitterCorrection_same by exact Hlast.
  unfold SameSlot. rewrite Z.eqb_refl.
  rewrite LagLimit_within, SlotsPerWakeup_within, MultipleSlots_single by lia.
  cbn. eexists. split; [reflexivity|]. cbn. auto 10.
Qed.

Lemma same_slot_wakeup_witness :
  LastProcessCount example_state_same_slot = 100
  /\ exists s',
       SCHEDULER_Execute example_platform example_world OS_SUCCESS 0
         example_state_same_slot = Some (true, s')
       /\ Log s' = Log example_state_same_slot
       /\ NextSlotNumber s' = 98
       /\ SameSlotCount s' = 1.
Proof.
  split; [reflexivity|].
  destruct (same_slot_wakeup example_platform example_world 0
              example_state_same_slot example_platform_ok
              ltac:(cbn; lia) eq_refl eq_refl)
    as (s' & Hrun & Hl & _ & Hn & _ & Hs & _).
  exists s'. split; [exact Hrun|]. split; [exact Hl|].
  split; [exact Hn|exact Hs].
Defined.

(** X7: the first wakeup that finds the clock in the slot before
    NextSlotNumber ([LastProcessCount] is not SCHTBL_SLOTS, in a table of
    more than two slots) is taken as an early wakeup: it processes exactly
    the slot NextSlotNumber, records SCHTBL_SLOTS as [LastProcessCount] and
    counts no same, skipped or multiple slot. *)
Theorem early_wakeup_collapse (P : Platform) (W : World) (MicroSeconds : Z)
    (s : SCHEDULER_Class) :
  PlatformOK P -> Inv P s ->
  2 < SCHTBL_SLOTS P ->
  1 <= SCHEDULER_MAX_LAG_COUNT P ->
  1 <= SCHEDULER_MAX_SLOTS_PER_WAKEUP P ->
  GetCurrentSlotNumber P MicroSeconds s
    = (NextSlotNumber s - 1) mod SCHTBL_SLOTS P ->
  LastProcessCount s <> SCHTBL_SLOTS P ->
  exists s',
    SCHEDULER_Execute P W OS_SUCCESS MicroSeconds s = Some (true, s')
    /\ ProcessedSlots (Log s') = ProcessedSlots (Log s) ++ [NextSlotNumber s]
    /\ NextSlotNumber s' = (NextSlotNumber s + 1) mod SCHTBL_SLOTS P
    /\ LastProcessCount s' = store P F_LastProcessCount (SCHTBL_SLOTS P)
    /\ SameSlotCount s' = SameSlotCount s
    /\ SkippedSlotsCount s' = SkippedSlotsCount s
    /\ MultipleSlotsCount s' = MultipleSlotsCount s.
Proof.
  intros HP HI Hslots Hlag Hcap Hcur Hlast.
  pose proof HI as [Hn _].
  pose proof (InitialProcessCount_previous_slot P _ s HP Hn Hcur) as Hpc.
  assert (Hc : 0 <= GetCurrentSlotNumber P MicroSeconds s < SCHTBL_SLOTS P).
  { rewrite Hcur. apply Z.mod_pos_bound. lia. }
  assert (Hrec : Reconcile P (GetCurrentSlotNumber P MicroSeconds s)
                   (NoisyMessage s)
                 = (1, set_LastProcessCount
                         (store P F_LastProcessCount (SCHTBL_SLOTS P))
                         (NoisyMessage s))).
  { unfold Reconcile. rewrite InitialProcessCount_NoisyMessage, Hpc.
    destruct (NoisyMessage_eq s) as [b ->].
    rewrite JitterCorrection_early by (cbn; lia).
    rewrite SameSlot_other, LagLimit_within, SlotsPerWakeup_within,
      MultipleSlots_single by lia.
    reflexivity. }
  destruct (Execute_post P W MicroSeconds s _ _ HP HI Hc Hrec)
    as (s' & Hrun & _ & Hn' & _ & Hl' & Hf).
  exists s'. split; [exact Hrun|].
  rewrite Hl', Hn'.
  pose proof (f_equal LastProcessCount Hf) as H1.
  pose proof (f_equal SameSlotCount Hf) as H2.
  pose proof (f_equal SkippedSlotsCount Hf) as H3.
  pose proof (f_equal MultipleSlotsCount Hf) as H4.
  destruct (NoisyMessage_eq s) as [b Hb]. rewrite Hb in *.
  cbn in *. auto 10.
Qed.

Lemma early_wakeup_collapse_witness :
  LastProcessCount example_state_early <> 100
  /\ exists s',
       SCHEDULER_Execute example_platform example_world OS_SUCCESS 0
         example_state_early = Some (true, s')
       /\ ProcessedSlots (Log s') = [98]
       /\ NextSlotNumber s' = 99.
Proof.
  split; [cbn; lia|].
  destruct (early_wakeup_collapse example_platform example_world 0
              example_state_early example_platform_ok example_inv_early
              ltac:(cbn; lia) ltac:(cbn; lia) ltac:(cbn; lia) eq_refl
              ltac:(cbn; lia))
    as (s' & Hrun & Hl & Hn & _).
  exists s'. split; [exact Hrun|]. split; [exact Hl|exact Hn].
Defined.

(** X8: a wakeup that is [ProcessCount] slots behind, with [ProcessCount]
    below SCHTBL_SLOTS, within SCHEDULER_MAX_LAG_COUNT and
    SCHEDULER_MAX_SLOTS_PER_WAKEUP, and not collapsed by the jitter
    correction, processes the [ProcessCount] slots from NextSlotNumber in
    order, up to the current slot: NextSlotNumber becomes the slot after the
    current one, [TablePassCount] is incremented exactly when the end of the
    table is crossed, [MultipleSlotsCount] is incremented when more than one
    slot is processed, and no slot is skipped. *)
Theorem late_wakeup_catches_up (P : Platform) (W : World)
    (MicroSeconds ProcessCount : Z) (s : SCHEDULER_Class) :
  PlatformOK P -> Inv P s ->
  0 <= GetCurrentSlotNumber P MicroSeconds s < SCHTBL_SLOTS P ->
  InitialProcessCount P (GetCurrentSlotNumber P MicroSeconds s) s
    = ProcessCount ->
  ProcessCount < SCHTBL_SLOTS P ->
  (ProcessCount = 2 -> LastProcessCount s <> 1) ->
  ProcessCount <= SCHEDULER_MAX_LAG_COUNT P ->
  ProcessCount <= SCHEDULER_MAX_SLOTS_PER_WAKEUP P ->
  exists s',
    SCHEDULER_Execute P W OS_SUCCESS MicroSeconds s = Some (true, s')
    /\ ProcessedSlots (Log s')
       = ProcessedSlots (Log s)
         ++ slot_sequence P (NextSlotNumber s) (Z.to_nat ProcessCount)
    /\ NextSlotNumber s'
       = (GetCurrentSlotNumber P MicroSeconds s + 1) mod SCHTBL_SLOTS P
    /\ TablePassCount s'
       = (if (GetCurrentSlotNumber P MicroSeconds s <? NextSlotNumber s)
             || (GetCurrentSlotNumber P MicroSeconds s + 1 =? SCHTBL_SLOTS P)
          then store P F_TablePassCount (TablePassCount s + 1)
          else TablePassCount s)
    /\ LastProcessCount s' = store P F_LastProcessCount ProcessCount
    /\ MultipleSlotsCount s'
       = (if ProcessCount >? 1
          then store P F_MultipleSlotsCount (MultipleSlotsCount s + 1)
          else MultipleSlotsCount s)
    /\ SkippedSlotsCount s' = SkippedSlotsCount s
    /\ SameSlotCount s' = SameSlotCount s.
Proof.
  intros HP HI Hc Hpc Hlt Hjit Hlag Hcap.
  pose proof HI as [Hn _]. pose proof (slots_pos P HP) as Hpos.
  set (cur := GetCurrentSlotNumber P MicroSeconds s) in *.
  pose proof (InitialProcessCount_exact P cur s HP Hn Hc) as Hexact.
  rewrite Hpc in Hexact.
  assert (Hsum : Z.of_nat (Z.to_nat ProcessCount) = ProcessCount
                 /\ NextSlotNumber s + ProcessCount
                    = if cur <? NextSlotNumber s
                      then cur + 1 + 1 * SCHTBL_SLOTS P else cur + 1)
    by (revert Hexact; destruct (cur >=? NextSlotNumber s) eqn:Hge;
        destruct (cur <? NextSlotNumber s) eqn:Hlt'; lia).
  destruct Hsum as [Hnr Hsum].
  assert (Hrec : Reconcile P cur (NoisyMessage s)
                 = (ProcessCount,
                    MultipleSlots P ProcessCount
                      (set_LastProcessCount
                         (store P F_LastProcessCount ProcessCount)
                         (NoisyMessage s)))).
  { unfold Reconcile. rewrite InitialProcessCount_NoisyMessage, Hpc.
    destruct (NoisyMessage_eq s) as [b ->].
    rewrite JitterCorrection_kept by (cbn; auto; lia).
    rewrite SameSlot_other, LagLimit_within, SlotsPerWakeup_within by lia.
    reflexivity. }
  destruct (Execute_post P W MicroSeconds s _ _ HP HI Hc Hrec)
    as (s' & Hrun & _ & Hn' & Ht' & Hl' & Hf).
  exists s'. split; [exact Hrun|].
  pose proof (f_equal LastProcessCount Hf) as H1.
  pose proof (f_equal SameSlotCount Hf) as H2.
  pose proof (f_equal SkippedSlotsCount Hf) as H3.
  pose proof (f_equal MultipleSlotsCount Hf) as H4.
  destruct (NoisyMessage_eq s) as [b Hb]. rewrite Hb in *.
  unfold MultipleSlots in *.
  destruct (ProcessCount >? 1) eqn:Hmulti; cbn in H1, H2, H3, H4, Hn', Ht', Hl'.
  all: rewrite Hnr, Hsum in Hn', Ht'.
  all: split; [exact Hl'|]; split; [|split; [|auto]].
  all: rewrite ?Hn', ?Ht'.
  all: destruct (cur <? NextSlotNumber s) eqn:Hlt'; cbn [orb].
  all: rewrite ?Z.mod_add, ?Z.div_add by lia; try reflexivity.
  all: try (rewrite Z.div_small by lia; reflexivity).
  all: destruct (cur + 1 =? SCHTBL_SLOTS P) eqn:Hend.
  all: try (replace (cur + 1) with (SCHTBL_SLOTS P) by lia;
            rewrite Z.div_same by lia; reflexivity).
  all: rewrite Z.div_small by lia; reflexivity.
Qed.

Lemma late_wakeup_catches_up_witness :
  InitialProcessCount example_platform
    (GetCurrentSlotNumber example_platform 0
       (set_MinorFramesSinceTone 0 example_state))
    (set_MinorFramesSinceTone 0 example_state) = 3
  /\ exists s',
       SCHEDULER_Execute example_platform example_world OS_SUCCESS 0
         (set_MinorFramesSinceTone 0 example_state) = Some (true, s')
       /\ ProcessedSlots (Log s') = [98; 99; 0]
       /\ NextSlotNumber s' = 1.
Proof.
  split; [reflexivity|].
  destruct (late_wakeup_catches_up example_platform example_world 0 3
              (set_MinorFramesSinceTone 0 example_state) example_platform_ok
              example_inv ltac:(cbn; lia) eq_refl ltac:(cbn; lia)
              ltac:(lia) ltac:(cbn; lia) ltac:(cbn; lia))
    as (s' & Hrun & Hl & Hn & _).
  exists s'. split; [exact Hrun|]. split; [exact Hl|exact Hn].
Defined.

(** X9: a wakeup that is more slots behind than
    SCHEDULER_MAX_SLOTS_PER_WAKEUP, but within SCHEDULER_MAX_LAG_COUNT and
    below SCHTBL_SLOTS, processes exactly SCHEDULER_MAX_SLOTS_PER_WAKEUP slots
    from NextSlotNumber in order and stays behind: NextSlotNumber advances by
    that many slots, [LastProcessCount] records the full count, and no slot
    is counted as skipped. *)
Theorem capped_wakeup (P : Platform) (W : World)
    (MicroSeconds ProcessCount : Z) (s : SCHEDULER_Class) :
  PlatformOK P -> Inv P s ->
  0 <= GetCurrentSlotNumber P MicroSeconds s < SCHTBL_SLOTS P ->
  InitialProcessCount P (GetCurrentSlotNumber P MicroSeconds s) s
    = ProcessCount ->
  ProcessCount < SCHTBL_SLOTS P ->
  (ProcessCount = 2 -> LastProcessCount s <> 1) ->
  ProcessCount <= SCHEDULER_MAX_LAG_COUNT P ->
  SCHEDULER_MAX_SLOTS_PER_WAKEUP P < ProcessCount ->
  exists s',
    SCHEDULER_Execute P W OS_SUCCESS MicroSeconds s = Some (true, s')
    /\ ProcessedSlots (Log s')
       = ProcessedSlots (Log s)
         ++ slot_sequence P (NextSlotNumber s)
              (Z.to_nat (SCHEDULER_MAX_SLOTS_PER_WAKEUP P))
    /\ NextSlotNumber s'
       = (NextSlotNumber s + SCHEDULER_MAX_SLOTS_PER_WAKEUP P)
         mod SCHTBL_SLOTS P
    /\ TablePassCount s'
       = (if NextSlotNumber s + SCHEDULER_MAX_SLOTS_PER_WAKEUP P
             >=? SCHTBL_SLOTS P
          then store P F_TablePassCount (TablePassCount s + 1)
          else TablePassCount s)
    /\ LastProcessCount s' = store P F_LastProcessCount ProcessCount
    /\ MultipleSlotsCount s'
       = (if SCHEDULER_MAX_SLOTS_PER_WAKEUP P >? 1
          then store P F_MultipleSlotsCount (MultipleSlotsCount s + 1)
          else MultipleSlotsCount s)
    /\ SkippedSlotsCount s' = SkippedSlotsCount s
    /\ SameSlotCount s' = SameSlotCount s.
Proof.
  intros HP HI Hc Hpc Hlt Hjit Hlag Hcap.
  pose proof HI as [Hn _]. pose proof (slots_pos P HP) as Hpos.
  pose proof (per_wakeup_nonneg P HP) as Hcap0.
  set (cur := GetCurrentSlotNumber P MicroSeconds s) in *.
  set (cap := SCHEDULER_MAX_SLOTS_PER_WAKEUP P) in *.
  assert (Hrec : Reconcile P cur (NoisyMessage s)
                 = (cap,
                    MultipleSlots P cap
                      (set_LastProcessCount
                         (store P F_LastProcessCount ProcessCount)
                         (NoisyMessage s)))).
  { unfold Reconcile. rewrite InitialProcessCount_NoisyMessage, Hpc.
    destruct (NoisyMessage_eq s) as [b ->].
    rewrite JitterCorrection_kept by (cbn; auto; lia).
    rewrite SameSlot_other, LagLimit_within by lia.
    rewrite SlotsPerWakeup_capped by (fold cap; lia).
    reflexivity. }
  destruct (Execute_post P W MicroSeconds s _ _ HP HI Hc Hrec)
    as (s' & Hrun & _ & Hn' & Ht' & Hl' & Hf).
  exists s'. split; [exact Hrun|].
  pose proof (f_equal LastProcessCount Hf) as H1.
  pose proof (f_equal SameSlotCount Hf) as H2.
  pose proof (f_equal SkippedSlotsCount Hf) as H3.
  pose proof (f_equal MultipleSlotsCount Hf) as H4.
  destruct (NoisyMessage_eq s) as [b Hb]. rewrite Hb in *.
  unfold MultipleSlots in *.
  assert (Hnr : Z.of_nat (Z.to_nat cap) = cap) by lia.
  destruct (cap >? 1) eqn:Hmulti; cbn in H1, H2, H3, H4, Hn', Ht', Hl'.
  all: rewrite Hnr in Hn', Ht'.
  all: split; [exact Hl'|]; split; [exact Hn'|]; split; [|auto].
  all: rewrite Ht'.
  all: destruct (NextSlotNumber s + cap >=? SCHTBL_SLOTS P) eqn:Hend.
  all: try (rewrite Z.div_small by lia; reflexivity).
  all: replace (NextSlotNumber s + cap)
         with (NextSlotNumber s + cap - SCHTBL_SLOTS P + 1 * SCHTBL_SLOTS P)
         by lia.
  all: rewrite Z.div_add, Z.div_small by lia; reflexivity.
Qed.

Lemma capped_wakeup_witness :
  InitialProcessCount example_platform
    (GetCurrentSlotNumber example_platform 0
       (set_MinorFramesSinceTone 10 example_state))
    (set_MinorFramesSinceTone 10 example_state) = 13
  /\ exists s',
       SCHEDULER_Execute example_platform example_world OS_SUCCESS 0
         (set_MinorFramesSinceTone 10 example_state) = Some (true, s')
       /\ ProcessedSlots (Log s') = [98; 99; 0; 1; 2]
       /\ NextSlotNumber s' = 3.
Proof.
  split; [reflexivity|].
  destruct (capped_wakeup example_platform example_world 0 13
              (set_MinorFramesSinceTone 10 example_state) example_platform_ok
              example_inv ltac:(cbn; lia) eq_refl ltac:(cbn; lia)
              ltac:(lia) ltac:(cbn; lia) ltac:(cbn; lia))
    as (s' & Hrun & Hl & Hn & _).
  exists s'. split; [exact Hrun|]. split; [exact Hl|exact Hn].
Defined.

(** *** The timer tick and the nominal cycle *)

Lemma MinorFrameCallback_free_running (P : Platform) (us : Z)
    (s : SCHEDULER_Class) :
  FreeRunning P s ->
  MinorFrameCallback P us s
  = MinorFrameRollover P
      (set_MinorFramesSinceTone
         (store P F_MinorFramesSinceTone (MinorFramesSinceTone s + 1)) s).
Proof.
  intros [Hsrc Hfree]. unfold MinorFrameCallback.
  destruct (MajorFrameSource s) eqn:E; try congruence; cbn [is_NONE];
    cbv iota; rewrite E; cbn [is_MINOR_FRAME_TIMER].
  - now rewrite andb_false_r.
  - destruct Hfree as [H0|H0]; [|congruence]. rewrite H0. reflexivity.
Qed.

Lemma MinorFrameCallback_tick (P : Platform) (MicroSeconds : Z)
    (s : SCHEDULER_Class) :
  PlatformOK P ->
  SCHTBL_SLOTS P < 2 ^ bits P F_MinorFramesSinceTone ->
  FreeRunning P s ->
  0 <= MinorFramesSinceTone s < SCHTBL_SLOTS P ->
  let s' := MinorFrameCallback P MicroSeconds s in
  MinorFramesSinceTone s' = (MinorFramesSinceTone s + 1) mod SCHTBL_SLOTS P
  /\ MissedMajorFrameCount s'
     = (if MinorFramesSinceTone s + 1 =? SCHTBL_SLOTS P
        then store P F_MissedMajorFrameCount (MissedMajorFrameCount s + 1)
        else MissedMajorFrameCount s)
  /\ (exists evs,
        Log s' = Log s ++ evs ++ [EvSemGive]
        /\ forall ev, In ev evs -> exists a b, ev = EvTimerSet a b)
  /\ outside_tick s' = outside_tick s.
Proof.
  intros HP Hfit Hfree Hm s'. subst s'.
  rewrite (MinorFrameCallback_free_running P _ s Hfree).
  assert (Hst : store P F_MinorFramesSinceTone (MinorFramesSinceTone s + 1)
                = MinorFramesSinceTone s + 1) by (apply wrap_small; lia).
  unfold MinorFrameRollover. cbn -[Z.geb Z.eqb]. rewrite Hst.
  destruct (MinorFramesSinceTone s + 1 >=? SCHTBL_SLOTS P) eqn:E;
    cbn -[Z.geb Z.eqb];
    destruct (_ =? SCHEDULER_TIME_SYNC_SLOT P) eqn:E'; cbn -[Z.geb Z.eqb].
  all: assert (Hmod : (MinorFramesSinceTone s + 1) mod SCHTBL_SLOTS P
                      = if MinorFramesSinceTone s + 1 =? SCHTBL_SLOTS P
                        then 0 else MinorFramesSinceTone s + 1)
         by (case_if; [replace (MinorFramesSinceTone s + 1)
                         with (SCHTBL_SLOTS P) by lia;
                       apply Z.mod_same; lia
                      |apply Z.mod_small; lia]).
  all: rewrite Hmod; destruct (MinorFramesSinceTone s + 1 =? SCHTBL_SLOTS P)
         eqn:E''; try lia.
  all: split; [reflexivity|]; split; [reflexivity|]; split; [|reflexivity].
  all: rewrite <- ?app_assoc;
       first [ exists []; split; [reflexivity|]
             | eexists [_]; split; [reflexivity|]
             | eexists [_; _]; split; [reflexivity|] ].
  all: intros ev Hin; cbn in Hin;
       repeat (destruct Hin as [<-|Hin]; [eauto|]); destruct Hin.
Qed.

(** X10: a timer tick of a scheduler that is not waiting for the MET
    advances [MinorFramesSinceTone] by one modulo SCHTBL_SLOTS, counts a
    missed major frame exactly when it wraps, sets the timer at most and
    then gives the semaphore once, and changes nothing else. *)
Theorem free_running_tick (P : Platform) (MicroSeconds : Z)
    (s : SCHEDULER_Class) :
  PlatformOK P ->
  SCHTBL_SLOTS P < 2 ^ bits P F_MinorFramesSinceTone ->
  FreeRunning P s ->
  0 <= MinorFramesSinceTone s < SCHTBL_SLOTS P ->
  let s' := MinorFrameCallback P MicroSeconds s in
  MinorFramesSinceTone s' = (MinorFramesSinceTone s + 1) mod SCHTBL_SLOTS P
  /\ MissedMajorFrameCount s'
     = (if MinorFramesSinceTone s + 1 =? SCHTBL_SLOTS P
        then store P F_MissedMajorFrameCount (MissedMajorFrameCount s + 1)
        else MissedMajorFrameCount s)
  /\ (exists evs,
        Log s' = Log s ++ evs ++ [EvSemGive]
        /\ forall ev, In ev evs -> exists a b, ev = EvTimerSet a b)
  /\ outside_tick s' = outside_tick s.
Proof. exact (MinorFrameCallback_tick P MicroSeconds s). Qed.

Lemma ProcessedSlots_none (evs : list Event) :
  (forall ev, In ev evs ->
     match ev with EvSlot _ => False | _ => True end) ->
  ProcessedSlots evs = [].
Proof.
  induction evs as [|ev evs IH]; intros H; [reflexivity|].
  pose proof (H ev (or_introl eq_refl)) as Hev.
  destruct ev; try destruct Hev; cbn; apply IH; intros ev' Hin; apply H;
    now right.
Qed.

Lemma free_running_tick_witness :
  FreeRunning example_platform example_state_early
  /\ MinorFramesSinceTone
       (MinorFrameCallback example_platform 0 example_state_early) = 98.
Proof.
  split; [exact example_free_running|].
  destruct (free_running_tick example_platform 0 example_state_early
              example_platform_ok ltac:(cbn; lia) example_free_running
              ltac:(cbn; lia)) as (Hm & _).
  exact Hm.
Defined.

(** X11: in lockstep (NextSlotNumber is the slot after
    [MinorFramesSinceTone], no MET synchronisation), a timer tick followed by
    a wakeup processes exactly the slot NextSlotNumber and leaves the
    scheduler in lockstep again, with no skipped, same or multiple slot
    counted. *)
Theorem nominal_cycle (P : Platform) (W : World) (us1 us2 : Z)
    (s : SCHEDULER_Class) :
  PlatformOK P -> Inv P s ->
  SCHTBL_SLOTS P < 2 ^ bits P F_MinorFramesSinceTone ->
  2 <= SCHTBL_SLOTS P ->
  1 <= SCHEDULER_MAX_LAG_COUNT P ->
  1 <= SCHEDULER_MAX_SLOTS_PER_WAKEUP P ->
  FreeRunning P s ->
  SyncToMET s = SCHEDULER_SYNCH_FALSE P ->
  0 <= MinorFramesSinceTone s < SCHTBL_SLOTS P ->
  NextSlotNumber s = (MinorFramesSinceTone s + 1) mod SCHTBL_SLOTS P ->
  exists s',
    SCHEDULER_Execute P W OS_SUCCESS us2 (MinorFrameCallback P us1 s)
      = Some (true, s')
    /\ ProcessedSlots (Log s') = ProcessedSlots (Log s) ++ [NextSlotNumber s]
    /\ (Inv P s' /\ FreeRunning P s'
        /\ SyncToMET s' = SCHEDULER_SYNCH_FALSE P
        /\ 0 <= MinorFramesSinceTone s' < SCHTBL_SLOTS P
        /\ NextSlotNumber s'
           = (MinorFramesSinceTone s' + 1) mod SCHTBL_SLOTS P)
    /\ MinorFramesSinceTone s' = NextSlotNumber s
    /\ LastProcessCount s' = 1
    /\ SkippedSlotsCount s' = SkippedSlotsCount s
    /\ SameSlotCount s' = SameSlotCount s
    /\ MultipleSlotsCount s' = MultipleSlotsCount s.
Proof.
  intros HP HI Hfit Hslots Hlag Hcap Hfree Hsync Hm Hlock.
  destruct (MinorFrameCallback_tick P us1 s HP Hfit Hfree Hm)
    as (Hm1 & _ & (evs & Hlog1 & Hevs) & Hout).
  set (s1 := MinorFrameCallback P us1 s) in *.
  assert (Hn1 : NextSlotNumber s1 = NextSlotNumber s)
    by exact (f_equal NextSlotNumber Hout).
  assert (Ht1 : SchTbl s1 = SchTbl s) by exact (f_equal SchTbl Hout).
  assert (Hs1 : SyncToMET s1 = SyncToMET s) by exact (f_equal SyncToMET Hout).
  assert (Hsrc1 : MajorFrameSource s1 = MajorFrameSource s)
    by exact (f_equal MajorFrameSource Hout).
  assert (HI1 : Inv P s1).
  { destruct HI as [Hn [Hlen Hper]]. split; [now rewrite Hn1|].
    split; rewrite Ht1; assumption. }
  assert (Hcur : GetCurrentSlotNumber P us2 s1 = NextSlotNumber s1).
  { unfold GetCurrentSlotNumber. rewrite Hs1, Hsync, Z.eqb_refl. cbn.
    rewrite Hm1, Hn1. now symmetry. }
  pose proof HI1 as [Hnr _].
  assert (Hpc : InitialProcessCount P (NextSlotNumber s1) s1 = 1).
  { rewrite (InitialProcessCount_exact P _ s1 HP Hnr Hnr).
    destruct (_ >=? _) eqn:E; lia. }
  assert (Hst : store P F_LastProcessCount 1 = 1)
    by (apply store_small; [exact HP|lia]).
  assert (Hrec : Reconcile P (GetCurrentSlotNumber P us2 s1) (NoisyMessage s1)
                 = (1, set_LastProcessCount 1 (NoisyMessage s1))).
  { unfold Reconcile. rewrite InitialProcessCount_NoisyMessage, Hcur, Hpc.
    rewrite JitterCorrection_plain, SameSlot_other, LagLimit_within,
      SlotsPerWakeup_within, MultipleSlots_single by lia.
    now rewrite Hst. }
  destruct (Execute_post P W us2 s1 _ _ HP HI1 ltac:(rewrite Hcur; exact Hnr) Hrec)
    as (s' & Hrun & HI' & Hn' & _ & Hl' & Hf).
  exists s'. split; [exact Hrun|].
  pose proof (f_equal MinorFramesSinceTone Hf) as F1.
  pose proof (f_equal SyncToMET Hf) as F2.
  pose proof (f_equal MajorFrameSource Hf) as F3.
  pose proof (f_equal LastProcessCount Hf) as F4.
  pose proof (f_equal SkippedSlotsCount Hf) as F5.
  pose proof (f_equal SameSlotCount Hf) as F6.
  pose proof (f_equal MultipleSlotsCount Hf) as F7.
  pose proof (f_equal SkippedSlotsCount Hout) as G5.
  pose proof (f_equal SameSlotCount Hout) as G6.
  pose proof (f_equal MultipleSlotsCount Hout) as G7.
  destruct (NoisyMessage_eq s1) as [b Hb]. rewrite Hb in *.
  cbn in F1, F2, F3, F4, F5, F6, F7, G5, G6, G7, Hn', Hl'.
  assert (Hps : ProcessedSlots (Log s1) = ProcessedSlots (Log s)).
  { rewrite Hlog1, !ProcessedSlots_app.
    rewrite (ProcessedSlots_none evs).
    - cbn. now rewrite app_nil_r.
    - intros ev Hin. destruct (Hevs ev Hin) as (a & c & ->). exact I. }
  rewrite Hl', Hps, Hn1.
  split; [reflexivity|].
  assert (Hms : MinorFramesSinceTone s' = NextSlotNumber s) by congruence.
  split; [|repeat split; congruence].
  split; [exact HI'|]. split.
  { unfold FreeRunning in *. rewrite F3, F2, Hsrc1, Hs1. exact Hfree. }
  split; [congruence|].
  destruct HI as [Hn _].
  split; [rewrite Hms; exact Hn|].
  rewrite Hn', Hms, Hn1. reflexivity.
Qed.

Lemma nominal_cycle_witness :
  FreeRunning example_platform example_state_early
  /\ NextSlotNumber example_state_early
     = (MinorFramesSinceTone example_state_early + 1) mod 100
  /\ exists s',
       SCHEDULER_Execute example_platform example_world OS_SUCCESS 0
         (MinorFrameCallback example_platform 0 example_state_early)
       = Some (true, s')
       /\ ProcessedSlots (Log s') = [98]
       /\ MinorFramesSinceTone s' = 98
       /\ NextSlotNumber s' = (MinorFramesSinceTone s' + 1) mod 100.
Proof.
  split; [exact example_free_running|]. split; [reflexivity|].
  destruct (nominal_cycle example_platform example_world 0 0
              example_state_early example_platform_ok example_inv_early
              ltac:(cbn; lia) ltac:(cbn; lia) ltac:(cbn; lia) ltac:(cbn; lia)
              example_free_running eq_refl ltac:(cbn; lia) eq_refl)
    as (s' & Hrun & Hl & (_ & _ & _ & _ & Hlock) & Hm & _).
  exists s'. split; [exact Hrun|]. split; [exact Hl|].
  split; [exact Hm|exact Hlock].
Defined.

(** *** The major frame signal *)

(** X12: a major frame signal that is not accepted (clock flywheeling,
    signal ignored, or the noisy signal with which the consecutive count
    reaches SCHEDULER_MAX_NOISY_MF) changes only [LastSyncMETSlot], the noisy
    frame bookkeeping and [IgnoreMajorFrame]: the slot counters, the timer,
    the semaphore and the tables are untouched.  While the clock flywheels
    only [LastSyncMETSlot] changes; otherwise the signal is ignored from then
    on. *)
Theorem major_frame_not_used (P : Platform) (StateFlags MicroSeconds : Z)
    (s : SCHEDULER_Class) :
  MajorFrameAccepted P StateFlags s = false ->
  let s' := MajorFrameCallback P StateFlags MicroSeconds s in
  outside_signal s' = outside_signal s
  /\ LastSyncMETSlot s'
     = store P F_LastSyncMETSlot (GetMETSlotNumber P MicroSeconds)
  /\ (Z.land StateFlags (CFE_TIME_FLAG_FLYING P) <> 0 ->
      s' = set_LastSyncMETSlot (LastSyncMETSlot s') s)
  /\ (Z.land StateFlags (CFE_TIME_FLAG_FLYING P) = 0 ->
      IgnoreMajorFrame s' = true).
Proof.
  unfold MajorFrameAccepted, MajorFrameCallback. intros Hacc.
  destruct (Z.land StateFlags (CFE_TIME_FLAG_FLYING P) =? 0) eqn:Hfl;
    cbn -[Z.geb Z.ltb] in *.
  - destruct (NoisyMajorFrame P s) eqn:Hnoisy, (IgnoreMajorFrame s) eqn:Hign;
      cbn -[Z.geb Z.ltb] in *; rewrite ?Hign; cbn -[Z.geb Z.ltb];
      try discriminate.
    + repeat split; try reflexivity; lia.
    + destruct (_ >=? _) eqn:E; [|lia]. cbn. repeat split; lia.
    + repeat split; try reflexivity; lia.
  - repeat split; try reflexivity; lia.
Qed.

Lemma major_frame_not_used_witness :
  MajorFrameAccepted example_platform 0 example_state = false
  /\ IgnoreMajorFrame (MajorFrameCallback example_platform 0 0 example_state)
     = true.
Proof.
  split; [reflexivity|].
  destruct (major_frame_not_used example_platform 0 0 example_state eq_refl)
    as (_ & _ & _ & H).
  apply H. reflexivity.
Defined.

(** X13: an accepted major frame signal restarts the minor frame timer
    with the normal period, gives the semaphore, sets [MinorFramesSinceTone]
    to 0, counts a valid major frame, makes cFE TIME the major frame source
    and keeps only the minor-sync flag of [SyncToMET]; NextSlotNumber,
    [TablePassCount] and the table are unchanged. *)
Theorem major_frame_accepted (P : Platform) (StateFlags MicroSeconds : Z)
    (s : SCHEDULER_Class) :
  MajorFrameAccepted P StateFlags s = true ->
  let s' := MajorFrameCallback P StateFlags MicroSeconds s in
  MinorFramesSinceTone s' = 0
  /\ ValidMajorFrameCount s'
     = store P F_ValidMajorFrameCount (ValidMajorFrameCount s + 1)
  /\ MajorFrameSource s' = SCHEDULER_MF_SOURCE_CFE_TIME
  /\ SyncToMET s'
     = store P F_SyncToMET (Z.land (SyncToMET s) (SCHEDULER_SYNCH_TO_MINOR P))
  /\ Log s'
     = Log s ++ [EvTimerSet (SCHEDULER_NORMAL_SLOT_PERIOD P)
                   (SCHEDULER_NORMAL_SLOT_PERIOD P); EvSemGive]
  /\ LastSyncMETSlot s'
     = store P F_LastSyncMETSlot (GetMETSlotNumber P MicroSeconds)
  /\ IgnoreMajorFrame s' = false
  /\ UnexpectedMajorFrame s' = NoisyMajorFrame P s
  /\ UnexpectedMajorFrameCount s'
     = (if NoisyMajorFrame P s
        then store P F_UnexpectedMajorFrameCount
               (UnexpectedMajorFrameCount s + 1)
        else UnexpectedMajorFrameCount s)
  /\ ConsecutiveNoisyFrameCounter s'
     = (if NoisyMajorFrame P s
        then store P F_ConsecutiveNoisyFrameCounter
               (ConsecutiveNoisyFrameCounter s + 1)
        else 0)
  /\ NextSlotNumber s' = NextSlotNumber s
  /\ TablePassCount s' = TablePassCount s
  /\ SchTbl s' = SchTbl s.
Proof.
  unfold MajorFrameAccepted, MajorFrameCallback. intros Hacc.
  apply andb_true_iff in Hacc as [Hacc Hcls].
  apply andb_true_iff in Hacc as [Hfl Hign].
  apply negb_true_iff in Hign. rewrite Hfl.
  destruct (NoisyMajorFrame P s) eqn:Hnoisy; cbn -[Z.geb Z.ltb] in *;
    rewrite ?Hign; cbn -[Z.geb Z.ltb].
  - destruct (_ >=? _) eqn:E; [lia|]. cbn -[Z.geb Z.ltb].
    rewrite Hign. cbn. rewrite <- app_assoc. repeat split; exact Hign.
  - cbn. rewrite <- app_assoc. repeat split; exact Hign.
Qed.

Lemma major_frame_accepted_witness :
  MajorFrameAccepted example_platform 0 example_state_late = true
  /\ MinorFramesSinceTone
       (MajorFrameCallback example_platform 0 0 example_state_late) = 0
  /\ ValidMajorFrameCount
       (MajorFrameCallback example_platform 0 0 example_state_late) = 8.
Proof.
  split; [reflexivity|].
  destruct (major_frame_accepted example_platform 0 0 example_state_late
              eq_refl) as (Hm & Hv & _).
  split; [exact Hm|exact Hv].
Defined.

(** *** Synchronisation with the MET *)

Lemma testbit_wrap (w x i : Z) :
  0 <= w -> Z.testbit (wrap w x) i = (i <? w) && Z.testbit x i.
Proof. intros Hw. unfold wrap. now apply Z.testbit_mod_pow2. Qed.

Lemma testbit_fits (w m i : Z) :
  0 <= w -> 0 <= m < 2 ^ w -> Z.testbit m i = (i <? w) && Z.testbit m i.
Proof.
  intros Hw Hm. rewrite <- testbit_wrap by exact Hw.
  now rewrite wrap_small.
Qed.

Lemma flag_set (w x m : Z) :
  0 <= w -> 0 <= m < 2 ^ w -> Z.land (wrap w (Z.lor x m)) m = m.
Proof.
  intros Hw Hm. apply Z.bits_inj'. intros i Hi.
  rewrite Z.land_spec, testbit_wrap, Z.lor_spec by exact Hw.
  rewrite (testbit_fits w m i Hw Hm).
  destruct (i <? w), (Z.testbit x i), (Z.testbit m i); reflexivity.
Qed.

Lemma flag_cleared (w x p m : Z) :
  0 <= w -> Z.land m p = 0 ->
  Z.land (wrap w (Z.lor (wrap w (Z.land x (Z.lnot p))) m)) p = 0.
Proof.
  intros Hw Hmp. apply Z.bits_inj'. intros i Hi.
  pose proof (f_equal (fun z => Z.testbit z i) Hmp) as Hb. cbn in Hb.
  rewrite Z.land_spec, Z.bits_0 in Hb.
  rewrite Z.land_spec, !testbit_wrap, Z.lor_spec, testbit_wrap, Z.land_spec,
    Z.lnot_spec, Z.bits_0 by lia.
  destruct (i <? w), (Z.testbit x i), (Z.testbit m i), (Z.testbit p i);
    cbn in *; congruence.
Qed.

Lemma MinorFrameCallback_pending (P : Platform) (us : Z)
    (s : SCHEDULER_Class) :
  Pending P s ->
  MinorFrameCallback P us s
  = (let s1 :=
       set_SyncAttemptsLeft
         (store P F_SyncAttemptsLeft (SyncAttemptsLeft s - 1))
         (log (EvTimerSet (SCHEDULER_NORMAL_SLOT_PERIOD P)
                 (SCHEDULER_NORMAL_SLOT_PERIOD P)) s) in
     if negb (GetMETSlotNumber P us =? 0) && (SyncAttemptsLeft s1 >? 0)
     then s1
     else
       MinorFrameRollover P
         (set_LastSyncMETSlot 0
            (set_MinorFramesSinceTone
               (store P F_MinorFramesSinceTone (GetMETSlotNumber P us))
               (set_SyncToMET
                  (store P F_SyncToMET
                     (Z.lor
                        (store P F_SyncToMET
                           (Z.land (SyncToMET s)
                              (Z.lnot (SCHEDULER_SYNCH_MAJOR_PENDING P))))
                        (SCHEDULER_SYNCH_TO_MAJOR P)))
                  s1)))).
Proof.
  intros [Hp Hsrc]. unfold MinorFrameCallback. rewrite Hsrc. cbn [is_NONE].
  cbv iota. rewrite Hsrc. cbn [is_MINOR_FRAME_TIMER].
  destruct (Z.land (SyncToMET s) (SCHEDULER_SYNCH_MAJOR_PENDING P) =? 0) eqn:E;
    [lia|].
  cbn -[Z.gtb Z.eqb]. destruct (_ && _); reflexivity.
Qed.

(** X14: while the scheduler waits to synchronise the major frame with the
    MET, a timer tick uses up one attempt and restarts the timer.  If the MET
    slot is not 0 and attempts are left it does nothing else: the semaphore
    is not given and the wait goes on.  Otherwise the wait ends: the pending
    flag is cleared, the in-sync flag is set, [MinorFramesSinceTone] is taken
    from the MET slot and the semaphore is given. *)
Theorem met_sync_attempt (P : Platform) (MicroSeconds : Z)
    (s : SCHEDULER_Class) :
  PlatformOK P -> FlagsOK P -> Pending P s ->
  let attempts := store P F_SyncAttemptsLeft (SyncAttemptsLeft s - 1) in
  let s' := MinorFrameCallback P MicroSeconds s in
  (GetMETSlotNumber P MicroSeconds <> 0 -> 0 < attempts ->
     s' = set_SyncAttemptsLeft attempts
            (log (EvTimerSet (SCHEDULER_NORMAL_SLOT_PERIOD P)
                    (SCHEDULER_NORMAL_SLOT_PERIOD P)) s)
     /\ Pending P s')
  /\ (GetMETSlotNumber P MicroSeconds = 0 \/ attempts <= 0 ->
      FreeRunning P s'
      /\ Z.land (SyncToMET s') (SCHEDULER_SYNCH_TO_MAJOR P)
         = SCHEDULER_SYNCH_TO_MAJOR P
      /\ LastSyncMETSlot s' = 0
      /\ MinorFramesSinceTone s'
         = (let m := store P F_MinorFramesSinceTone
                       (GetMETSlotNumber P MicroSeconds) in
            if m >=? SCHTBL_SLOTS P then 0 else m)
      /\ SyncAttemptsLeft s' = attempts
      /\ exists evs,
           Log s'
           = Log s
             ++ EvTimerSet (SCHEDULER_NORMAL_SLOT_PERIOD P)
                  (SCHEDULER_NORMAL_SLOT_PERIOD P) :: evs ++ [EvSemGive]
           /\ forall ev, In ev evs -> exists a b, ev = EvTimerSet a b).
Proof.
  intros HP (Hpend & Hmajor & Hdisj) Hp attempts s'. subst s'.
  rewrite (MinorFrameCallback_pending P _ s Hp).
  pose proof (bits_range P HP F_SyncToMET) as Hw.
  cbn -[Z.gtb Z.eqb Z.geb]. fold attempts.
  split.
  - intros Hslot Hatt.
    destruct (GetMETSlotNumber P MicroSeconds =? 0) eqn:E; [lia|].
    destruct (attempts >? 0) eqn:E'; [|lia]. cbn. split; [reflexivity|].
    exact Hp.
  - intros Hdone.
    assert (Hc : negb (GetMETSlotNumber P MicroSeconds =? 0) && (attempts >? 0)
                 = false) by lia.
    rewrite Hc. unfold MinorFrameRollover.
    destruct Hp as [_ Hsrc].
    unfold FreeRunning. cbn -[Z.geb Z.eqb].
    repeat case_if; cbn -[Z.geb Z.eqb]; rewrite ?Hsrc;
      (split; [split; [congruence|left; apply flag_cleared; [lia|exact Hdisj]]|]);
      (split; [apply flag_set; [lia|exact Hmajor]|]);
      (split; [reflexivity|]); (split; [try reflexivity; try lia|]);
      (split; [reflexivity|]); rewrite <- ?app_assoc; cbn [app];
      first [ exists []; split; [reflexivity|]
            | eexists [_]; split; [reflexivity|]
            | eexists [_; _]; split; [reflexivity|] ];
      intros ev Hin; cbn in Hin;
      repeat (destruct Hin as [<-|Hin]; [eauto|]); destruct Hin.
Qed.

Lemma met_sync_attempt_witness :
  Pending example_platform example_state_pending
  /\ Pending example_platform
       (MinorFrameCallback example_platform 15000 example_state_pending)
  /\ FreeRunning example_platform
       (MinorFrameCallback example_platform 999999 example_state_pending).
Proof.
  split; [exact example_pending|]. split.
  - destruct (met_sync_attempt example_platform 15000 example_state_pending
                example_platform_ok example_flags_ok example_pending)
      as [H _].
    exact (proj2 (H ltac:(vm_compute; discriminate) ltac:(vm_compute; reflexivity))).
  - destruct (met_sync_attempt example_platform 999999 example_state_pending
                example_platform_ok example_flags_ok example_pending)
      as [_ H].
    exact (proj1 (H (or_introl eq_refl))).
Defined.

Lemma MinorFrameCallback_keeps_free_running (P : Platform) (us : Z)
    (s : SCHEDULER_Class) :
  FreeRunning P s -> FreeRunning P (MinorFrameCallback P us s).
Proof.
  intros Hfree. rewrite (MinorFrameCallback_free_running P us s Hfree).
  unfold FreeRunning, MinorFrameRollover in *.
  repeat case_if; exact Hfree.
Qed.

Lemma MinorFrameCallbacks_keep_free_running (P : Platform)
    (readings : list Z) :
  forall s, FreeRunning P s -> FreeRunning P (MinorFrameCallbacks P readings s).
Proof.
  induction readings as [|us readings IH]; intros s Hfree; [exact Hfree|].
  apply IH. now apply MinorFrameCallback_keeps_free_running.
Qed.

(** The first tick after power-on is the first tick of a wait with
    SCHEDULER_MAX_SYNC_ATTEMPTS attempts. *)
Lemma MinorFrameCallback_first (P : Platform) (us : Z) (s : SCHEDULER_Class) :
  PlatformOK P -> FlagsOK P ->
  MajorFrameSource s = SCHEDULER_MF_SOURCE_NONE ->
  exists s0,
    MinorFrameCallback P us s = MinorFrameCallback P us s0
    /\ Pending P s0
    /\ SyncAttemptsLeft s0
       = store P F_SyncAttemptsLeft (SCHEDULER_MAX_SYNC_ATTEMPTS P)
    /\ Log s0 = Log s.
Proof.
  intros HP (Hpend & _ & _) Hsrc.
  pose proof (bits_range P HP F_SyncToMET) as Hw.
  eexists (set_LastSyncMETSlot 0
             (set_SyncAttemptsLeft
                (store P F_SyncAttemptsLeft (SCHEDULER_MAX_SYNC_ATTEMPTS P))
                (set_SyncToMET
                   (store P F_SyncToMET
                      (Z.lor (SyncToMET s) (SCHEDULER_SYNCH_MAJOR_PENDING P)))
                   (set_MajorFrameSource SCHEDULER_MF_SOURCE_MINOR_FRAME_TIMER
                      s)))).
  split; [|split; [|split; reflexivity]].
  - unfold MinorFrameCallback at 1 2. rewrite Hsrc. reflexivity.
  - split; [|reflexivity]. cbn.
    unfold store. rewrite flag_set by lia. lia.
Qed.

Lemma pending_wait_ends (P : Platform) (readings : list Z) :
  PlatformOK P -> FlagsOK P ->
  forall s,
  Pending P s ->
  0 < SyncAttemptsLeft s < 2 ^ bits P F_SyncAttemptsLeft ->
  SyncAttemptsLeft s <= Z.of_nat (length readings) ->
  FreeRunning P (MinorFrameCallbacks P readings s).
Proof.
  intros HP HF.
  induction readings as [|us readings IH]; intros s Hp Ha Hlen;
    [cbn in Hlen; lia|].
  cbn [MinorFrameCallbacks fold_left].
  change (fold_left _ readings ?x) with (MinorFrameCallbacks P readings x).
  assert (Hst : store P F_SyncAttemptsLeft (SyncAttemptsLeft s - 1)
                = SyncAttemptsLeft s - 1) by (apply wrap_small; lia).
  pose proof (MinorFrameCallback_pending P us s Hp) as Heq.
  cbn -[Z.gtb Z.eqb] in Heq. rewrite Hst in Heq.
  destruct (negb (GetMETSlotNumber P us =? 0) && (SyncAttemptsLeft s - 1 >? 0))
    eqn:E.
  - rewrite Heq. apply IH.
    + exact Hp.
    + cbn. lia.
    + cbn. cbn [length] in Hlen. lia.
  - apply MinorFrameCallbacks_keep_free_running.
    destruct HF as (Hpend & Hmajor & Hdisj).
    pose proof (bits_range P HP F_SyncToMET) as Hw.
    destruct Hp as [_ Hsrc].
    rewrite Heq. unfold FreeRunning, MinorFrameRollover.
    cbn -[Z.geb Z.eqb].
    repeat case_if; cbn -[Z.geb Z.eqb]; rewrite ?Hsrc;
      (split; [congruence|left; apply flag_cleared; [lia|exact Hdisj]]).
Qed.

Lemma first_wait_ends (P : Platform) (readings : list Z)
    (s : SCHEDULER_Class) :
  PlatformOK P -> FlagsOK P ->
  MajorFrameSource s = SCHEDULER_MF_SOURCE_NONE ->
  0 < SCHEDULER_MAX_SYNC_ATTEMPTS P < 2 ^ bits P F_SyncAttemptsLeft ->
  SCHEDULER_MAX_SYNC_ATTEMPTS P <= Z.of_nat (length readings) ->
  FreeRunning P (MinorFrameCallbacks P readings s).
Proof.
  intros HP HF Hsrc Hmax Hlen.
  destruct readings as [|us readings]; [cbn in Hlen; lia|].
  destruct (MinorFrameCallback_first P us s HP HF Hsrc)
    as (s0 & Heq & Hp & Ha & _).
  cbn [MinorFrameCallbacks fold_left]. rewrite Heq.
  change (FreeRunning P (MinorFrameCallbacks P (us :: readings) s0)).
  unfold store in Ha. rewrite wrap_small in Ha by lia.
  apply pending_wait_ends; auto; rewrite Ha; lia.
Qed.

(** X15: the wait for the MET ends after at most [SyncAttemptsLeft] timer
    ticks, whatever the MET readings; from power-on ([MajorFrameSource] is
    NONE) it ends after at most SCHEDULER_MAX_SYNC_ATTEMPTS ticks. *)
Theorem met_sync_terminates (P : Platform) (readings : list Z)
    (s : SCHEDULER_Class) :
  PlatformOK P -> FlagsOK P ->
  (Pending P s ->
   0 < SyncAttemptsLeft s < 2 ^ bits P F_SyncAttemptsLeft ->
   SyncAttemptsLeft s <= Z.of_nat (length readings) ->
   FreeRunning P (MinorFrameCallbacks P readings s))
  /\ (MajorFrameSource s = SCHEDULER_MF_SOURCE_NONE ->
      0 < SCHEDULER_MAX_SYNC_ATTEMPTS P < 2 ^ bits P F_SyncAttemptsLeft ->
      SCHEDULER_MAX_SYNC_ATTEMPTS P <= Z.of_nat (length readings) ->
      FreeRunning P (MinorFrameCallbacks P readings s)).
Proof.
  intros HP HF. split.
  - now apply pending_wait_ends.
  - now apply first_wait_ends.
Qed.

Lemma met_sync_terminates_witness :
  Pending example_platform example_state_pending
  /\ FreeRunning example_platform
       (MinorFrameCallbacks example_platform [15000; 25000]
          example_state_pending).
Proof.
  split; [exact example_pending|].
  destruct (met_sync_terminates example_platform [15000; 25000]
              example_state_pending example_platform_ok example_flags_ok)
    as [H _].
  apply H; [exact example_pending|cbn; lia|cbn; lia].
Defined.

(** The slot executor and the reconciler leave the synchronisation state
    alone. *)
Lemma ProcessEntry_outside (P : Platform) (W : World) (k : Z) (i : nat)
    (s s' : SCHEDULER_Class) :
  ProcessEntry P W k i s = Some s' -> outside_entries s' = outside_entries s.
Proof.
  unfold ProcessEntry. destruct (SchTbl s !! i) as [e|]; [cbn|discriminate].
  repeat case_if; intros [= <-]; reflexivity.
Qed.

Lemma ProcessEntries_outside (P : Platform) (W : World) (n : nat) :
  forall k i s s',
  ProcessEntries P W n k i s = Some s' ->
  outside_entries s' = outside_entries s.
Proof.
  induction n as [|n IH]; intros k i s s'; cbn.
  - now intros [= <-].
  - destruct (ProcessEntry P W k i s) as [s1|] eqn:E; [cbn|discriminate].
    intros H. rewrite (IH _ _ _ _ H).
    eapply ProcessEntry_outside; eauto.
Qed.

Lemma ProcessNextSlot_outside (P : Platform) (W : World)
    (s s' : SCHEDULER_Class) (r : Z) :
  ProcessNextSlot P W s = Some (r, s') -> outside_slot s' = outside_slot s.
Proof.
  unfold ProcessNextSlot.
  destruct (ProcessEntries P W _ _ _ s) as [sm|] eqn:E; [cbn|discriminate].
  intros [= _ <-]. unfold outside_slot.
  rewrite <- (ProcessEntries_outside _ _ _ _ _ _ _ E).
  case_if; reflexivity.
Qed.

Lemma ProcessSlots_outside (P : Platform) (W : World) (n : nat) :
  forall r s r' s',
  ProcessSlots P W n r s = Some (r', s') -> outside_slot s' = outside_slot s.
Proof.
  induction n as [|n IH]; intros r s r' s'; cbn [ProcessSlots].
  - now intros [= _ <-].
  - destruct (r =? CFE_SUCCESS); [|now intros [= _ <-]].
    destruct (ProcessNextSlot P W s) as [[r1 s1]|] eqn:E; [cbn|discriminate].
    intros H. rewrite (IH _ _ _ _ H).
    eapply ProcessNextSlot_outside; eauto.
Qed.

Lemma Execute_sync_state (P : Platform) (W : World) (take us : Z)
    (s s' : SCHEDULER_Class) (b : bool) :
  SCHEDULER_Execute P W take us s = Some (b, s') ->
  SyncToMET s' = SyncToMET s /\ MajorFrameSource s' = MajorFrameSource s.
Proof.
  unfold SCHEDULER_Execute.
  destruct (take =? OS_SUCCESS); [|now intros [= _ <-]].
  pose proof (Reconcile_outside P
                (GetCurrentSlotNumber P us (NoisyMessage s)) s) as Hrec.
  destruct (Reconcile P _ (NoisyMessage s)) as [pc sr]. cbn [snd] in Hrec.
  destruct (ProcessSlots P W (Z.to_nat pc) take sr) as [[r s1]|] eqn:E;
    [cbn|discriminate].
  intros [= _ <-].
  pose proof (ProcessSlots_outside _ _ _ _ _ _ _ E) as Hrun.
  split.
  - apply (f_equal SyncToMET) in Hrun, Hrec. cbn in Hrun, Hrec. congruence.
  - apply (f_equal MajorFrameSource) in Hrun, Hrec. cbn in Hrun, Hrec.
    congruence.
Qed.

Lemma Step_time_source (P : Platform) (W : World) (s s' : SCHEDULER_Class) :
  Step P W s s' ->
  (MajorFrameSource s = SCHEDULER_MF_SOURCE_CFE_TIME ->
   MajorFrameSource s' = SCHEDULER_MF_SOURCE_CFE_TIME)
  /\ (FreeRunning P s -> FreeRunning P s').
Proof.
  intros Hstep. destruct Hstep as [fl us s _|us s _|take us s b s' _ Hex|s].
  - split.
    + intros Hsrc. unfold MajorFrameCallback.
      repeat case_if; cbn; auto.
    + intros Hfree. unfold MajorFrameCallback, FreeRunning in *.
      repeat case_if; cbn; auto; split; try congruence; right; congruence.
  - split.
    + intros Hsrc. unfold MinorFrameCallback, MinorFrameRollover.
      rewrite Hsrc. cbn [is_NONE]. cbv iota. rewrite Hsrc.
      cbn [is_MINOR_FRAME_TIMER]. rewrite andb_false_r.
      repeat case_if; cbn; auto.
    + apply MinorFrameCallback_keeps_free_running.
  - destruct (Execute_sync_state _ _ _ _ _ _ _ Hex) as [Hsync Hsrc].
    unfold FreeRunning. rewrite Hsync, Hsrc. auto.
  - split; auto.
Qed.

(** X16: over any sequence of major frame signals, timer ticks, wakeups
    and resets, cFE TIME stays the major frame source once it is, and a
    scheduler that is not waiting for the MET never waits again and never
    returns to the source NONE. *)
Theorem run_keeps_time_source (P : Platform) (W : World)
    (s s' : SCHEDULER_Class) :
  rtc (Step P W) s s' ->
  (MajorFrameSource s = SCHEDULER_MF_SOURCE_CFE_TIME ->
   MajorFrameSource s' = SCHEDULER_MF_SOURCE_CFE_TIME)
  /\ (FreeRunning P s ->
      FreeRunning P s'
      /\ MajorFrameSource s' <> SCHEDULER_MF_SOURCE_NONE).
Proof.
  intros Hsteps. induction Hsteps as [|s s1 s2 Hstep _ IH].
  - split; [auto|]. intros Hfree. split; [exact Hfree|apply Hfree].
  - destruct (Step_time_source P W s s1 Hstep) as [H1 H2].
    destruct IH as [IH1 IH2]. split; auto.
Qed.

Lemma run_keeps_time_source_witness :
  rtc (Step example_platform example_world) example_state_slot1
    example_after_wakeup
  /\ MajorFrameSource example_after_wakeup = SCHEDULER_MF_SOURCE_CFE_TIME.
Proof.
  split; [exact example_wakeup_steps|].
  destruct (run_keeps_time_source example_platform example_world
              example_state_slot1 example_after_wakeup example_wakeup_steps)
    as [H _].
  apply H. reflexivity.
Defined.

(** *** The entry commands *)

Lemma TableOK_insert (P : Platform) (s : SCHEDULER_Class) (i : nat)
    (e : SCHTBL_Entry) :
  TableOK P s ->
  (Enabled e = true -> 0 < Period e) ->
  TableOK P (set_SchTbl (<[i := e]> (SchTbl s)) s).
Proof.
  intros [Hlen Hs] He. split; cbn.
  - now rewrite length_insert.
  - intros j e' Hj.
    destruct (decide (i = j)) as [->|Hne].
    + destruct (decide (j < length (SchTbl s))%nat) as [Hlt|Hge].
      * rewrite list_lookup_insert_eq in Hj by exact Hlt.
        injection Hj as <-. exact He.
      * rewrite list_insert_ge in Hj by lia. eauto.
    + rewrite list_lookup_insert_ne in Hj by exact Hne. eauto.
Qed.

Lemma SlotInv_insert (P : Platform) (s : SCHEDULER_Class) (i : nat)
    (e : SCHTBL_Entry) :
  SlotInv P s ->
  (Enabled e = true -> 0 < Period e) ->
  SlotInv P (set_SchTbl (<[i := e]> (SchTbl s)) s).
Proof.
  intros ([Hn Ht] & Hm & Hl) He.
  split; [split; [exact Hn|now apply TableOK_insert]|split; assumption].
Qed.

Lemma EntryCmdPost_rejected (Index : option Z) (s : SCHEDULER_Class) :
  EntryCmdPost Index s s false.
Proof.
  split; [now destruct s|]. split; [reflexivity|]. split; [auto|].
  split; [discriminate|auto].
Qed.

Lemma EntryCmdPost_insert (Index : Z) (e : SCHTBL_Entry)
    (s : SCHEDULER_Class) :
  EntryCmdPost (Some Index) s
    (set_SchTbl (<[Z.to_nat Index := e]> (SchTbl s)) s) true.
Proof.
  split; [now destruct s|]. split; [cbn; now rewrite length_insert|].
  split; [discriminate|]. split; [eauto|].
  intros i j [= <-] Hj. cbn. now apply list_lookup_insert_ne.
Qed.

(** X17: the config-entry and load-entry commands always return (the
    index they use lies in the table), keep the slot invariant (they never
    produce an enabled entry with a zero period), change nothing but the
    table entry selected by the slot and the activity of the command, and
    change nothing when they return false. *)
Theorem entry_commands_keep_invariant (P : Platform) (W : World)
    (s : SCHEDULER_Class) :
  ValidatorsOK W -> IndexOK W s -> SlotInv P s ->
  (forall i e, SchTbl s !! i = Some e -> 0 <= Offset e) ->
  (forall Cmd,
     exists b s',
       SCHEDULER_ConfigSchEntryCmd W Cmd s = Some (b, s')
       /\ SlotInv P s'
       /\ EntryCmdPost
            (SCHTBL_GetEntryIndex W (ConfigSchEntryCmdMsg.Slot Cmd)
               (ConfigSchEntryCmdMsg.Activity Cmd)) s s' b)
  /\ (forall Cmd,
        0 <= LoadSchEntryCmdMsg.Offset Cmd ->
        exists b s',
          SCHEDULER_LoadSchEntryCmd W Cmd s = Some (b, s')
          /\ SlotInv P s'
          /\ EntryCmdPost
               (SCHTBL_GetEntryIndex W (LoadSchEntryCmdMsg.Slot Cmd)
                  (LoadSchEntryCmdMsg.Activity Cmd)) s s' b).
Proof.
  intros [Hvalid Hbool] Hidx HI Hoff. split.
  - intros Cmd. unfold SCHEDULER_ConfigSchEntryCmd.
    destruct (SCHTBL_GetEntryIndex W _ _) as [Index|] eqn:Hget;
      [|eauto using EntryCmdPost_rejected].
    destruct (Hidx _ _ _ Hget) as [_ Hlt].
    destruct (lookup_lt_is_Some_2 _ _ Hlt) as [Entry Hlook].
    destruct (CMDMGR_ValidBoolArg W _) eqn:Hb;
      [|eauto using EntryCmdPost_rejected].
    rewrite Hlook; cbn.
    destruct (ConfigSchEntryCmdMsg.Enabled Cmd =? 1) eqn:Hen; cbn.
    + destruct (SCHTBL_ValidEntry W _ _ _ _) eqn:Hv;
        [|eauto using EntryCmdPost_rejected].
      do 2 eexists. split; [reflexivity|].
      split; [|apply EntryCmdPost_insert].
      apply SlotInv_insert; [exact HI|]. cbn. intros _.
      destruct (Z_lt_dec (Offset Entry) (Period Entry)) as [H|H].
      * specialize (Hoff _ _ Hlook). lia.
      * rewrite (Hvalid _ _ _ _ H) in Hv. discriminate.
    + do 2 eexists. split; [reflexivity|].
      split; [|apply EntryCmdPost_insert].
      apply SlotInv_insert; [exact HI|]. cbn.
      destruct (Hbool _ Hb) as [H|H]; [|lia]. rewrite H. discriminate.
  - intros Cmd Hoffc. unfold SCHEDULER_LoadSchEntryCmd.
    destruct (SCHTBL_GetEntryIndex W _ _) as [Index|] eqn:Hget;
      [|eauto using EntryCmdPost_rejected].
    destruct (Hidx _ _ _ Hget) as [_ Hlt].
    destruct (lookup_lt_is_Some_2 _ _ Hlt) as [Entry Hlook].
    destruct (SCHTBL_ValidEntry W _ _ _ _) eqn:Hv;
      [|eauto using EntryCmdPost_rejected].
    rewrite Hlook; cbn.
    do 2 eexists. split; [reflexivity|].
    split; [|apply EntryCmdPost_insert].
    apply SlotInv_insert; [exact HI|]. cbn. intros _.
    destruct (Z_lt_dec (LoadSchEntryCmdMsg.Offset Cmd)
                (LoadSchEntryCmdMsg.Period Cmd)) as [H|H]; [lia|].
    rewrite (Hvalid _ _ _ _ H) in Hv. discriminate.
Qed.

Lemma entry_commands_keep_invariant_witness :
  SlotInv example_platform example_state
  /\ exists b s',
       SCHEDULER_ConfigSchEntryCmd example_world example_disable_cmd
         example_state = Some (b, s')
       /\ SlotInv example_platform s'.
Proof.
  split; [exact example_slot_inv|].
  destruct (entry_commands_keep_invariant example_platform example_world
              example_state example_validators_ok example_index_ok
              example_slot_inv example_offsets_ok) as [H _].
  destruct (H example_disable_cmd) as (b & s' & Hrun & HI & _).
  exists b, s'. split; [exact Hrun|exact HI].
Defined.

(** X18: a config-entry command that disables an entry is accepted, and
    in any run of the scheduler after it the entry stays disabled and no
    dispatch is recorded for it. *)
Theorem disabled_entry_not_dispatched (P : Platform) (W : World)
    (Cmd : ConfigSchEntryCmdMsg.t) (Index : Z) (s : SCHEDULER_Class) :
  PlatformOK P -> IndexOK W s -> SlotInv P s ->
  SCHTBL_GetEntryIndex W (ConfigSchEntryCmdMsg.Slot Cmd)
    (ConfigSchEntryCmdMsg.Activity Cmd) = Some Index ->
  ConfigSchEntryCmdMsg.Enabled Cmd = 0 ->
  CMDMGR_ValidBoolArg W 0 = true ->
  exists s1,
    SCHEDULER_ConfigSchEntryCmd W Cmd s = Some (true, s1)
    /\ forall s2,
         rtc (Step P W) s1 s2 ->
         (forall e, SchTbl s2 !! Z.to_nat Index = Some e -> Enabled e = false)
         /\ exists evs,
              Log s2 = Log s ++ evs
              /\ forall Slot EntryNumber MsgIndex Status,
                   In (EvDispatch Slot EntryNumber MsgIndex Status) evs ->
                   Z.to_nat (Slot * SCHTBL_ACTIVITIES_PER_SLOT P + EntryNumber)
                   <> Z.to_nat Index.
Proof.
  intros HP Hidx HI Hget Hen Hb.
  destruct (Hidx _ _ _ Hget) as [_ Hlt].
  destruct (lookup_lt_is_Some_2 _ _ Hlt) as [Entry Hlook].
  unfold SCHEDULER_ConfigSchEntryCmd. rewrite Hget, Hen, Hb, Hlook. cbn.
  eexists. split; [reflexivity|].
  intros s2 Hsteps.
  set (s1 := set_SchTbl _ s) in *.
  assert (HI1 : SlotInv P s1)
    by (apply SlotInv_insert; [exact HI|discriminate]).
  assert (H1 : SchTbl s1 !! Z.to_nat Index = Some (set_Enabled false Entry))
    by (cbn; now apply list_lookup_insert_eq).
  destruct (Steps_RunPost P W s1 s2 HP Hsteps HI1)
    as ([_ Hkeep] & _ & evs & Hlog & Hd).
  split.
  - intros e He.
    destruct (Hkeep _ _ H1) as [H|[_ H]]; rewrite H in He;
      injection He as <-; reflexivity.
  - exists evs. split; [exact Hlog|].
    intros Slot En m st Hin Heq.
    destruct (Hd _ _ _ _ Hin) as (_ & _ & e & He & Hena & _).
    rewrite Heq, H1 in He. injection He as <-. discriminate.
Qed.

Lemma disabled_entry_not_dispatched_witness :
  SCHTBL_GetEntryIndex example_world 98 0 = Some 490
  /\ exists s1,
       SCHEDULER_ConfigSchEntryCmd example_world example_disable_cmd
         example_state = Some (true, s1)
       /\ forall e, SchTbl s1 !! 490%nat = Some e -> Enabled e = false.
Proof.
  split; [reflexivity|].
  destruct (disabled_entry_not_dispatched example_platform example_world
              example_disable_cmd 490 example_state example_platform_ok
              example_index_ok example_slot_inv eq_refl eq_refl eq_refl)
    as (s1 & Hrun & H).
  exists s1. split; [exact Hrun|].
  exact (proj1 (H s1 (rtc_refl _ _))).
Defined.

(** *** The search of SCHEDULER_SendMsgEntryCmd *)

Lemma FindSchEntry_from (MAX : Z) (MsgIndex : Z) (s : SCHEDULER_Class) :
  MAX < 2 ^ 16 ->
  Z.of_nat (length (SchTbl s)) = MAX ->
  forall fuel SchIndex,
  0 <= SchIndex -> SchIndex + Z.of_nat fuel = MAX -> (0 < fuel)%nat ->
  (forall j e, (j < Z.to_nat SchIndex)%nat -> SchTbl s !! j = Some e ->
     MsgTblIndex e <> MsgIndex) ->
  exists Index Found,
    FindSchEntry MAX fuel MsgIndex SchIndex s = Some (Index, Found)
    /\ (forall j e, (j < Z.to_nat Index)%nat -> SchTbl s !! j = Some e ->
          MsgTblIndex e <> MsgIndex)
    /\ (if Found : bool
        then 0 <= Index < MAX
             /\ exists e, SchTbl s !! Z.to_nat Index = Some e
                          /\ MsgTblIndex e = MsgIndex
        else Index = MAX).
Proof.
  intros Hmax Hlen.
  induction fuel as [|fuel IH]; intros i Hi Hsum Hpos Hbelow; [lia|].
  cbn [FindSchEntry].
  assert (Hlt : (Z.to_nat i < length (SchTbl s))%nat) by lia.
  destruct (lookup_lt_is_Some_2 _ _ Hlt) as [e He]. rewrite He. cbn.
  destruct (MsgTblIndex e =? MsgIndex) eqn:E.
  - exists i, true. split; [reflexivity|]. split; [exact Hbelow|].
    split; [lia|]. exists e. split; [exact He|lia].
  - rewrite (wrap_small 16 (i + 1)) by lia.
    assert (Hnext : forall j e', (j < Z.to_nat (i + 1))%nat ->
              SchTbl s !! j = Some e' -> MsgTblIndex e' <> MsgIndex).
    { intros j e' Hj He'.
      destruct (decide (j = Z.to_nat i)) as [->|Hne].
      - rewrite He in He'. injection He' as <-. lia.
      - apply (Hbelow j e'); [lia|exact He']. }
    destruct (i + 1 <? MAX) eqn:E'.
    + apply IH; [lia|lia|lia|exact Hnext].
    + exists (i + 1), false. split; [reflexivity|].
      split; [exact Hnext|lia].
Qed.

(** X19: the search loop of SCHEDULER_SendMsgEntryCmd ends within
    SCHTBL_MAX_ENTRIES iterations and returns the first table index whose
    entry references the message, or SCHTBL_MAX_ENTRIES with [SchEntryFound]
    false when no entry does. *)
Theorem FindSchEntry_first (SCHTBL_MAX_ENTRIES : Z) (MsgIndex : Z)
    (s : SCHEDULER_Class) :
  0 < SCHTBL_MAX_ENTRIES < 2 ^ 16 ->
  Z.of_nat (length (SchTbl s)) = SCHTBL_MAX_ENTRIES ->
  exists Index Found,
    FindSchEntry SCHTBL_MAX_ENTRIES (Z.to_nat SCHTBL_MAX_ENTRIES) MsgIndex 0 s
    = Some (Index, Found)
    /\ (forall j e, (j < Z.to_nat Index)%nat -> SchTbl s !! j = Some e ->
          MsgTblIndex e <> MsgIndex)
    /\ (if Found : bool
        then 0 <= Index < SCHTBL_MAX_ENTRIES
             /\ exists e, SchTbl s !! Z.to_nat Index = Some e
                          /\ MsgTblIndex e = MsgIndex
        else Index = SCHTBL_MAX_ENTRIES).
Proof.
  intros Hmax Hlen.
  apply FindSchEntry_from; try lia.
Qed.

Lemma FindSchEntry_first_witness :
  exists Index Found,
    FindSchEntry 500 500 7 0 example_state = Some (Index, Found)
    /\ forall j e, (j < Z.to_nat Index)%nat ->
         SchTbl example_state !! j = Some e -> MsgTblIndex e <> 7.
Proof.
  destruct (FindSchEntry_first 500 7 example_state ltac:(lia) eq_refl)
    as (Index & Found & Hrun & Hbelow & _).
  exists Index, Found. split; [exact Hrun|exact Hbelow].
Defined.

(** *** Power-on *)

Lemma MinorFrameCallbacks_SlotInv (P : Platform) (readings : list Z) :
  PlatformOK P -> Forall (METReading P) readings ->
  forall s, SlotInv P s -> SlotInv P (MinorFrameCallbacks P readings s).
Proof.
  intros HP Hall. induction Hall as [|us readings Hus _ IH]; intros s HI;
    [exact HI|].
  apply IH. now apply MinorFrameCallback_SlotInv.
Qed.

(** X20: SCHEDULER_Constructor establishes the slot invariant over a
    loaded table, with NextSlotNumber 0, and leaves the tables, the history,
    [TablePassCount], [ConsecutiveNoisyFrameCounter] and [LastProcessCount]
    as they were; SCHEDULER_MF_SRC_NONE being the source NONE,
    SCHEDULER_MAX_SYNC_ATTEMPTS timer ticks later the scheduler has left the
    wait for the MET and the slot invariant still holds. *)
Theorem power_on_synchronises (P : Platform)
    (SCHEDULER_WORST_CLOCK_ACCURACY : Z)
    (SCHEDULER_MF_SRC_NONE : MajorFrameSource_t)
    (TimerCreateStatus ClockAccuracy : Z) (readings : list Z)
    (s : SCHEDULER_Class) :
  PlatformOK P -> FlagsOK P -> TableOK P s ->
  0 <= SCHEDULER_TIME_SYNC_SLOT P < SCHTBL_SLOTS P ->
  SCHEDULER_MF_SRC_NONE = SCHEDULER_MF_SOURCE_NONE ->
  0 < SCHEDULER_MAX_SYNC_ATTEMPTS P < 2 ^ bits P F_SyncAttemptsLeft ->
  SCHEDULER_MAX_SYNC_ATTEMPTS P <= Z.of_nat (length readings) ->
  Forall (METReading P) readings ->
  let s0 :=
    SCHEDULER_Constructor P SCHEDULER_WORST_CLOCK_ACCURACY
      SCHEDULER_MF_SRC_NONE TimerCreateStatus ClockAccuracy s in
  let s1 := MinorFrameCallbacks P readings s0 in
  SlotInv P s0
  /\ NextSlotNumber s0 = 0
  /\ (SchTbl s0 = SchTbl s /\ MsgTbl s0 = MsgTbl s /\ Log s0 = Log s
      /\ TablePassCount s0 = TablePassCount s
      /\ ConsecutiveNoisyFrameCounter s0 = ConsecutiveNoisyFrameCounter s
      /\ LastProcessCount s0 = LastProcessCount s)
  /\ SlotInv P s1
  /\ FreeRunning P s1.
Proof.
  intros HP HF HT Hsync -> Hmax Hlen Hall s0 s1.
  pose proof (slots_pos P HP) as Hpos.
  pose proof (store_slot P F_MinorFramesSinceTone _ HP Hsync) as Hst.
  assert (Hfields :
    NextSlotNumber s0 = 0
    /\ MinorFramesSinceTone s0
       = store P F_MinorFramesSinceTone (SCHEDULER_TIME_SYNC_SLOT P)
    /\ LastSyncMETSlot s0 = 0
    /\ MajorFrameSource s0 = SCHEDULER_MF_SOURCE_NONE
    /\ SchTbl s0 = SchTbl s /\ MsgTbl s0 = MsgTbl s /\ Log s0 = Log s
    /\ TablePassCount s0 = TablePassCount s
    /\ ConsecutiveNoisyFrameCounter s0 = ConsecutiveNoisyFrameCounter s
    /\ LastProcessCount s0 = LastProcessCount s).
  { subst s0. unfold SCHEDULER_Constructor.
    repeat case_if; cbn; repeat split; reflexivity. }
  destruct Hfields as (Hn & Hm & Hl & Hsrc & Ht & Hmsg & Hlog & Hp & Hc & Hlp).
  assert (HI0 : SlotInv P s0).
  { destruct HT as [HT1 HT2].
    split; [split; [lia|split; rewrite Ht; assumption]|lia]. }
  split; [exact HI0|]. split; [exact Hn|].
  split; [auto 10|].
  split; [now apply MinorFrameCallbacks_SlotInv|].
  now apply first_wait_ends.
Qed.

Lemma power_on_synchronises_witness :
  TableOK example_platform example_state
  /\ Forall (METReading example_platform) (replicate 300 5000)
  /\ FreeRunning example_platform
       (MinorFrameCallbacks example_platform (replicate 300 5000)
          (SCHEDULER_Constructor example_platform 100 SCHEDULER_MF_SOURCE_NONE
             OS_SUCCESS 50 example_state)).
Proof.
  assert (Hall : Forall (METReading example_platform) (replicate 300 5000)).
  { apply Forall_replicate. split; cbn; lia. }
  split; [apply example_inv|]. split; [exact Hall|].
  destruct (power_on_synchronises example_platform 100
              SCHEDULER_MF_SOURCE_NONE OS_SUCCESS 50 (replicate 300 5000)
              example_state example_platform_ok example_flags_ok
              (proj2 example_inv) ltac:(cbn; lia) eq_refl ltac:(cbn; lia)
              ltac:(rewrite length_replicate; cbn; lia) Hall)
    as (_ & _ & _ & _ & H).
  exact H.
Defined.
